(** * nest-notification-svc: the dispatch pipeline, embedded and verified

    A shallow embedding of the notification service's dispatcher
    ([notification.service.ts]), template renderer
    ([services/template.renderer.ts]), template lookup
    ([services/channel.service.ts]), channel workers ([workers/*.ts]),
    the admin bulk endpoint ([notification.controller.ts]) and the bulk
    producer ([kafka.producer.ts]), followed by the properties of the
    specification that concern them. *)

From Stdlib Require Import List String Ascii ZArith Lia Bool Arith.
From Stdlib Require Import Numbers.DecimalString.
Import ListNotations.

Open Scope string_scope.
Open Scope Z_scope.

(* ===================================================================== *)
(** * The JavaScript layer the sources rely on *)
(* ===================================================================== *)

(** Primitive values that reach the service as [unknown] / [any]:
    metadata values, properties of rows read from the store.  Numbers are
    the integers (printed in decimal, as JavaScript prints integers of
    magnitude below 1e21). *)
Inductive JsVal : Type :=
| JUndefined
| JNull
| JBool (b : bool)
| JNum (n : Z)
| JStr (s : string).

(** ToBoolean. *)
Definition truthy (v : JsVal) : bool :=
  match v with
  | JUndefined | JNull => false
  | JBool b => b
  | JNum n => negb (n =? 0)
  | JStr s => negb (s =? "")%string
  end.

Definition Z_to_string (n : Z) : string :=
  NilZero.string_of_int (Z.to_int n).

(** [String(value)]. *)
Definition js_String (v : JsVal) : string :=
  match v with
  | JUndefined => "undefined"
  | JNull => "null"
  | JBool true => "true"
  | JBool false => "false"
  | JNum n => Z_to_string n
  | JStr s => s
  end.

(** What a call can throw. *)
Inductive Exn : Type :=
| TypeError (msg : string)
| HttpException (msg : string) (status : Z)
| RecordNotFound.

(** [array.length] *)
Definition js_length {A} (l : list A) : Z := Z.of_nat (List.length l).

(** Abrupt and normal completion of a call. *)
Inductive Completion (A : Type) : Type :=
| Normal (a : A)
| Throw (e : Exn).
Arguments Normal {A} a.
Arguments Throw {A} e.

(** ** Objects used as string-keyed maps

    An object literal keeps its own string keys in insertion order
    ([Object.entries]); writing an existing key keeps its position. *)
Definition JsObject (A : Type) : Type := list (string * A).

Fixpoint own_get {A} (o : JsObject A) (k : string) : option A :=
  match o with
  | [] => None
  | (k', a) :: o' => if (k' =? k)%string then Some a else own_get o' k
  end.

Fixpoint obj_set {A} (o : JsObject A) (k : string) (a : A) : JsObject A :=
  match o with
  | [] => [(k, a)]
  | (k', a') :: o' =>
      if (k' =? k)%string then (k, a) :: o' else (k', a') :: obj_set o' k a
  end.

(** [{ ...base, ...extra }] *)
Definition obj_spread {A} (base extra : JsObject A) : JsObject A :=
  fold_left (fun o kv => obj_set o (fst kv) (snd kv)) extra base.

(** The property names every object literal inherits from
    [Object.prototype]; each of them reads as a function (or, for
    [__proto__], as the prototype object): a truthy value that is neither
    an array nor a number. *)
Definition object_prototype_keys : list string :=
  [ "constructor"; "hasOwnProperty"; "isPrototypeOf";
    "propertyIsEnumerable"; "toLocaleString"; "toString"; "valueOf";
    "__proto__"; "__defineGetter__"; "__defineSetter__";
    "__lookupGetter__"; "__lookupSetter__" ].

Definition str_mem (k : string) (l : list string) : bool :=
  existsb (fun x => (x =? k)%string) l.

(** The result of reading [table[key]] on an object literal. *)
Inductive Lookup (A : Type) : Type :=
| Own (a : A)
| Inherited (name : string)
| Absent.
Arguments Own {A} a.
Arguments Inherited {A} name.
Arguments Absent {A}.

Definition obj_get {A} (table : JsObject A) (k : string) : Lookup A :=
  match own_get table k with
  | Some a => Own a
  | None => if str_mem k object_prototype_keys then Inherited k else Absent
  end.

(** ** [String.prototype.replace] with a global literal pattern *)

(** GetSubstitution for a pattern without capture groups: [$$], [$&],
    [$`] and [$'] are expanded, every other character (a [$] followed by
    anything else included) is copied. *)
Fixpoint getSubstitution (matched before after repl : string) : string :=
  match repl with
  | EmptyString => EmptyString
  | String c r =>
      if Ascii.eqb c "$" then
        match r with
        | String d r' =>
            if Ascii.eqb d "$" then String "$" (getSubstitution matched before after r')
            else if Ascii.eqb d "&" then matched ++ getSubstitution matched before after r'
            else if Ascii.eqb d "`" then before ++ getSubstitution matched before after r'
            else if Ascii.eqb d "'" then after ++ getSubstitution matched before after r'
            else String c (getSubstitution matched before after r)
        | EmptyString => String c EmptyString
        end
      else String c (getSubstitution matched before after r)
  end.

(** Left-to-right scan for the non-overlapping occurrences of [tok] in
    [whole]; [rest] is the suffix of [whole] at index [pos], [skip] counts
    the characters of the current match still to be dropped. *)
Fixpoint replace_scan (tok repl whole : string) (pos : nat) (rest : string)
         (skip : nat) : string :=
  match rest with
  | EmptyString => EmptyString
  | String c rest' =>
      match skip with
      | S k => replace_scan tok repl whole (S pos) rest' k
      | O =>
          if prefix tok rest then
            let before := substring 0 pos whole in
            let after := substring (pos + String.length tok)
                                   (String.length whole - (pos + String.length tok))
                                   whole in
            getSubstitution tok before after repl
              ++ replace_scan tok repl whole (S pos) rest' (String.length tok - 1)
          else String c (replace_scan tok repl whole (S pos) rest' O)
      end
  end.

(** [s.replace(new RegExp(tok, 'g'), repl)] for a pattern that matches
    exactly the (non-empty) literal [tok]. *)
Definition replace_global (tok repl s : string) : string :=
  replace_scan tok repl s 0 s 0.

(** ** [new RegExp(`{{${key}}}`, 'g')]

    The key is spliced into the pattern unescaped.  Three classes of keys
    are told apart:
    - keys made of letters, digits and [_] that are not a run of digits:
      every character of [{{key}}] is a pattern character, the pattern
      matches exactly the literal token;
    - keys made of such characters and at least one [(]: the group is
      never closed and the constructor throws a SyntaxError;
    - every other key (regular-expression syntax in the key; a run of
      digits, which turns [{digits}] into a quantifier) is outside this
      model. *)
Definition is_digit (c : ascii) : bool :=
  let n := nat_of_ascii c in (48 <=? n)%nat && (n <=? 57)%nat.

Definition is_word_char (c : ascii) : bool :=
  let n := nat_of_ascii c in
  is_digit c
  || ((65 <=? n)%nat && (n <=? 90)%nat)
  || ((97 <=? n)%nat && (n <=? 122)%nat)
  || (n =? 95)%nat.

Fixpoint string_forallb (p : ascii -> bool) (s : string) : bool :=
  match s with
  | EmptyString => true
  | String c s' => p c && string_forallb p s'
  end.

Fixpoint string_existsb (p : ascii -> bool) (s : string) : bool :=
  match s with
  | EmptyString => false
  | String c s' => p c || string_existsb p s'
  end.

Definition plain_key (key : string) : bool :=
  string_forallb is_word_char key
  && negb (string_forallb is_digit key && negb (key =? "")%string).

Definition unclosed_group_key (key : string) : bool :=
  string_forallb (fun c => is_word_char c || Ascii.eqb c "(") key
  && string_existsb (fun c => Ascii.eqb c "(") key.

Inductive RegExpResult : Type :=
| Compiled (tok : string)
| SyntaxError
| Unmodelled.

Definition placeholder (key : string) : string := "{{" ++ key ++ "}}".

Definition new_RegExp (key : string) : RegExpResult :=
  if plain_key key then Compiled (placeholder key)
  else if unclosed_group_key key then SyntaxError
  else Unmodelled.

(* ===================================================================== *)
(** * Entities ([Common/Types/notification.types.ts]) *)
(* ===================================================================== *)

Module NotificationType.
Definition WELCOME := "WELCOME".
Definition PASSWORD_RESET := "PASSWORD_RESET".
Definition EMAIL_VERIFICATION := "EMAIL_VERIFICATION".
Definition ORDER_CONFIRMATION := "ORDER_CONFIRMATION".
Definition ORDER_SHIPPED := "ORDER_SHIPPED".
Definition ORDER_DELIVERED := "ORDER_DELIVERED".
Definition PAYMENT_SUCCESS := "PAYMENT_SUCCESS".
Definition PAYMENT_FAILED := "PAYMENT_FAILED".
Definition all : list string :=
  [ WELCOME; PASSWORD_RESET; EMAIL_VERIFICATION; ORDER_CONFIRMATION;
    ORDER_SHIPPED; ORDER_DELIVERED; PAYMENT_SUCCESS; PAYMENT_FAILED ].
End NotificationType.

Module NotificationChannel.
Definition EMAIL := "EMAIL".
Definition PUSH := "PUSH".
Definition SMS := "SMS".
End NotificationChannel.

Module NotificationPriority.
Definition LOW := "LOW".
Definition NORMAL := "NORMAL".
Definition HIGH := "HIGH".
Definition URGENT := "URGENT".
End NotificationPriority.

Module NotificationStatus.
Definition QUEUED := "QUEUED".
Definition PROCESSING := "PROCESSING".
Definition SENT := "SENT".
Definition FAILED := "FAILED".
End NotificationStatus.

(** [NotificationTemplateEntity]; a [null] or missing [htmlContent] is
    [None]. *)
Record NotificationTemplate : Type := {
  tpl_id : nat;
  tpl_type : string;
  tpl_channel : string;
  tpl_title : string;
  tpl_message : string;
  tpl_htmlContent : option string;
  tpl_isActive : bool
}.

(* ===================================================================== *)
(** * Template renderer ([services/template.renderer.ts]) *)
(* ===================================================================== *)

(** What [render] returns. *)
Record Rendered : Type := {
  title : string;
  message : string;
  htmlContent : option string
}.

(** The three fields of a template, unrendered. *)
Definition template_fields (t : NotificationTemplate) : Rendered :=
  {| title := tpl_title t; message := tpl_message t;
     htmlContent := tpl_htmlContent t |}.

(** A template row whose three fields are those of [r]. *)
Definition with_fields (t : NotificationTemplate) (r : Rendered)
  : NotificationTemplate :=
  {| tpl_id := tpl_id t; tpl_type := tpl_type t; tpl_channel := tpl_channel t;
     tpl_title := title r; tpl_message := message r;
     tpl_htmlContent := htmlContent r; tpl_isActive := tpl_isActive t |}.

(** How the body of the [try] block ends. *)
Inductive TryBody (A : Type) : Type :=
| Returned (a : A)
| Raised
| OutsideModel.
Arguments Returned {A} a.
Arguments Raised {A}.
Arguments OutsideModel {A}.

(** [if (htmlContent) htmlContent = htmlContent.replace(...)] *)
Definition replace_html (tok repl : string) (h : option string) : option string :=
  match h with
  | Some s => if negb (s =? "")%string then Some (replace_global tok repl s) else Some s
  | None => None
  end.

(** The [for (const [key, value] of Object.entries(variables))] loop. *)
Fixpoint render_loop (acc : Rendered) (entries : JsObject JsVal)
  : TryBody Rendered :=
  match entries with
  | [] => Returned acc
  | (key, value) :: rest =>
      match new_RegExp key with
      | Compiled tok =>
          render_loop
            {| title := replace_global tok (js_String value) (title acc);
               message := replace_global tok (js_String value) (message acc);
               htmlContent := replace_html tok (js_String value) (htmlContent acc) |}
            rest
      | SyntaxError => Raised
      | Unmodelled => OutsideModel
      end
  end.

(** [render(template, variables)]; [None] when a key falls outside the
    modelled class of patterns. *)
Definition render (template : NotificationTemplate)
           (variables : JsObject JsVal) : option Rendered :=
  match render_loop (template_fields template) variables with
  | Returned r => Some r
  | Raised => Some (template_fields template)
  | OutsideModel => None
  end.

(** How the loop ends, as far as the keys decide it. *)
Fixpoint keys_outcome (entries : JsObject JsVal) : TryBody unit :=
  match entries with
  | [] => Returned tt
  | (key, _) :: rest =>
      match new_RegExp key with
      | Compiled _ => keys_outcome rest
      | SyntaxError => Raised
      | Unmodelled => OutsideModel
      end
  end.

(** [tok] occurs somewhere in [s]. *)
Fixpoint occurs (tok s : string) : bool :=
  prefix tok s
  || match s with
     | EmptyString => false
     | String _ s' => occurs tok s'
     end.

Definition occurs_html (tok : string) (h : option string) : bool :=
  match h with Some s => occurs tok s | None => false end.

(* ===================================================================== *)
(** * The world the service runs in *)
(* ===================================================================== *)

(** [UserPreferenceEntity]: the rows of [user_preferences], as
    [channel.service.ts] writes them ([isEnabled]). *)
Record UserPreference : Type := {
  up_userId : string;
  up_channel : string;
  up_isEnabled : bool
}.

(** Reading property [name] of a preference row. *)
Definition pref_prop (p : UserPreference) (name : string) : JsVal :=
  if (name =? "userId")%string then JStr (up_userId p)
  else if (name =? "channel")%string then JStr (up_channel p)
  else if (name =? "isEnabled")%string then JBool (up_isEnabled p)
  else JUndefined.

(** [NotificationEntity].  Identifiers are opaque; they are numbered here.
    Instants are milliseconds since the epoch. *)
Record Notification : Type := {
  n_id : nat;
  n_userId : string;
  n_title : string;
  n_message : string;
  n_type : string;
  n_channel : string;
  n_priority : string;
  n_metadata : option (JsObject JsVal);
  n_scheduledAt : option Z;
  n_status : string;
  n_retryCount : Z;
  n_createdAt : Z;
  n_updatedAt : Z;
  n_sentAt : option Z;
  n_failedAt : option Z;
  n_errorMessage : option string
}.

(** [SendNotificationData]; an optional field that is missing is [None].
    [scheduledAt] is a [Date] (its time value). *)
Record SendNotificationData : Type := {
  nd_userId : string;
  nd_type : string;
  nd_title : string;
  nd_message : string;
  nd_channel : option string;
  nd_priority : option string;
  nd_metadata : option (JsObject JsVal);
  nd_scheduledAt : option Z
}.

(** [SendNotificationDto], the item of the admin bulk payload. *)
Record SendNotificationDto : Type := {
  dto_userId : string;
  dto_type : string;
  dto_title : string;
  dto_message : string;
  dto_channel : option string;
  dto_priority : option string;
  dto_metadata : option (JsObject JsVal);
  dto_scheduledAt : option string
}.

(** The value a job is enqueued with as its [priority] option: a number,
    or a member inherited from [Object.prototype]. *)
Inductive PriorityValue : Type :=
| PNumber (n : Z)
| PInherited (name : string).

Record JobData : Type := {
  jd_notificationId : nat;
  jd_userId : string;
  jd_title : string;
  jd_message : string;
  jd_metadata : option (JsObject JsVal)
}.

(** A job as [queue.add(name, data, { priority, delay })] records it. *)
Record Job : Type := {
  j_name : string;
  j_data : JobData;
  j_priority : PriorityValue;
  j_delay : Z
}.

(** An entry of the renderer's template cache. *)
Record CacheEntry : Type := {
  ce_value : NotificationTemplate;
  ce_timestamp : Z
}.

(** The message the bulk producer puts on a topic. *)
Record BulkPayload : Type := {
  bp_batchId : string;
  bp_bulkNotifications : list SendNotificationDto;
  bp_totalNotifications : Z;
  bp_chunkIndex : Z;
  bp_totalChunks : Z
}.

Record KafkaMessage : Type := {
  km_topic : string;
  km_key : string;
  km_value : BulkPayload;
  km_timestamp : string
}.

Inductive QueueName : Type := EmailQueue | PushQueue | SmsQueue.

(** Store tables (rows in the order an unordered query returns them), the
    jobs added to the three queues (in the order they were added, each
    with the queue it went to), the template cache (a [Map], in insertion
    order), the messages the producer has sent, and the clock: [clock k]
    is what the [k]-th reading of the time returns. *)
Record World : Type := {
  notifications : list Notification;
  userPreferences : list UserPreference;
  notificationTemplates : list NotificationTemplate;
  queued : list (QueueName * Job);
  cache : JsObject CacheEntry;
  produced : list KafkaMessage;
  nextId : nat;
  clock : nat -> Z;
  reads : nat
}.

Definition set_notifications (w : World) (l : list Notification) : World :=
  {| notifications := l; userPreferences := userPreferences w;
     notificationTemplates := notificationTemplates w; queued := queued w;
     cache := cache w; produced := produced w; nextId := nextId w;
     clock := clock w; reads := reads w |}.

Definition set_nextId (w : World) (k : nat) : World :=
  {| notifications := notifications w; userPreferences := userPreferences w;
     notificationTemplates := notificationTemplates w; queued := queued w;
     cache := cache w; produced := produced w; nextId := k;
     clock := clock w; reads := reads w |}.

Definition set_queued (w : World) (q : list (QueueName * Job)) : World :=
  {| notifications := notifications w; userPreferences := userPreferences w;
     notificationTemplates := notificationTemplates w; queued := q;
     cache := cache w; produced := produced w; nextId := nextId w;
     clock := clock w; reads := reads w |}.

Definition set_cache (w : World) (c : JsObject CacheEntry) : World :=
  {| notifications := notifications w; userPreferences := userPreferences w;
     notificationTemplates := notificationTemplates w; queued := queued w;
     cache := c; produced := produced w; nextId := nextId w;
     clock := clock w; reads := reads w |}.

Definition set_produced (w : World) (l : list KafkaMessage) : World :=
  {| notifications := notifications w; userPreferences := userPreferences w;
     notificationTemplates := notificationTemplates w; queued := queued w;
     cache := cache w; produced := l; nextId := nextId w;
     clock := clock w; reads := reads w |}.

Definition set_reads (w : World) (k : nat) : World :=
  {| notifications := notifications w; userPreferences := userPreferences w;
     notificationTemplates := notificationTemplates w; queued := queued w;
     cache := cache w; produced := produced w; nextId := nextId w;
     clock := clock w; reads := k |}.

Definition queue_eqb (a b : QueueName) : bool :=
  match a, b with
  | EmailQueue, EmailQueue | PushQueue, PushQueue | SmsQueue, SmsQueue => true
  | _, _ => false
  end.

(** The jobs on one queue. *)
Definition jobs_on (q : QueueName) (w : World) : list Job :=
  map snd (filter (fun qj => queue_eqb (fst qj) q) (queued w)).

Definition emailQueue : World -> list Job := jobs_on EmailQueue.
Definition pushQueue : World -> list Job := jobs_on PushQueue.
Definition smsQueue : World -> list Job := jobs_on SmsQueue.

(** ** Computations over the world

    A call runs on a world and ends normally or by throwing; what it did
    to the world before throwing stays done. *)
Definition M (A : Type) : Type := World -> Completion A * World.

Definition ret {A} (a : A) : M A := fun w => (Normal a, w).

Definition bind {A B} (m : M A) (k : A -> M B) : M B :=
  fun w =>
    match m w with
    | (Normal a, w') => k a w'
    | (Throw e, w') => (Throw e, w')
    end.

Definition throw {A} (e : Exn) : M A := fun w => (Throw e, w).

Definition lift {A} (c : Completion A) : M A := fun w => (c, w).

Declare Scope m_scope.
Delimit Scope m_scope with M.
Notation "x <- m ;; k" := (bind m (fun x => k))
  (at level 61, m at next level, right associativity) : m_scope.
Notation "m ;;; k" := (bind m (fun _ => k))
  (at level 61, right associativity) : m_scope.
Open Scope m_scope.

(** [Date.now()], [new Date()] *)
Definition Date_now : M Z :=
  fun w => (Normal (clock w (reads w)), set_reads w (S (reads w))).

(* ===================================================================== *)
(** * Template cache ([services/template.renderer.ts]) *)
(* ===================================================================== *)

Definition maxSize : Z := 500.
Definition ttlMs : Z := 5 * 60 * 1000.

(** [Map.prototype.delete] *)
Fixpoint obj_delete {A} (o : JsObject A) (k : string) : JsObject A :=
  match o with
  | [] => []
  | (k', a) :: o' => if (k' =? k)%string then o' else (k', a) :: obj_delete o' k
  end.

Definition cache_get (key : string) : M (option CacheEntry) :=
  fun w => (Normal (own_get (cache w) key), w).

Definition cache_delete (key : string) : M unit :=
  fun w => (Normal tt, set_cache w (obj_delete (cache w) key)).

(** [Map.prototype.set]: a new key goes last, a key that is there keeps
    its place. *)
Definition cache_set (key : string) (entry : CacheEntry) : M unit :=
  fun w => (Normal tt, set_cache w (obj_set (cache w) key entry)).

Definition cache_size : M Z :=
  fun w => (Normal (js_length (cache w)), w).

(** [this.cache.keys().next().value] *)
Definition cache_first_key : M (option string) :=
  fun w => (Normal (match cache w with
                    | [] => None
                    | (k, _) :: _ => Some k
                    end), w).

Definition getCached (key : string) : M (option NotificationTemplate) :=
  entry <- cache_get key ;;
  match entry with
  | None => ret None
  | Some entry =>
      now <- Date_now ;;
      if now - ce_timestamp entry >? ttlMs then
        cache_delete key ;;;
        ret None
      else
        (* LRU: re-insert *)
        cache_delete key ;;;
        now' <- Date_now ;;
        cache_set key {| ce_value := ce_value entry; ce_timestamp := now' |} ;;;
        ret (Some (ce_value entry))
  end.

Definition setCached (key : string) (value : NotificationTemplate) : M unit :=
  size <- cache_size ;;
  (if size >=? maxSize then
     oldestKey <- cache_first_key ;;
     match oldestKey with
     | Some k => cache_delete k
     | None => ret tt
     end
   else ret tt) ;;;
  now <- Date_now ;;
  cache_set key {| ce_value := value; ce_timestamp := now |}.

(* ===================================================================== *)
(** * Channel service ([services/channel.service.ts]) *)
(* ===================================================================== *)

(** [prisma.notificationTemplate.findFirst({ where: { type, channel,
    isActive: true } })].  Reads of the store do not fail here, so the
    [catch] branches of the channel service are not taken. *)
Definition findFirst_template (type channel : string) : M (option NotificationTemplate) :=
  fun w =>
    (Normal (find (fun t => (tpl_type t =? type)%string
                            && (tpl_channel t =? channel)%string
                            && tpl_isActive t)
                  (notificationTemplates w)), w).

Definition getNotificationTemplate (type channel : string)
  : M (option NotificationTemplate) :=
  let cacheKey := type ++ ":" ++ channel in
  cached <- getCached cacheKey ;;
  match cached with
  | Some t => ret (Some t)
  | None =>
      tpl <- findFirst_template type channel ;;
      match tpl with
      | Some t => setCached cacheKey t ;;; ret tpl
      | None => ret tpl
      end
  end.

Definition renderTemplate (template : NotificationTemplate)
           (variables : JsObject JsVal) : option Rendered :=
  render template variables.

(* ===================================================================== *)
(** * Channel workers ([workers/email.worker.ts], [push.worker.ts],
      [mqtt.worker.ts]): the content of the message *)
(* ===================================================================== *)

(** [{ title, message, ...metadata }] *)
Definition template_variables (job : JobData) : JsObject JsVal :=
  obj_spread [("title", JStr (jd_title job)); ("message", JStr (jd_message job))]
             (match jd_metadata job with Some m => m | None => [] end).

(** [rendered.htmlContent || rendered.message] *)
Definition html_or_message (rendered : Rendered) : string :=
  match htmlContent rendered with
  | Some h => if negb (h =? "")%string then h else message rendered
  | None => message rendered
  end.

(** The (subject, html) pair [sendEmail] hands to the transporter;
    [None] when rendering falls outside the model. *)
Definition sendEmail_content (job : JobData) : M (option (string * string)) :=
  template <- getNotificationTemplate "EMAIL" "EMAIL" ;;
  match template with
  | Some t =>
      match renderTemplate t (template_variables job) with
      | Some rendered => ret (Some (title rendered, html_or_message rendered))
      | None => ret None
      end
  | None => ret (Some (jd_title job, jd_message job))
  end.

(** The (title, body) pair [sendPush] sends to every device. *)
Definition sendPush_content (job : JobData) : M (option (string * string)) :=
  template <- getNotificationTemplate "PUSH" "PUSH" ;;
  match template with
  | Some t =>
      match renderTemplate t (template_variables job) with
      | Some rendered => ret (Some (title rendered, message rendered))
      | None => ret None
      end
  | None => ret (Some (jd_title job, jd_message job))
  end.

(** The (title, message) pair [sendSMS] publishes. *)
Definition sendSMS_content (job : JobData) : M (option (string * string)) :=
  template <- getNotificationTemplate "SMS" "SMS" ;;
  match template with
  | Some t =>
      match renderTemplate t (template_variables job) with
      | Some rendered => ret (Some (title rendered, message rendered))
      | None => ret None
      end
  | None => ret (Some (jd_title job, jd_message job))
  end.

(* ===================================================================== *)
(** * Notification service ([notification.service.ts]) *)
(* ===================================================================== *)

(** [value || fallback] on an optional string. *)
Definition or_default (value : option string) (fallback : string) : string :=
  match value with
  | Some s => if negb (s =? "")%string then s else fallback
  | None => fallback
  end.

(** Modelled from the spec: the column defaults of the [notifications]
    table (the Prisma schema is not among the sources): a fresh id,
    status QUEUED, retryCount 0, createdAt and updatedAt set to the time
    of creation, sentAt, failedAt and errorMessage empty. *)
Definition created_row (d : SendNotificationData) (id : nat) (now : Z)
  : Notification :=
  {| n_id := id;
     n_userId := nd_userId d;
     n_title := nd_title d;
     n_message := nd_message d;
     n_type := nd_type d;
     n_channel := or_default (nd_channel d) NotificationChannel.EMAIL;
     n_priority := or_default (nd_priority d) NotificationPriority.NORMAL;
     n_metadata := nd_metadata d;
     n_scheduledAt := nd_scheduledAt d;
     n_status := NotificationStatus.QUEUED;
     n_retryCount := 0;
     n_createdAt := now;
     n_updatedAt := now;
     n_sentAt := None;
     n_failedAt := None;
     n_errorMessage := None |}.

(** [prisma.notification.create({ data })] *)
Definition prisma_notification_create (d : SendNotificationData) : M Notification :=
  now <- Date_now ;;
  fun w =>
    let row := created_row d (nextId w) now in
    (Normal row,
     set_nextId (set_notifications w (notifications w ++ [row])) (S (nextId w))).

(** [prisma.userPreference.findMany({ where: { userId } })] *)
Definition getUserPreferences (userId : string) : M (list UserPreference) :=
  fun w => (Normal (filter (fun p => (up_userId p =? userId)%string)
                           (userPreferences w)), w).

Definition defaultChannels : JsObject (list string) :=
  [ (NotificationType.WELCOME, [NotificationChannel.EMAIL]);
    (NotificationType.ORDER_CONFIRMATION,
       [NotificationChannel.EMAIL; NotificationChannel.PUSH]);
    (NotificationType.ORDER_SHIPPED,
       [NotificationChannel.PUSH; NotificationChannel.SMS]);
    (NotificationType.ORDER_DELIVERED, [NotificationChannel.PUSH]);
    (NotificationType.PAYMENT_SUCCESS, [NotificationChannel.EMAIL]);
    (NotificationType.PAYMENT_FAILED,
       [NotificationChannel.EMAIL; NotificationChannel.PUSH]);
    (NotificationType.PASSWORD_RESET, [NotificationChannel.EMAIL]);
    (NotificationType.EMAIL_VERIFICATION, [NotificationChannel.EMAIL]) ].

(** [userPreferences.filter(pref => pref.enabled).map(pref => pref.channel)] *)
Definition enabledChannels (userPreferences : list UserPreference) : list string :=
  map up_channel (filter (fun pref => truthy (pref_prop pref "enabled")) userPreferences).

(** [typeChannels.filter(channel => enabledChannels.length === 0 ||
    enabledChannels.includes(channel))] *)
Definition filter_enabled (enabled typeChannels : list string) : list string :=
  filter (fun channel => (js_length enabled =? 0) || str_mem channel enabled)
         typeChannels.

(** [if (notificationData.channel)]: the pinned channel, if there is a
    non-empty one. *)
Definition pinned_channel (notificationData : SendNotificationData) : option string :=
  match nd_channel notificationData with
  | Some c => if negb (c =? "")%string then Some c else None
  | None => None
  end.

Definition determineChannels (notificationData : SendNotificationData)
           (userPreferences : list UserPreference) : Completion (list string) :=
  let enabled := enabledChannels userPreferences in
  match pinned_channel notificationData with
  | Some channel => Normal [channel]
  | None =>
      (* defaultChannels[type] || [EMAIL], then .filter(...) *)
      match obj_get defaultChannels (nd_type notificationData) with
      | Own typeChannels => Normal (filter_enabled enabled typeChannels)
      | Absent => Normal (filter_enabled enabled [NotificationChannel.EMAIL])
      | Inherited _ => Throw (TypeError "typeChannels.filter is not a function")
      end
  end.

Definition priorityMap : JsObject Z :=
  [ (NotificationPriority.LOW, 1); (NotificationPriority.NORMAL, 5);
    (NotificationPriority.HIGH, 10); (NotificationPriority.URGENT, 20) ].

Definition getPriority (priority : option string) : PriorityValue :=
  match obj_get priorityMap (or_default priority NotificationPriority.NORMAL) with
  | Own n => if negb (n =? 0) then PNumber n else PNumber 5
  | Inherited name => PInherited name
  | Absent => PNumber 5
  end.

(** [scheduledAt ? new Date(scheduledAt).getTime() - Date.now() : 0] *)
Definition job_delay (scheduledAt : option Z) : M Z :=
  match scheduledAt with
  | Some t => now <- Date_now ;; ret (t - now)
  | None => ret 0
  end.

(** [queue.add(name, data, { priority, delay })] *)
Definition queue_add (q : QueueName) (name : string) (data : JobData)
           (priority : PriorityValue) (delay : Z) : M unit :=
  fun w =>
    (Normal tt,
     set_queued w
       (queued w ++ [(q, {| j_name := name; j_data := data;
                            j_priority := priority; j_delay := delay |})])).

(** The queue and job name the [switch (channel)] picks. *)
Definition queue_of_channel (channel : string) : option (QueueName * string) :=
  if (channel =? NotificationChannel.EMAIL)%string then Some (EmailQueue, "send-email")
  else if (channel =? NotificationChannel.PUSH)%string then Some (PushQueue, "send-push")
  else if (channel =? NotificationChannel.SMS)%string then Some (SmsQueue, "send-sms")
  else None.

Definition jobData_of (notificationData : SendNotificationData)
           (notification : Notification) : JobData :=
  {| jd_notificationId := n_id notification;
     jd_userId := nd_userId notificationData;
     jd_title := nd_title notificationData;
     jd_message := nd_message notificationData;
     jd_metadata := nd_metadata notificationData |}.

(** The [for (const channel of channels)] loop with its [switch]. *)
Fixpoint queue_jobs (notificationData : SendNotificationData)
         (notification : Notification) (channels : list string) : M unit :=
  match channels with
  | [] => ret tt
  | channel :: rest =>
      match queue_of_channel channel with
      | Some (q, name) =>
          delay <- job_delay (nd_scheduledAt notificationData) ;;
          queue_add q name (jobData_of notificationData notification)
                    (getPriority (nd_priority notificationData)) delay
      | None => ret tt
      end ;;;
      queue_jobs notificationData notification rest
  end.

Definition sendNotification (notificationData : SendNotificationData)
  : M Notification :=
  notification <- prisma_notification_create notificationData ;;
  userPreferences <- getUserPreferences (nd_userId notificationData) ;;
  channels <- lift (determineChannels notificationData userPreferences) ;;
  queue_jobs notificationData notification channels ;;;
  ret notification.

(** The [data] of a [prisma.notification.update].  A key that is missing
    is [None]; [errorMessage] can be present and [undefined]
    ([Some None]).  Prisma leaves a column alone when its key is missing
    or [undefined]. *)
Record UpdateData : Type := {
  ud_status : option string;
  ud_updatedAt : option Z;
  ud_sentAt : option Z;
  ud_failedAt : option Z;
  ud_errorMessage : option (option string);
  ud_retryCount : option Z
}.

Definition apply_update (u : UpdateData) (n : Notification) : Notification :=
  {| n_id := n_id n;
     n_userId := n_userId n;
     n_title := n_title n;
     n_message := n_message n;
     n_type := n_type n;
     n_channel := n_channel n;
     n_priority := n_priority n;
     n_metadata := n_metadata n;
     n_scheduledAt := n_scheduledAt n;
     n_status := match ud_status u with Some s => s | None => n_status n end;
     n_retryCount := match ud_retryCount u with Some c => c | None => n_retryCount n end;
     n_createdAt := n_createdAt n;
     n_updatedAt := match ud_updatedAt u with Some t => t | None => n_updatedAt n end;
     n_sentAt := match ud_sentAt u with Some t => Some t | None => n_sentAt n end;
     n_failedAt := match ud_failedAt u with Some t => Some t | None => n_failedAt n end;
     n_errorMessage := match ud_errorMessage u with
                       | Some (Some e) => Some e
                       | _ => n_errorMessage n
                       end |}.

Definition find_notification (id : nat) (rows : list Notification)
  : option Notification :=
  find (fun n => (n_id n =? id)%nat) rows.

(** [prisma.notification.update({ where: { id }, data })]: the row with
    that id is rewritten and returned; there is an error when there is
    none. *)
Definition prisma_notification_update (id : nat) (data : UpdateData)
  : M Notification :=
  fun w =>
    match find_notification id (notifications w) with
    | Some row =>
        (Normal (apply_update data row),
         set_notifications w
           (map (fun n => if (n_id n =? id)%nat then apply_update data n else n)
                (notifications w)))
    | None => (Throw RecordNotFound, w)
    end.

(** The [updateData] object [updateNotificationStatus] builds. *)
Definition updateData_for (status : string) (errorMessage : option string) : M UpdateData :=
  updatedAt <- Date_now ;;
  if (status =? NotificationStatus.SENT)%string then
    sentAt <- Date_now ;;
    ret {| ud_status := Some status; ud_updatedAt := Some updatedAt;
           ud_sentAt := Some sentAt; ud_failedAt := None;
           ud_errorMessage := None; ud_retryCount := None |}
  else if (status =? NotificationStatus.FAILED)%string then
    failedAt <- Date_now ;;
    ret {| ud_status := Some status; ud_updatedAt := Some updatedAt;
           ud_sentAt := None; ud_failedAt := Some failedAt;
           ud_errorMessage := Some errorMessage; ud_retryCount := None |}
  else
    ret {| ud_status := Some status; ud_updatedAt := Some updatedAt;
           ud_sentAt := None; ud_failedAt := None;
           ud_errorMessage := None; ud_retryCount := None |}.

Definition updateNotificationStatus (notificationId : nat) (status : string)
           (errorMessage : option string) : M Notification :=
  updateData <- updateData_for status errorMessage ;;
  prisma_notification_update notificationId updateData.

(** [prisma.notification.findMany({ where: { status: 'FAILED',
    retryCount: { lt: 3 } }, take: 100 })] *)
Definition retryable (n : Notification) : bool :=
  (n_status n =? "FAILED")%string && (n_retryCount n <? 3).

Definition findFailedForRetry : M (list Notification) :=
  fun w => (Normal (firstn 100 (filter retryable (notifications w))), w).

(** The [sendNotification] argument the retry pass builds from a row. *)
Definition retry_data (notification : Notification) : SendNotificationData :=
  {| nd_userId := n_userId notification;
     nd_type := n_type notification;
     nd_title := n_title notification;
     nd_message := n_message notification;
     nd_channel := Some (n_channel notification);
     nd_priority := Some (n_priority notification);
     nd_metadata := n_metadata notification;
     nd_scheduledAt := None |}.

Definition retryCount_data (c : Z) : UpdateData :=
  {| ud_status := None; ud_updatedAt := None; ud_sentAt := None;
     ud_failedAt := None; ud_errorMessage := None; ud_retryCount := Some c |}.

Fixpoint retry_loop (failedNotifications : list Notification) : M unit :=
  match failedNotifications with
  | [] => ret tt
  | notification :: rest =>
      sendNotification (retry_data notification) ;;;
      prisma_notification_update (n_id notification)
        (retryCount_data (n_retryCount notification + 1)) ;;;
      retry_loop rest
  end.

Definition retryFailedNotifications : M unit :=
  failedNotifications <- findFailedForRetry ;;
  retry_loop failedNotifications.

(* ===================================================================== *)
(** * Bulk producer ([kafka.producer.ts]) *)
(* ===================================================================== *)

(** [for (let i = 0; i < notifications.length; i += chunkSize)
      chunks.push(notifications.slice(i, i + chunkSize))] *)
Fixpoint chunk_loop {A} (fuel chunkSize i : nat) (notifications : list A)
  : list (list A) :=
  match fuel with
  | O => []
  | S fuel' =>
      if (i <? List.length notifications)%nat
      then firstn chunkSize (skipn i notifications)
             :: chunk_loop fuel' chunkSize (i + chunkSize) notifications
      else []
  end.

Definition chunkSize : nat := 1000.

Definition chunks_of {A} (notifications : list A) : list (list A) :=
  chunk_loop (List.length notifications) chunkSize 0 notifications.

(** [chunks.map((chunk, index) => this.producer.send(...))] *)
Fixpoint send_chunks (batchIdFinal : string) (total totalChunks : Z)
         (index : Z) (chunks : list (list SendNotificationDto)) : M unit :=
  match chunks with
  | [] => ret tt
  | chunk :: rest =>
      now <- Date_now ;;
      (fun w =>
         let key := batchIdFinal ++ "_chunk_" ++ Z_to_string index in
         (Normal tt,
          set_produced w
            (produced w ++
               [ {| km_topic := "notification.bulk";
                    km_key := key;
                    km_value := {| bp_batchId := key;
                                   bp_bulkNotifications := chunk;
                                   bp_totalNotifications := total;
                                   bp_chunkIndex := index;
                                   bp_totalChunks := totalChunks |};
                    km_timestamp := Z_to_string now |} ]))) ;;;
      send_chunks batchIdFinal total totalChunks (index + 1) rest
  end.

Definition producer_sendBulkNotifications
           (notifications : list SendNotificationDto) (batchId : option string)
  : M unit :=
  startTime <- Date_now ;;
  batchIdFinal <- match batchId with
                  | Some b => if negb (b =? "")%string then ret b
                              else (now <- Date_now ;; ret ("bulk_" ++ Z_to_string now))
                  | None => now <- Date_now ;; ret ("bulk_" ++ Z_to_string now)
                  end ;;
  let chunks := chunks_of notifications in
  send_chunks batchIdFinal (js_length notifications) (js_length chunks)
              0 chunks ;;;
  finished <- Date_now ;;
  ret tt.

(* ===================================================================== *)
(** * Admin controller ([notification.controller.ts]) *)
(* ===================================================================== *)

Definition BAD_REQUEST : Z := 400.

Record BulkResponse : Type := {
  br_success : bool;
  br_message : string;
  br_batchId : string
}.

(** [sendBulkNotifications(body)], on a body that has passed the
    validation pipe (its items are well-formed DTOs);
    [body.notifications] is [None] when the property is missing. *)
Definition sendBulkNotifications (body_notifications : option (list SendNotificationDto))
  : M BulkResponse :=
  match body_notifications with
  | None => throw (HttpException "No notifications provided" BAD_REQUEST)
  | Some notifications =>
      if js_length notifications =? 0 then
        throw (HttpException "No notifications provided" BAD_REQUEST)
      else if js_length notifications >? 10000 then
        throw (HttpException "Too many notifications. Maximum 10,000 per request."
                             BAD_REQUEST)
      else
        producer_sendBulkNotifications notifications None ;;;
        now <- Date_now ;;
        ret {| br_success := true;
               br_message := Z_to_string (js_length notifications)
                               ++ " notifications queued for processing";
               br_batchId := "admin_" ++ Z_to_string now |}
  end.

(* ===================================================================== *)
(** * Properties stated by the specification, as predicates *)
(* ===================================================================== *)

(** The jobs a call of [sendNotification] adds to the queues. *)
Definition added_jobs (d : SendNotificationData) (w : World)
  : list (QueueName * Job) :=
  skipn (List.length (queued w)) (queued (snd (sendNotification d w))).

(** The queues (and job names) a list of channels leads to. *)
Definition channels_queues (channels : list string) : list (QueueName * string) :=
  flat_map (fun c => match queue_of_channel c with
                     | Some x => [x]
                     | None => []
                     end) channels.

(** The world right after the notification row is persisted. *)
Definition after_create (d : SendNotificationData) (w : World) : World :=
  set_nextId
    (set_notifications (set_reads w (S (reads w)))
       (notifications w ++ [created_row d (nextId w) (clock w (reads w))]))
    (S (nextId w)).

(** What the dispatcher computes as the delay of a job: nothing when the
    request is not scheduled, else the scheduled instant minus a reading
    of the clock taken during the call (readings [from] to [to]). *)
Definition delay_as_computed (d : SendNotificationData) (w : World)
           (from to : nat) (j : Job) : Prop :=
  match nd_scheduledAt d with
  | None => j_delay j = 0
  | Some t => exists k, (from <= k < to)%nat /\ j_delay j = t - clock w k
  end.

(** No [{{key}}] token of a supplied variable is left in [r]. *)
Definition tokens_substituted (variables : JsObject JsVal) (r : Rendered) : bool :=
  forallb (fun key =>
             negb (occurs (placeholder key) (title r))
             && negb (occurs (placeholder key) (message r))
             && negb (occurs_html (placeholder key) (htmlContent r)))
          (map fst variables).

(** Rendering the result of a rendering again, with the same variables,
    gives that result. *)
Definition render_idempotent_at (t : NotificationTemplate)
           (variables : JsObject JsVal) : Prop :=
  forall r, render t variables = Some r ->
            render (with_fields t r) variables = Some r.

(** What a job added by [sendNotification d] for the row [row] carries. *)
Definition job_as_dispatched (d : SendNotificationData) (row : Notification)
           (w : World) (from to : nat) (qj : QueueName * Job) : Prop :=
  j_data (snd qj) = jobData_of d row
  /\ j_priority (snd qj) = getPriority (nd_priority d)
  /\ delay_as_computed d w from to (snd qj).

(** The fields of a notification that a status update must leave alone. *)
Definition status_frame (n : Notification) :=
  (n_id n, n_userId n, n_type n, n_channel n, n_title n, n_message n,
   n_metadata n, n_priority n, n_retryCount n, n_scheduledAt n, n_createdAt n).

(** The rows a retry pass selects. *)
Definition selected_for_retry (w : World) : list Notification :=
  match fst (findFailedForRetry w) with
  | Normal rows => rows
  | Throw _ => []
  end.

(** Oldest first by failedAt. *)
Definition failedAt_le (a b : Notification) : bool :=
  match n_failedAt a, n_failedAt b with
  | Some x, Some y => x <=? y
  | _, _ => true
  end.

Fixpoint oldest_first (rows : list Notification) : bool :=
  match rows with
  | a :: (b :: _) as rest => failedAt_le a b && oldest_first rest
  | _ => true
  end.

(** The attributes of a row a retry hands back to [sendNotification]. *)
Definition row_attributes (n : Notification) :=
  (n_userId n, n_type n, n_title n, n_message n, n_channel n, n_priority n,
   n_metadata n).

(** The row, with its retry counter one higher. *)
Definition bump_retry (n : Notification) : Notification :=
  apply_update (retryCount_data (n_retryCount n + 1)) n.

Definition id_in (rows : list Notification) (n : Notification) : bool :=
  existsb (fun m => (n_id m =? n_id n)%nat) rows.

(** What the retry pass over [rows] does to a stored row: the row that
    shares its id with one of [rows] gets that one's counter plus one. *)
Definition retry_update (rows : list Notification) (m : Notification)
  : Notification :=
  match find (fun n => (n_id n =? n_id m)%nat) rows with
  | Some n => apply_update (retryCount_data (n_retryCount n + 1)) m
  | None => m
  end.

(** The job of a freshly dispatched, unscheduled notification row. *)
Definition job_of_row (n : Notification) : list (QueueName * Job) :=
  match queue_of_channel (n_channel n) with
  | Some (q, name) =>
      [(q, {| j_name := name;
              j_data := {| jd_notificationId := n_id n;
                           jd_userId := n_userId n;
                           jd_title := n_title n;
                           jd_message := n_message n;
                           jd_metadata := n_metadata n |};
              j_priority := getPriority (Some (n_priority n));
              j_delay := 0 |})]
  | None => []
  end.

(** What holds of every store the service has written: identifiers are
    distinct and below the next one to be handed out, and the channel and
    priority of a row are never empty (see [created_row]). *)
Definition store_wf (w : World) : Prop :=
  NoDup (map n_id (notifications w))
  /\ Forall (fun n => (n_id n < nextId w)%nat
                      /\ n_channel n <> "" /\ n_priority n <> "")
            (notifications w).

(** The notifications a list of produced messages carries. *)
Definition forwarded (msgs : list KafkaMessage) : list SendNotificationDto :=
  List.concat (map (fun m => bp_bulkNotifications (km_value m)) msgs).

(* ===================================================================== *)
(** * Example inputs *)
(* ===================================================================== *)

Definition mk_template (type channel t m : string) (h : option string)
  : NotificationTemplate :=
  {| tpl_id := 0%nat; tpl_type := type; tpl_channel := channel;
     tpl_title := t; tpl_message := m; tpl_htmlContent := h;
     tpl_isActive := true |}.

Definition greeting : NotificationTemplate :=
  mk_template "WELCOME" "EMAIL" "Hello {{name}}" "Welcome, {{name}}!"
              (Some "<b>{{name}}</b>").

(** A value that is a replacement pattern. *)
Definition dollar_variables : JsObject JsVal := [("name", JStr "$&")].

(** A value that holds the token of an earlier variable. *)
Definition chained_template : NotificationTemplate :=
  mk_template "WELCOME" "EMAIL" "{{b}}" "" None.
Definition chained_variables : JsObject JsVal :=
  [("a", JStr "x"); ("b", JStr "{{a}}")].


(** Scenario 2 of the specification: user u2 has EMAIL enabled and PUSH
    disabled. *)
Definition u2_world : World :=
  {| notifications := [];
     userPreferences :=
       [ {| up_userId := "u2"; up_channel := "EMAIL"; up_isEnabled := true |};
         {| up_userId := "u2"; up_channel := "PUSH"; up_isEnabled := false |} ];
     notificationTemplates := [];
     queued := []; cache := []; produced := [];
     nextId := 0; clock := fun k => 5000 + Z.of_nat k; reads := 0 |}.

Definition u2_request : SendNotificationData :=
  {| nd_userId := "u2"; nd_type := "ORDER_CONFIRMATION";
     nd_title := "t"; nd_message := "m";
     nd_channel := None; nd_priority := None;
     nd_metadata := None; nd_scheduledAt := None |}.

(** Scenario 3, with the scheduled instant in the past of the clock. *)
Definition late_request : SendNotificationData :=
  {| nd_userId := "u3"; nd_type := "PAYMENT_FAILED";
     nd_title := "t"; nd_message := "m";
     nd_channel := Some "EMAIL"; nd_priority := Some "URGENT";
     nd_metadata := None; nd_scheduledAt := Some 1000 |}.

Definition late_job : QueueName * Job :=
  (EmailQueue,
   {| j_name := "send-email";
      j_data := {| jd_notificationId := 0; jd_userId := "u3"; jd_title := "t";
                   jd_message := "m"; jd_metadata := None |};
      j_priority := PNumber 20;
      j_delay := -4001 |}).

(** A type that names a member of [Object.prototype]. *)
Definition inherited_type_request : SendNotificationData :=
  {| nd_userId := "u5"; nd_type := "constructor";
     nd_title := "t"; nd_message := "m";
     nd_channel := None; nd_priority := None;
     nd_metadata := None; nd_scheduledAt := None |}.

(** A store with one notification being processed and one already sent. *)
Definition processing_row : Notification :=
  {| n_id := 7; n_userId := "u1"; n_title := "Welcome!"; n_message := "Hi Ada";
     n_type := "WELCOME"; n_channel := "EMAIL"; n_priority := "NORMAL";
     n_metadata := None; n_scheduledAt := None;
     n_status := "PROCESSING"; n_retryCount := 0;
     n_createdAt := 4000; n_updatedAt := 4500;
     n_sentAt := None; n_failedAt := None; n_errorMessage := None |}.

Definition worker_world : World :=
  {| notifications := [processing_row];
     userPreferences := [];
     notificationTemplates :=
       [mk_template "WELCOME" "EMAIL" "Welcome, {{title}}" "Dear user: {{message}}"
                    (Some "<p>{{message}}</p>")];
     queued := []; cache := []; produced := [];
     nextId := 8; clock := fun k => 5000 + Z.of_nat k; reads := 0 |}.

(** Two failed notifications; the store returns the one that failed last
    first. *)
Definition failed_row (id : nat) (retries failedAt : Z) : Notification :=
  {| n_id := id; n_userId := "u4"; n_title := "Order Shipped";
     n_message := "Your order has been shipped";
     n_type := "ORDER_SHIPPED"; n_channel := "PUSH"; n_priority := "NORMAL";
     n_metadata := None; n_scheduledAt := None;
     n_status := "FAILED"; n_retryCount := retries;
     n_createdAt := 1000; n_updatedAt := failedAt;
     n_sentAt := None; n_failedAt := Some failedAt;
     n_errorMessage := Some "No device tokens found for user u4" |}.

Definition retry_world : World :=
  {| notifications := [failed_row 0 0 2000; failed_row 1 2 1500; failed_row 2 3 1200];
     userPreferences := [];
     notificationTemplates := [];
     queued := []; cache := []; produced := [];
     nextId := 3; clock := fun k => 5000 + Z.of_nat k; reads := 0 |}.

Definition welcome_dto : SendNotificationDto :=
  {| dto_userId := "u1"; dto_type := "WELCOME"; dto_title := "Welcome!";
     dto_message := "Hi"; dto_channel := Some "EMAIL"; dto_priority := None;
     dto_metadata := None; dto_scheduledAt := None |}.

Definition too_many : list SendNotificationDto :=
  repeat welcome_dto (Z.to_nat 10001).

(** The email job of [processing_row], a WELCOME notification. *)
Definition welcome_job : JobData :=
  {| jd_notificationId := 7; jd_userId := "u1"; jd_title := "Welcome!";
     jd_message := "Hi Ada"; jd_metadata := None |}.

(* ===================================================================== *)
(** * Channel service, continued ([services/channel.service.ts]) *)
(* ===================================================================== *)

Definition set_userPreferences (w : World) (l : list UserPreference) : World :=
  {| notifications := notifications w; userPreferences := l;
     notificationTemplates := notificationTemplates w; queued := queued w;
     cache := cache w; produced := produced w; nextId := nextId w;
     clock := clock w; reads := reads w |}.

Definition set_notificationTemplates (w : World)
           (l : list NotificationTemplate) : World :=
  {| notifications := notifications w; userPreferences := userPreferences w;
     notificationTemplates := l; queued := queued w;
     cache := cache w; produced := produced w; nextId := nextId w;
     clock := clock w; reads := reads w |}.

(** [prisma.userPreference.upsert({ where: { userId_channel }, update:
    { isEnabled }, create: { userId, channel, isEnabled } })]: the row
    with that (userId, channel) gets the flag, a new row is added when
    there is none. *)
Fixpoint upsert_preference (rows : list UserPreference)
         (userId channel : string) (enabled : bool) : list UserPreference :=
  match rows with
  | [] => [ {| up_userId := userId; up_channel := channel;
               up_isEnabled := enabled |} ]
  | r :: rest =>
      if (up_userId r =? userId)%string && (up_channel r =? channel)%string
      then {| up_userId := up_userId r; up_channel := up_channel r;
              up_isEnabled := enabled |} :: rest
      else r :: upsert_preference rest userId channel enabled
  end.

Definition updateUserPreferences (userId channel : string) (enabled : bool)
  : M UserPreference :=
  fun w =>
    (Normal {| up_userId := userId; up_channel := channel;
               up_isEnabled := enabled |},
     set_userPreferences w
       (upsert_preference (userPreferences w) userId channel enabled)).

(** The system-of-record view of a user; a [null] column is [None]. *)
Record User : Type := {
  u_id : string;
  u_email : option string;
  u_phone : option string
}.

(** [DeviceTokenEntity] *)
Record DeviceToken : Type := {
  dt_userId : string;
  dt_token : string;
  dt_platform : string;
  dt_isActive : bool
}.

(** [value || null] on a nullable string column. *)
Definition or_null (value : option string) : option string :=
  match value with
  | Some s => if negb (s =? "")%string then Some s else None
  | None => None
  end.

(** [prisma.user.findUnique({ where: { id } })] *)
Definition findUnique_user (users : list User) (id : string) : option User :=
  find (fun u => (u_id u =? id)%string) users.

(** [user?.email || null] *)
Definition getUserEmail (users : list User) (userId : string) : option string :=
  match findUnique_user users userId with
  | Some user => or_null (u_email user)
  | None => None
  end.

Definition getUserPhone (users : list User) (userId : string) : option string :=
  match findUnique_user users userId with
  | Some user => or_null (u_phone user)
  | None => None
  end.

(** [prisma.deviceToken.findMany({ where: { userId, isActive: true } })],
    mapped to the tokens. *)
Definition getDeviceTokens (table : list DeviceToken) (userId : string)
  : list string :=
  map dt_token
      (filter (fun t => (dt_userId t =? userId)%string && dt_isActive t) table).

(** [prisma.deviceToken.upsert]: on the row with that (userId, token),
    [isActive] becomes true and the platform is replaced; a new active
    row is added when there is none.  The row and the new table. *)
Fixpoint upsert_deviceToken (table : list DeviceToken)
         (userId token platform : string) : list DeviceToken :=
  match table with
  | [] => [ {| dt_userId := userId; dt_token := token;
               dt_platform := platform; dt_isActive := true |} ]
  | t :: rest =>
      if (dt_userId t =? userId)%string && (dt_token t =? token)%string
      then {| dt_userId := dt_userId t; dt_token := dt_token t;
              dt_platform := platform; dt_isActive := true |} :: rest
      else t :: upsert_deviceToken rest userId token platform
  end.

Definition addDeviceToken (table : list DeviceToken)
           (userId token platform : string) : DeviceToken * list DeviceToken :=
  ({| dt_userId := userId; dt_token := token;
      dt_platform := platform; dt_isActive := true |},
   upsert_deviceToken table userId token platform).

(** [prisma.deviceToken.updateMany({ where: { userId, token }, data:
    { isActive: false } })]: the number of rows matched, and the new
    table. *)
Definition deactivateDeviceToken (table : list DeviceToken)
           (userId token : string) : Z * list DeviceToken :=
  (js_length (filter (fun t => (dt_userId t =? userId)%string
                               && (dt_token t =? token)%string) table),
   map (fun t => if (dt_userId t =? userId)%string && (dt_token t =? token)%string
                 then {| dt_userId := dt_userId t; dt_token := dt_token t;
                         dt_platform := dt_platform t; dt_isActive := false |}
                 else t) table).

(* ===================================================================== *)
(** * Event routing ([notification.service.ts], [processEvent]) *)
(* ===================================================================== *)










(* ===================================================================== *)
(** * Channel workers, the whole job ([workers/*.ts]) *)
(* ===================================================================== *)

(** What a worker throws: an [Error] of its own or of a channel adapter,
    or what the store threw. *)
Inductive Failure : Type :=
| JsError (message : string)
| StoreFailure (e : Exn).

(** How the processing of a job ends; [NotModelled] when the template
    rendering leaves the model. *)
Inductive JobResult : Type :=
| Completed
| Failed (error : Failure)
| NotModelled.

(** A run of a worker: its result, the calls it made to the channel
    adapter (in order), and the world it leaves. *)
Record Run (Call : Type) : Type := {
  outcome : JobResult;
  calls : list Call;
  after : World
}.
Arguments outcome {Call} _.
Arguments calls {Call} _.
Arguments after {Call} _.

Record Mail : Type := {
  mail_from : string;
  mail_to : string;
  mail_subject : string;
  mail_html : string
}.

Record PushMessage : Type := {
  pm_title : string;
  pm_body : string;
  pm_data : JsObject JsVal;
  pm_token : string
}.

(** The topic and the object that is serialised as the payload. *)
Record SmsPublish : Type := {
  sp_topic : string;
  sp_phone : string;
  sp_message : string;
  sp_title : string;
  sp_timestamp : Z;
  sp_notificationId : nat;
  sp_qos : Z
}.

Section Workers.

(** The user and device-token tables, the configured sender address,
    and the channel adapters: each answers [None] when the send
    succeeds and the message of its error when it fails. *)
Variable users : list User.
Variable deviceTokens : list DeviceToken.
Variable SMTP_FROM : option string.
Variable transporter_sendMail : Mail -> option string.
Variable messaging_send : PushMessage -> option string.
Variable client_publish : SmsPublish -> option string.

(** The message of the store's not-found error. *)
Variable not_found_message : string.

(** Which rejection [Promise.all] reports when several sends fail (the
    one that settles first), given the messages of the failed sends in
    the order of the tokens. *)
Variable first_rejection : list string -> string.

(** [error.message] *)
Definition failure_message (error : Failure) : string :=
  match error with
  | JsError message => message
  | StoreFailure (TypeError message) => message
  | StoreFailure (HttpException message _) => message
  | StoreFailure RecordNotFound => not_found_message
  end.

(** The [catch] block of a worker: mark the notification FAILED with
    the message of the error, then throw the error again. *)
Definition on_failure {Call} (notificationId : nat) (error : Failure)
           (made : list Call) (w : World) : Run Call :=
  match updateNotificationStatus notificationId NotificationStatus.FAILED
                                 (Some (failure_message error)) w with
  | (Normal _, w') => {| outcome := Failed error; calls := made; after := w' |}
  | (Throw e, w') =>
      {| outcome := Failed (StoreFailure e); calls := made; after := w' |}
  end.

Definition sendEmail (job : JobData) (w : World) : Run Mail :=
  match updateNotificationStatus (jd_notificationId job)
                                 NotificationStatus.PROCESSING None w with
  | (Throw e, w1) => on_failure (jd_notificationId job) (StoreFailure e) [] w1
  | (Normal _, w1) =>
      match getUserEmail users (jd_userId job) with
      | None =>
          on_failure (jd_notificationId job)
                     (JsError ("No email found for user " ++ jd_userId job))
                     [] w1
      | Some email =>
          match sendEmail_content job w1 with
          | (Throw e, w2) =>
              on_failure (jd_notificationId job) (StoreFailure e) [] w2
          | (Normal None, w2) =>
              {| outcome := NotModelled; calls := []; after := w2 |}
          | (Normal (Some (finalTitle, finalMessage)), w2) =>
              let mail :=
                {| mail_from := or_default SMTP_FROM "noreply@notification.com";
                   mail_to := email;
                   mail_subject := finalTitle;
                   mail_html := finalMessage |} in
              match transporter_sendMail mail with
              | Some message =>
                  on_failure (jd_notificationId job) (JsError message) [mail] w2
              | None =>
                  match updateNotificationStatus (jd_notificationId job)
                                                 NotificationStatus.SENT None w2 with
                  | (Throw e, w3) =>
                      on_failure (jd_notificationId job) (StoreFailure e)
                                 [mail] w3
                  | (Normal _, w3) =>
                      {| outcome := Completed; calls := [mail]; after := w3 |}
                  end
              end
          end
      end
  end.

(** [metadata || {}] *)
Definition metadata_or_empty (metadata : option (JsObject JsVal))
  : JsObject JsVal :=
  match metadata with Some m => m | None => [] end.

(** The messages of the sends that failed. *)
Fixpoint rejections (results : list (option string)) : list string :=
  match results with
  | [] => []
  | Some message :: rest => message :: rejections rest
  | None :: rest => rejections rest
  end.

Definition sendPush (job : JobData) (w : World) : Run PushMessage :=
  match updateNotificationStatus (jd_notificationId job)
                                 NotificationStatus.PROCESSING None w with
  | (Throw e, w1) => on_failure (jd_notificationId job) (StoreFailure e) [] w1
  | (Normal _, w1) =>
      match getDeviceTokens deviceTokens (jd_userId job) with
      | [] =>
          on_failure (jd_notificationId job)
                     (JsError ("No device tokens found for user "
                                 ++ jd_userId job))
                     [] w1
      | tokens =>
          match sendPush_content job w1 with
          | (Throw e, w2) =>
              on_failure (jd_notificationId job) (StoreFailure e) [] w2
          | (Normal None, w2) =>
              {| outcome := NotModelled; calls := []; after := w2 |}
          | (Normal (Some (finalTitle, finalMessage)), w2) =>
              let messages :=
                map (fun token =>
                       {| pm_title := finalTitle; pm_body := finalMessage;
                          pm_data := metadata_or_empty (jd_metadata job);
                          pm_token := token |}) tokens in
              match rejections (map messaging_send messages) with
              | [] =>
                  match updateNotificationStatus (jd_notificationId job)
                                                 NotificationStatus.SENT None w2 with
                  | (Throw e, w3) =>
                      on_failure (jd_notificationId job) (StoreFailure e)
                                 messages w3
                  | (Normal _, w3) =>
                      {| outcome := Completed; calls := messages; after := w3 |}
                  end
              | failed =>
                  on_failure (jd_notificationId job)
                             (JsError (first_rejection failed)) messages w2
              end
          end
      end
  end.

(** [sendSMS] returns the promise of the publication without awaiting
    it: when the publication (or the status update that follows it)
    fails, the job fails but the [catch] block is not run. *)
Definition sendSMS (job : JobData) (w : World) : Run SmsPublish :=
  match updateNotificationStatus (jd_notificationId job)
                                 NotificationStatus.PROCESSING None w with
  | (Throw e, w1) => on_failure (jd_notificationId job) (StoreFailure e) [] w1
  | (Normal _, w1) =>
      match getUserPhone users (jd_userId job) with
      | None =>
          on_failure (jd_notificationId job)
                     (JsError ("No phone found for user " ++ jd_userId job))
                     [] w1
      | Some phone =>
          match sendSMS_content job w1 with
          | (Throw e, w2) =>
              on_failure (jd_notificationId job) (StoreFailure e) [] w2
          | (Normal None, w2) =>
              {| outcome := NotModelled; calls := []; after := w2 |}
          | (Normal (Some (finalTitle, finalMessage)), w2) =>
              (* timestamp: Date.now() *)
              let timestamp := clock w2 (reads w2) in
              let w3 := set_reads w2 (S (reads w2)) in
              let publication :=
                {| sp_topic := "sms/" ++ phone;
                   sp_phone := phone;
                   sp_message := finalMessage;
                   sp_title := finalTitle;
                   sp_timestamp := timestamp;
                   sp_notificationId := jd_notificationId job;
                   sp_qos := 1 |} in
              match client_publish publication with
              | Some message =>
                  {| outcome := Failed (JsError message);
                     calls := [publication]; after := w3 |}
              | None =>
                  match updateNotificationStatus (jd_notificationId job)
                          NotificationStatus.SENT None w3 with
                  | (Throw e, w4) =>
                      {| outcome := Failed (StoreFailure e);
                         calls := [publication]; after := w4 |}
                  | (Normal _, w4) =>
                      {| outcome := Completed; calls := [publication];
                         after := w4 |}
                  end
              end
          end
      end
  end.

End Workers.

(* ===================================================================== *)
(** * Request surface ([grpc/notification.grpc.controller.ts]): what is
      answered to a bulk request *)
(* ===================================================================== *)

(** A settled promise. *)
Inductive Settled (A : Type) : Type :=
| Fulfilled (value : A)
| Rejected (reason : Exn).
Arguments Fulfilled {A} value.
Arguments Rejected {A} reason.

Definition is_fulfilled {A} (r : Settled A) : bool :=
  match r with Fulfilled _ => true | Rejected _ => false end.

(** [Promise.allSettled] of the dispatches, given how each one ended. *)
Definition allSettled {A} (ended : list (Completion A)) : list (Settled A) :=
  map (fun c => match c with
                | Normal a => Fulfilled a
                | Throw e => Rejected e
                end) ended.

Record BulkReply (Id : Type) : Type := {
  reply_success : bool;
  reply_notificationIds : list Id;
  reply_successCount : Z;
  reply_failureCount : Z
}.
Arguments reply_success {Id} _.
Arguments reply_notificationIds {Id} _.
Arguments reply_successCount {Id} _.
Arguments reply_failureCount {Id} _.

(** The reply [sendBulkNotifications] builds from the settled results. *)
Definition bulk_reply {A Id} (id_of : A -> Id) (results : list (Settled A))
  : BulkReply Id :=
  let successCount := js_length (filter is_fulfilled results) in
  let failureCount := js_length (filter (fun r => negb (is_fulfilled r)) results) in
  {| reply_success := (failureCount =? 0);
     reply_notificationIds :=
       flat_map (fun r => match r with
                          | Fulfilled v => [id_of v]
                          | Rejected _ => []
                          end) results;
     reply_successCount := successCount;
     reply_failureCount := failureCount |}.

Definition sendBulkNotifications_reply (ended : list (Completion Notification))
  : BulkReply nat :=
  bulk_reply n_id (allSettled ended).

(** What a dispatch of [sendBulkNotificationsOptimized] resolves to: the
    notification, or, through its [.catch], an object holding the error
    message. *)
Inductive Caught : Type :=
| Stored (n : Notification)
| ErrorObject (e : Exn).

(** [value.id]; [undefined] on the error object. *)
Definition caught_id (c : Caught) : option nat :=
  match c with
  | Stored n => Some (n_id n)
  | ErrorObject _ => None
  end.

(** [promise.catch(error => ({ error: error.message, notification }))] *)
Definition with_catch (c : Completion Notification) : Completion Caught :=
  match c with
  | Normal n => Normal (Stored n)
  | Throw e => Normal (ErrorObject e)
  end.

(** The dispatches are made in batches of 50; the settled results of the
    batches are collected in one array. *)
Definition sendBulkNotificationsOptimized_reply
           (ended : list (Completion Notification)) : BulkReply (option nat) :=
  bulk_reply caught_id
    (List.concat
       (map (fun batch => allSettled (map with_catch batch))
            (chunk_loop (List.length ended) 50 0 ended))).

(* ===================================================================== *)
(** * Bulk consumer ([kafka.consumer.ts]) and metrics window
      ([monitoring/performance.monitor.ts]) *)
(* ===================================================================== *)




(** [this.metrics.push(metrics); if (this.metrics.length > 100)
    this.metrics = this.metrics.slice(-100)] *)
Definition push_metrics {A} (metrics : list A) (sample : A) : list A :=
  let pushed := (metrics ++ [sample])%list in
  if js_length pushed >? 100
  then skipn (List.length pushed - 100) pushed
  else pushed.

(** [getCurrentMetrics()] *)
Definition getCurrentMetrics {A} (metrics : list A) : option A :=
  if js_length metrics >? 0
  then nth_error metrics (List.length metrics - 1)
  else None.

(* ===================================================================== *)
(** * Further predicates and inputs *)
(* ===================================================================== *)

(** The keys of the template cache, oldest first. *)
Definition cache_keys (w : World) : list string := map fst (cache w).

(** A [Map] holds a key once. *)
Definition cache_wf (w : World) : Prop := NoDup (cache_keys w).

(** A cache of [n] entries under the keys "k0", "k1", ... *)
Fixpoint numbered_cache (n : nat) : JsObject CacheEntry :=
  match n with
  | O => []
  | S k => List.app (numbered_cache k)
                     [(String.append "k" (Z_to_string (Z.of_nat k)),
                       {| ce_value := greeting; ce_timestamp := 0 |})]
  end.

(** No string occurs twice in the list. *)
Fixpoint strings_nodupb (l : list string) : bool :=
  match l with
  | [] => true
  | x :: l' => negb (str_mem x l') && strings_nodupb l'
  end.

(** A full cache, on the clock of [worker_world]. *)
Definition full_cache_world : World :=
  set_cache worker_world (numbered_cache (Z.to_nat 500)).

(** A world whose clock advances by 400 seconds between two readings. *)
Definition slow_world : World :=
  {| notifications := [processing_row];
     userPreferences := [];
     notificationTemplates := notificationTemplates worker_world;
     queued := []; cache := []; produced := [];
     nextId := 8; clock := fun k => 5000 + 400000 * Z.of_nat k; reads := 0 |}.

(** A cache with three entries; "a" is the oldest. *)
Definition abc_world : World :=
  set_cache worker_world
    [ ("a", {| ce_value := greeting; ce_timestamp := 4000 |});
      ("b", {| ce_value := chained_template; ce_timestamp := 4100 |});
      ("c", {| ce_value := greeting; ce_timestamp := 4200 |}) ].

(** (userId, channel) is a key of the preference rows. *)
Definition pref_key (r : UserPreference) : string * string :=
  (up_userId r, up_channel r).
Definition prefs_unique (w : World) : Prop :=
  NoDup (map pref_key (userPreferences w)).

(** (userId, token) is a key of the device tokens. *)
Definition token_key (t : DeviceToken) : string * string :=
  (dt_userId t, dt_token t).
Definition tokens_unique (table : list DeviceToken) : Prop :=
  NoDup (map token_key table).

Definition two_devices : list DeviceToken :=
  [ {| dt_userId := "u1"; dt_token := "tok-a"; dt_platform := "ios";
       dt_isActive := true |};
    {| dt_userId := "u1"; dt_token := "tok-b"; dt_platform := "android";
       dt_isActive := false |};
    {| dt_userId := "u2"; dt_token := "tok-a"; dt_platform := "web";
       dt_isActive := true |} ].

(** The rows of one (userId, channel). *)
Definition rows_of_key (rows : list UserPreference) (userId channel : string)
  : list UserPreference :=
  filter (fun r => (up_userId r =? userId)%string
                   && (up_channel r =? channel)%string) rows.

(** The device-token rows of one (userId, token). *)
Definition token_rows (table : list DeviceToken) (userId token : string)
  : list DeviceToken :=
  filter (fun t => (dt_userId t =? userId)%string
                   && (dt_token t =? token)%string) table.

(** The timestamps a status calls for are there: a SENT notification has
    its sentAt, a FAILED one its failedAt. *)
Definition timestamps_consistent (n : Notification) : Prop :=
  (n_status n = NotificationStatus.SENT -> n_sentAt n <> None)
  /\ (n_status n = NotificationStatus.FAILED -> n_failedAt n <> None).

(** The retry counter is within its bound. *)
Definition retries_bounded (n : Notification) : Prop :=
  0 <= n_retryCount n <= 3.

(** A request with a channel the dispatcher has no queue for. *)
Definition lowercase_channel_request : SendNotificationData :=
  {| nd_userId := "u1"; nd_type := "WELCOME";
     nd_title := "Welcome!"; nd_message := "Hi";
     nd_channel := Some "email"; nd_priority := None;
     nd_metadata := None; nd_scheduledAt := None |}.

(** What a status update writes, for each of the three statuses the
    workers use. *)
Definition processing_data (updatedAt : Z) : UpdateData :=
  {| ud_status := Some NotificationStatus.PROCESSING;
     ud_updatedAt := Some updatedAt;
     ud_sentAt := None; ud_failedAt := None;
     ud_errorMessage := None; ud_retryCount := None |}.

Definition sent_data (updatedAt sentAt : Z) : UpdateData :=
  {| ud_status := Some NotificationStatus.SENT;
     ud_updatedAt := Some updatedAt;
     ud_sentAt := Some sentAt; ud_failedAt := None;
     ud_errorMessage := None; ud_retryCount := None |}.

Definition failed_data (updatedAt failedAt : Z) (errorMessage : option string)
  : UpdateData :=
  {| ud_status := Some NotificationStatus.FAILED;
     ud_updatedAt := Some updatedAt;
     ud_sentAt := None; ud_failedAt := Some failedAt;
     ud_errorMessage := Some errorMessage; ud_retryCount := None |}.

(** The table after the row [id] has been rewritten. *)
Definition rewrite_row (id : nat) (data : UpdateData)
           (rows : list Notification) : list Notification :=
  map (fun n => if (n_id n =? id)%nat then apply_update data n else n) rows.

(** The most recent [k] elements of a list. *)
Definition last_n {A} (k : nat) (l : list A) : list A :=
  skipn (List.length l - k) l.

Definition ada : User :=
  {| u_id := "u1"; u_email := Some "ada@example.org"; u_phone := Some "+4400" |}.

Definition nobody : User :=
  {| u_id := "u4"; u_email := None; u_phone := Some "" |}.

(** Nothing but the template cache and the number of clock readings
    differs between [w] and [w']. *)
Definition same_store (w w' : World) : Prop :=
  notifications w' = notifications w
  /\ userPreferences w' = userPreferences w
  /\ notificationTemplates w' = notificationTemplates w
  /\ queued w' = queued w
  /\ produced w' = produced w
  /\ nextId w' = nextId w
  /\ clock w' = clock w
  /\ (reads w <= reads w')%nat.

(** An adapter that accepts every message, and one that refuses every
    message. *)
Definition accept_all {A} (_ : A) : option string := None.
Definition refuse_all {A} (_ : A) : option string := Some "connection refused".

(** The row [id] of [w'] is [row] marked FAILED with [message]: the
    failure is recorded and nothing else of the row has changed. *)
Definition marked_failed (id : nat) (message : string) (row : Notification)
           (w' : World) : Prop :=
  exists row',
    find_notification id (notifications w') = Some row'
    /\ n_status row' = NotificationStatus.FAILED
    /\ n_errorMessage row' = Some message
    /\ n_failedAt row' <> None
    /\ n_sentAt row' = n_sentAt row
    /\ status_frame row' = status_frame row.

(** The row [id] of [w'] is [row] marked SENT. *)
Definition marked_sent (id : nat) (row : Notification) (w' : World) : Prop :=
  exists row',
    find_notification id (notifications w') = Some row'
    /\ n_status row' = NotificationStatus.SENT
    /\ n_sentAt row' <> None
    /\ n_failedAt row' = n_failedAt row
    /\ n_errorMessage row' = n_errorMessage row
    /\ status_frame row' = status_frame row.

(** The row [id] of [w'] is [row] with status PROCESSING and no outcome
    recorded. *)
Definition left_processing (id : nat) (row : Notification) (w' : World) : Prop :=
  exists row',
    find_notification id (notifications w') = Some row'
    /\ n_status row' = NotificationStatus.PROCESSING
    /\ n_sentAt row' = n_sentAt row
    /\ n_failedAt row' = n_failedAt row
    /\ n_errorMessage row' = n_errorMessage row
    /\ status_frame row' = status_frame row.

(** The mail [sendEmail] hands to the transporter. *)
Definition mail_of (SMTP_FROM : option string) (email subject html : string)
  : Mail :=
  {| mail_from := or_default SMTP_FROM "noreply@notification.com";
     mail_to := email; mail_subject := subject; mail_html := html |}.

(** The world in which a worker looks up its template: the one after
    the notification has been marked PROCESSING. *)
Definition when_processing (job : JobData) (w : World) : World :=
  snd (updateNotificationStatus (jd_notificationId job)
                                NotificationStatus.PROCESSING None w).

(* ===================================================================== *)
(** * Templates as text and tokens *)
(* ===================================================================== *)

(** A piece of a template text: literal text, or the token [{{key}}]. *)
Inductive Piece : Type :=
| Text (s : string)
| Token (key : string).

(** The text the pieces spell. *)
Fixpoint flatten (pieces : list Piece) : string :=
  match pieces with
  | [] => EmptyString
  | Text s :: rest => s ++ flatten rest
  | Token key :: rest => placeholder key ++ flatten rest
  end.

Definition is_brace (c : ascii) : bool := Ascii.eqb c "{" || Ascii.eqb c "}".

(** Literal text holds no brace; the name of a token is made of letters,
    digits and [_]. *)
Definition piece_ok (p : Piece) : bool :=
  match p with
  | Text s => negb (string_existsb is_brace s)
  | Token key => string_forallb is_word_char key
  end.

(** The fields of [t] are spelled by the pieces [ttl], [msg] and [html]. *)
Definition spelled_by (t : NotificationTemplate)
           (ttl msg : list Piece) (html : option (list Piece)) : Prop :=
  tpl_title t = flatten ttl
  /\ tpl_message t = flatten msg
  /\ tpl_htmlContent t = option_map flatten html
  /\ forallb piece_ok ttl = true
  /\ forallb piece_ok msg = true
  /\ match html with Some h => forallb piece_ok h = true | None => True end.

(** The string form of the value holds no brace and no [$]. *)
Definition inert_value (v : JsVal) : bool :=
  negb (string_existsb (fun c => is_brace c || Ascii.eqb c "$") (js_String v)).

(** A token of a supplied variable becomes the string form of its value;
    everything else stays. *)
Definition substitute (variables : JsObject JsVal) (p : Piece) : Piece :=
  match p with
  | Text s => Text s
  | Token key =>
      match own_get variables key with
      | Some v => Text (js_String v)
      | None => Token key
      end
  end.

(** The fields spelled by the pieces after substitution. *)
Definition substituted (variables : JsObject JsVal)
           (ttl msg : list Piece) (html : option (list Piece)) : Rendered :=
  {| title := flatten (map (substitute variables) ttl);
     message := flatten (map (substitute variables) msg);
     htmlContent := option_map (fun h => flatten (map (substitute variables) h))
                               html |}.

(** No match of [tok] starts inside [a] when [a] is followed by [b]. *)
Fixpoint clear_of (tok a b : string) : bool :=
  match a with
  | EmptyString => true
  | String _ a' => negb (prefix tok (a ++ b)) && clear_of tok a' b
  end.

(** One step of the loop on pieces: the tokens of [key] become [v]. *)
Definition substitute_one (key v : string) (p : Piece) : Piece :=
  match p with
  | Text s => Text s
  | Token k => if (k =? key)%string then Text v else Token k
  end.

(** The variables of the greeting, and the greeting in pieces. *)
Definition ada_variables : JsObject JsVal := [("name", JStr "Ada")].
Definition greeting_title : list Piece := [Text "Hello "; Token "name"].
Definition greeting_message : list Piece :=
  [Text "Welcome, "; Token "name"; Text "!"].
Definition greeting_html : list Piece := [Text "<b>"; Token "name"; Text "</b>"].

(** The message [sendPush] sends to one device. *)
Definition push_message (job : JobData) (ttl body token : string) : PushMessage :=
  {| pm_title := ttl; pm_body := body;
     pm_data := metadata_or_empty (jd_metadata job); pm_token := token |}.

(** An adapter that refuses the device [tok-b] only. *)
Definition refuse_tok_b (m : PushMessage) : option string :=
  if (pm_token m =? "tok-b")%string then Some "unregistered" else None.

Definition both_devices : list DeviceToken :=
  [ {| dt_userId := "u1"; dt_token := "tok-a"; dt_platform := "ios";
       dt_isActive := true |};
    {| dt_userId := "u1"; dt_token := "tok-b"; dt_platform := "android";
       dt_isActive := true |} ].

(** The identifier of the notification a dispatch stored, when it ended
    normally. *)
Definition ended_id (c : Completion Notification) : option nat :=
  match c with
  | Normal n => Some (n_id n)
  | Throw _ => None
  end.

Definition ended_normally {A} (c : Completion A) : bool :=
  match c with Normal _ => true | Throw _ => false end.

(** The samples the monitor holds after collecting [history], oldest
    first, starting from none. *)
Definition collected {A} (history : list A) : list A :=
  fold_left push_metrics history [].
(* ===================================================================== *)
(** * Template renderer: proofs *)
(* ===================================================================== *)

Lemma replace_scan_absent tok repl whole :
  forall rest pos,
    occurs tok rest = false ->
    replace_scan tok repl whole pos rest 0 = rest.
Proof.
  induction rest as [|c rest IH]; intros pos H.
  - reflexivity.
  - cbn [occurs] in H. apply orb_false_iff in H as [Hp Ho].
    cbn [replace_scan]. rewrite Hp. f_equal. now apply IH.
Qed.

Lemma replace_global_absent tok repl s :
  occurs tok s = false -> replace_global tok repl s = s.
Proof. apply replace_scan_absent. Qed.

Lemma replace_html_absent tok repl h :
  occurs_html tok h = false -> replace_html tok repl h = h.
Proof.
  destruct h as [s|]; cbn; [|reflexivity].
  intros H. destruct (negb (s =? "")%string); [|reflexivity].
  now rewrite replace_global_absent.
Qed.

Lemma render_loop_outcome entries :
  forall acc,
    match render_loop acc entries, keys_outcome entries with
    | Returned _, Returned _ | Raised, Raised | OutsideModel, OutsideModel => True
    | _, _ => False
    end.
Proof.
  induction entries as [|[key value] rest IH]; intros acc; cbn.
  - exact I.
  - destruct (new_RegExp key); try exact I. apply IH.
Qed.

Lemma render_loop_substituted entries :
  forall acc,
    keys_outcome entries = Returned tt ->
    tokens_substituted entries acc = true ->
    render_loop acc entries = Returned acc.
Proof.
  induction entries as [|[key value] rest IH]; intros acc Hk Hs.
  - reflexivity.
  - cbn in Hk. cbn [render_loop].
    unfold tokens_substituted in Hs. cbn [map fst forallb] in Hs.
    apply andb_true_iff in Hs as [Hkey Hrest].
    apply andb_true_iff in Hkey as [Hkey Hh].
    apply andb_true_iff in Hkey as [Ht Hm].
    apply negb_true_iff in Ht, Hm, Hh.
    unfold new_RegExp in *.
    destruct (plain_key key).
    + rewrite (replace_global_absent _ _ _ Ht), (replace_global_absent _ _ _ Hm),
        (replace_html_absent _ _ _ Hh).
      destruct acc as [t m h]; cbn. now apply IH.
    + destruct (unclosed_group_key key); discriminate.
Qed.

Lemma template_fields_with_fields t r : template_fields (with_fields t r) = r.
Proof. now destruct r. Qed.

(** Rendering with no variable returns the fields unchanged. *)
Lemma render_no_variables t : render t [] = Some (template_fields t).
Proof. reflexivity. Qed.

(** When constructing a pattern throws, what was substituted so far is
    dropped and the unrendered fields are returned. *)
Lemma render_raised_unrendered t variables :
  keys_outcome variables = Raised ->
  render t variables = Some (template_fields t).
Proof.
  intros H. unfold render.
  pose proof (render_loop_outcome variables (template_fields t)) as Ho.
  rewrite H in Ho. now destruct (render_loop (template_fields t) variables).
Qed.

(** A replacement without [$] is inserted as it stands. *)
Lemma getSubstitution_plain matched before after repl :
  string_existsb (fun c => Ascii.eqb c "$") repl = false ->
  getSubstitution matched before after repl = repl.
Proof.
  induction repl as [|c r IH]; [reflexivity|].
  cbn [string_existsb]. intros H. apply orb_false_iff in H as [Hc Hr].
  cbn [getSubstitution]. rewrite Hc. f_equal. now apply IH.
Qed.

(** C5, at the failing input: a value that is the replacement pattern
    [$&] is not inserted as it stands; [String.prototype.replace] expands
    it to the matched token, so the token [{{name}}] is still there after
    rendering, where the claim asks for the string form of the value. *)
Theorem render_dollar_value_expanded :
  render greeting dollar_variables
  = Some {| title := "Hello {{name}}";
            message := "Welcome, {{name}}!";
            htmlContent := Some "<b>{{name}}</b>" |}
  /\ (forall r, render greeting dollar_variables = Some r ->
                title r <> "Hello " ++ js_String (JStr "$&")).
Proof.
  split; [reflexivity|].
  intros r H. vm_compute in H. injection H as <-. cbn. discriminate.
Qed.

(** C6, as stated, fails: with variables a = "x" and b = "{{a}}" the
    title "{{b}}" renders to "{{a}}", and rendering that again gives "x". *)
Lemma render_twice_differs :
  ~ render_idempotent_at chained_template chained_variables.
Proof.
  intros H.
  specialize (H {| title := "{{a}}"; message := ""; htmlContent := None |} eq_refl).
  vm_compute in H. discriminate.
Qed.

(* ===================================================================== *)
(** * Rendering a template of text and tokens *)
(* ===================================================================== *)

Lemma replace_scan_skip tok repl whole a :
  forall pos b,
    replace_scan tok repl whole pos (a ++ b) (String.length a)
    = replace_scan tok repl whole (pos + String.length a) b 0.
Proof.
  induction a as [|c a IH]; intros pos b.
  - cbn. now rewrite Nat.add_0_r.
  - cbn [String.append String.length replace_scan]. rewrite IH.
    f_equal. lia.
Qed.

Lemma replace_scan_clear tok repl whole a :
  forall pos b,
    clear_of tok a b = true ->
    replace_scan tok repl whole pos (a ++ b) 0
    = a ++ replace_scan tok repl whole (pos + String.length a) b 0.
Proof.
  induction a as [|c a IH]; intros pos b H.
  - cbn. now rewrite Nat.add_0_r.
  - cbn [clear_of] in H. apply andb_true_iff in H as [Hp Ha].
    apply negb_true_iff in Hp.
    cbn [String.append] in *. cbn [replace_scan]. rewrite Hp.
    cbn [String.length]. rewrite (IH (S pos) b Ha).
    now replace (pos + S (String.length a))%nat
      with (S pos + String.length a)%nat by lia.
Qed.

Lemma occurs_clear tok a b :
  clear_of tok a b = true -> occurs tok (a ++ b) = occurs tok b.
Proof.
  induction a as [|c a IH]; intros H; [reflexivity|].
  cbn [clear_of] in H. apply andb_true_iff in H as [Hp Ha].
  apply negb_true_iff in Hp. cbn [String.append] in *.
  cbn [occurs]. rewrite Hp. cbn. now apply IH.
Qed.

Lemma prefix_app a b : prefix a (a ++ b) = true.
Proof.
  induction a as [|c a IH]; [now destruct b|].
  cbn. destruct (ascii_dec c c); [exact IH | contradiction].
Qed.

Lemma prefix_head c tok d s :
  c <> d -> prefix (String c tok) (String d s) = false.
Proof. intros H. cbn. now destruct (ascii_dec c d). Qed.

(** Text without an opening brace holds no match of a token. *)
Lemma clear_of_no_open key a b :
  string_existsb (fun c => Ascii.eqb c "{") a = false ->
  clear_of (placeholder key) a b = true.
Proof.
  induction a as [|c a IH]; intros H; [reflexivity|].
  cbn [string_existsb] in H. apply orb_false_iff in H as [Hc Ha].
  cbn [clear_of]. rewrite (IH Ha), andb_true_r. apply negb_true_iff.
  unfold placeholder. cbn [String.append]. apply prefix_head.
  intros <-. discriminate.
Qed.

Lemma word_not_brace c : is_word_char c = true -> is_brace c = false.
Proof.
  intros H. destruct (is_brace c) eqn:E; [|reflexivity].
  unfold is_brace in E. apply orb_true_iff in E as [E|E];
    apply Ascii.eqb_eq in E; subst c; discriminate H.
Qed.

Lemma no_brace_no_open s :
  string_existsb is_brace s = false ->
  string_existsb (fun c => Ascii.eqb c "{") s = false.
Proof.
  induction s as [|c s IH]; [reflexivity|].
  cbn [string_existsb]. intros H. apply orb_false_iff in H as [Hc Hs].
  unfold is_brace in Hc. apply orb_false_iff in Hc as [Hc _].
  now rewrite Hc, (IH Hs).
Qed.

Lemma word_no_brace k :
  string_forallb is_word_char k = true -> string_existsb is_brace k = false.
Proof.
  induction k as [|c k IH]; [reflexivity|].
  cbn [string_forallb string_existsb]. intros H.
  apply andb_true_iff in H as [Hc Hk].
  now rewrite (word_not_brace c Hc), (IH Hk).
Qed.

Lemma string_existsb_app p a b :
  string_existsb p (a ++ b) = string_existsb p a || string_existsb p b.
Proof.
  induction a as [|c a IH]; [reflexivity|].
  cbn [String.append string_existsb]. now rewrite IH, orb_assoc.
Qed.

Lemma string_app_assoc (a b c : string) : ((a ++ b) ++ c = a ++ b ++ c)%string.
Proof. induction a as [|x a IH]; [reflexivity|]. cbn. now rewrite IH. Qed.

(** The token of a name does not match at the token of another name. *)
Lemma token_mismatch key :
  forall k b,
    string_forallb is_word_char key = true ->
    string_forallb is_word_char k = true ->
    k <> key ->
    prefix (key ++ "}}") (k ++ "}}" ++ b) = false.
Proof.
  induction key as [|c key IH]; intros k b Hkey Hk Hne.
  - destruct k as [|d k]; [contradiction|].
    cbn [string_forallb] in Hk. apply andb_true_iff in Hk as [Hd _].
    cbn [String.append]. apply prefix_head. intros <-. discriminate Hd.
  - cbn [string_forallb] in Hkey. apply andb_true_iff in Hkey as [Hc Hkey].
    destruct k as [|d k].
    + cbn [String.append]. apply prefix_head. intros ->. discriminate Hc.
    + cbn [string_forallb] in Hk. apply andb_true_iff in Hk as [Hd Hk].
      cbn [String.append prefix]. destruct (ascii_dec c d) as [->|]; [|reflexivity].
      apply IH; trivial. intros ->. now apply Hne.
Qed.

Lemma clear_of_token key k b :
  string_forallb is_word_char key = true ->
  string_forallb is_word_char k = true ->
  k <> key ->
  clear_of (placeholder key) (placeholder k) b = true.
Proof.
  intros Hkey Hk Hne.
  assert (Hopen : string_existsb (fun c => Ascii.eqb c "{") (k ++ "}}") = false).
  { rewrite string_existsb_app, (no_brace_no_open k (word_no_brace k Hk)).
    reflexivity. }
  change (placeholder k) with (String "{" (String "{" (k ++ "}}"))).
  cbn [clear_of]. rewrite (clear_of_no_open key _ b Hopen), andb_true_r.
  apply andb_true_iff. split; apply negb_true_iff.
  - change (placeholder key) with (String "{" (String "{" (key ++ "}}"))).
    cbn [String.append prefix].
    destruct (ascii_dec "{" "{"); [|contradiction].
    rewrite string_app_assoc. now apply token_mismatch.
  - change (placeholder key) with (String "{" (String "{" (key ++ "}}"))).
    cbn [String.append prefix].
    destruct (ascii_dec "{" "{"); [|contradiction].
    destruct k as [|d k].
    + cbn [String.append]. now apply prefix_head.
    + cbn [string_forallb] in Hk. apply andb_true_iff in Hk as [Hd _].
      cbn [String.append]. apply prefix_head. intros <-. discriminate Hd.
Qed.

Lemma clear_of_text key s b :
  piece_ok (Text s) = true -> clear_of (placeholder key) s b = true.
Proof.
  cbn [piece_ok]. intros H. apply negb_true_iff in H.
  apply clear_of_no_open. now apply no_brace_no_open.
Qed.

(** One replacement, on pieces: every token of [key] becomes the
    replacement, everything else stays. *)
Lemma replace_scan_pieces key repl whole :
  string_forallb is_word_char key = true ->
  string_existsb (fun c => Ascii.eqb c "$") repl = false ->
  forall pieces pos,
    forallb piece_ok pieces = true ->
    replace_scan (placeholder key) repl whole pos (flatten pieces) 0
    = flatten (map (substitute_one key repl) pieces).
Proof.
  intros Hkey Hrepl.
  induction pieces as [|[s|k] rest IH]; intros pos Hok.
  - reflexivity.
  - cbn [forallb] in Hok. apply andb_true_iff in Hok as [Hs Hrest].
    cbn [flatten map substitute_one].
    rewrite (replace_scan_clear _ _ _ _ _ _ (clear_of_text key s _ Hs)).
    now rewrite IH.
  - cbn [forallb] in Hok. apply andb_true_iff in Hok as [Hk Hrest].
    cbn [piece_ok] in Hk. cbn [flatten map substitute_one].
    destruct (String.eqb_spec k key) as [->|Hne].
    + cbn [flatten].
      change (placeholder key ++ flatten rest)
        with (String "{" (String "{" (key ++ "}}") ++ flatten rest)).
      cbn [replace_scan].
      change (String "{" (String "{" (key ++ "}}") ++ flatten rest))
        with (placeholder key ++ flatten rest).
      rewrite prefix_app, (getSubstitution_plain _ _ _ _ Hrepl).
      f_equal.
      replace (String.length (placeholder key) - 1)%nat
        with (String.length (String "{" (key ++ "}}")))
        by (unfold placeholder; cbn [String.append String.length]; lia).
      rewrite replace_scan_skip. apply IH. exact Hrest.
    + cbn [flatten].
      rewrite (replace_scan_clear _ _ _ _ _ _
                 (clear_of_token key k _ Hkey Hk Hne)).
      now rewrite IH.
Qed.

Lemma replace_global_pieces key repl pieces :
  string_forallb is_word_char key = true ->
  string_existsb (fun c => Ascii.eqb c "$") repl = false ->
  forallb piece_ok pieces = true ->
  replace_global (placeholder key) repl (flatten pieces)
  = flatten (map (substitute_one key repl) pieces).
Proof. intros. now apply replace_scan_pieces. Qed.

Lemma replace_html_pieces key repl html :
  string_forallb is_word_char key = true ->
  string_existsb (fun c => Ascii.eqb c "$") repl = false ->
  match html with Some h => forallb piece_ok h = true | None => True end ->
  replace_html (placeholder key) repl (option_map flatten html)
  = option_map (fun h => flatten (map (substitute_one key repl) h)) html.
Proof.
  intros Hkey Hrepl Hok. destruct html as [h|]; [|reflexivity].
  cbn [option_map replace_html].
  pose proof (replace_global_pieces key repl h Hkey Hrepl Hok) as E.
  destruct (String.eqb_spec (flatten h) "") as [E0|_]; cbn [negb].
  - rewrite E0 in E. rewrite <- E, E0. reflexivity.
  - now rewrite E.
Qed.

Lemma substitute_one_ok key v pieces :
  string_existsb is_brace v = false ->
  forallb piece_ok pieces = true ->
  forallb piece_ok (map (substitute_one key v) pieces) = true.
Proof.
  intros Hv. induction pieces as [|p rest IH]; [reflexivity|].
  cbn [forallb map]. intros H. apply andb_true_iff in H as [Hp Hrest].
  rewrite (IH Hrest), andb_true_r.
  destruct p as [s|k]; [exact Hp|]. cbn [substitute_one].
  destruct (k =? key)%string; [|exact Hp]. cbn [piece_ok]. now rewrite Hv.
Qed.

Lemma substitute_step key value rest pieces :
  map (substitute rest) (map (substitute_one key (js_String value)) pieces)
  = map (substitute ((key, value) :: rest)) pieces.
Proof.
  rewrite map_map. apply map_ext. intros [s|k]; [reflexivity|].
  cbn [substitute_one substitute own_get]. rewrite (String.eqb_sym key k).
  now destruct (k =? key)%string.
Qed.

Lemma inert_value_parts v :
  inert_value v = true ->
  string_existsb is_brace (js_String v) = false
  /\ string_existsb (fun c => Ascii.eqb c "$") (js_String v) = false.
Proof.
  unfold inert_value. intros H. apply negb_true_iff in H.
  induction (js_String v) as [|c s IH]; [now split|].
  cbn [string_existsb] in *. apply orb_false_iff in H as [Hc Hs].
  apply orb_false_iff in Hc as [Hb Hd]. destruct (IH Hs) as [H1 H2].
  now rewrite Hb, Hd, H1, H2.
Qed.

Lemma plain_key_word key :
  plain_key key = true -> string_forallb is_word_char key = true.
Proof. unfold plain_key. intros H. now apply andb_true_iff in H as [H _]. Qed.

(** The loop of [render] on a template of text and tokens. *)
Lemma render_loop_pieces entries :
  forall ttl msg html,
    forallb plain_key (map fst entries) = true ->
    forallb inert_value (map snd entries) = true ->
    forallb piece_ok ttl = true ->
    forallb piece_ok msg = true ->
    match html with Some h => forallb piece_ok h = true | None => True end ->
    render_loop {| title := flatten ttl; message := flatten msg;
                   htmlContent := option_map flatten html |} entries
    = Returned (substituted entries ttl msg html).
Proof.
  induction entries as [|[key value] rest IH];
    intros ttl msg html Hkeys Hvalues Ht Hm Hh.
  - unfold substituted. cbn [render_loop substitute].
    assert (Hid : forall ps, map (substitute []) ps = ps).
    { intros ps. rewrite <- (map_id ps) at 2. apply map_ext.
      now intros [s|k]. }
    rewrite !Hid. destruct html as [h|]; cbn [option_map]; [|reflexivity].
    now rewrite Hid.
  - cbn [map fst snd forallb] in Hkeys, Hvalues.
    apply andb_true_iff in Hkeys as [Hkey Hkeys].
    apply andb_true_iff in Hvalues as [Hvalue Hvalues].
    destruct (inert_value_parts value Hvalue) as [Hbrace Hdollar].
    pose proof (plain_key_word key Hkey) as Hword.
    cbn [render_loop]. unfold new_RegExp. rewrite Hkey.
    cbn [title message htmlContent].
    rewrite (replace_global_pieces key _ ttl Hword Hdollar Ht),
      (replace_global_pieces key _ msg Hword Hdollar Hm),
      (replace_html_pieces key _ html Hword Hdollar Hh).
    replace (option_map
               (fun h => flatten (map (substitute_one key (js_String value)) h))
               html)
      with (option_map flatten
              (option_map (map (substitute_one key (js_String value))) html))
      by now destruct html.
    rewrite IH; trivial.
    + unfold substituted. rewrite !substitute_step.
      destruct html as [h|]; cbn [option_map]; [|reflexivity].
      now rewrite substitute_step.
    + now apply substitute_one_ok.
    + now apply substitute_one_ok.
    + destruct html as [h|]; cbn [option_map]; [|exact I].
      now apply substitute_one_ok.
Qed.

Lemma own_get_some_key {A} (o : JsObject A) key :
  In key (map fst o) -> exists a, own_get o key = Some a.
Proof.
  induction o as [|[k a] o IH]; intros H; [contradiction|].
  cbn [own_get]. destruct (String.eqb_spec k key) as [->|Hne]; [now eexists|].
  destruct H as [H|H]; [contradiction|]. now apply IH.
Qed.

Lemma substitute_ok entries pieces :
  forallb inert_value (map snd entries) = true ->
  forallb piece_ok pieces = true ->
  forallb piece_ok (map (substitute entries) pieces) = true.
Proof.
  intros Hv. induction pieces as [|p rest IH]; [reflexivity|].
  cbn [forallb map]. intros H. apply andb_true_iff in H as [Hp Hrest].
  rewrite (IH Hrest), andb_true_r.
  destruct p as [s|k]; [exact Hp|]. cbn [substitute].
  destruct (own_get entries k) as [v|] eqn:E; [|exact Hp].
  cbn [piece_ok]. apply negb_true_iff.
  assert (Hin : inert_value v = true).
  { clear - Hv E. induction entries as [|[k' a] o IH]; [discriminate|].
    cbn [map snd forallb] in Hv. apply andb_true_iff in Hv as [Ha Ho].
    cbn [own_get] in E. destruct (k' =? k)%string; [now injection E as <-|].
    now apply IH. }
  now destruct (inert_value_parts v Hin).
Qed.

(** After substitution no token of a supplied variable is left. *)
Lemma substituted_no_token entries key pieces :
  In key (map fst entries) ->
  string_forallb is_word_char key = true ->
  forallb inert_value (map snd entries) = true ->
  forallb piece_ok pieces = true ->
  occurs (placeholder key) (flatten (map (substitute entries) pieces)) = false.
Proof.
  intros Hin Hword Hv. induction pieces as [|p rest IH]; [reflexivity|].
  cbn [forallb]. intros H. apply andb_true_iff in H as [Hp Hrest].
  pose proof (substitute_ok entries [p] Hv) as Hok.
  cbn [forallb map] in Hok. rewrite Hp in Hok. specialize (Hok eq_refl).
  apply andb_true_iff in Hok as [Hok _].
  cbn [map]. destruct (substitute entries p) as [s|k] eqn:E; cbn [flatten].
  - rewrite (occurs_clear _ _ _ (clear_of_text key s _ Hok)). now apply IH.
  - assert (Hne : k <> key).
    { intros ->. destruct p as [s|k']; [discriminate|].
      cbn [substitute] in E. destruct (own_get entries k') eqn:Eg;
        [discriminate|]. injection E as ->.
      destruct (own_get_some_key entries key Hin) as [a Ha]. congruence. }
    rewrite (occurs_clear _ _ _ (clear_of_token key k _ Hword Hok Hne)).
    now apply IH.
Qed.

Lemma substituted_tokens entries ttl msg html :
  forallb plain_key (map fst entries) = true ->
  forallb inert_value (map snd entries) = true ->
  forallb piece_ok ttl = true ->
  forallb piece_ok msg = true ->
  match html with Some h => forallb piece_ok h = true | None => True end ->
  tokens_substituted entries (substituted entries ttl msg html) = true.
Proof.
  intros Hkeys Hv Ht Hm Hh. unfold tokens_substituted. apply forallb_forall.
  intros key Hin.
  assert (Hword : string_forallb is_word_char key = true).
  { apply plain_key_word. rewrite forallb_forall in Hkeys. now apply Hkeys. }
  unfold substituted. cbn [title message htmlContent].
  rewrite (substituted_no_token entries key ttl Hin Hword Hv Ht),
    (substituted_no_token entries key msg Hin Hword Hv Hm).
  destruct html as [h|]; cbn [option_map occurs_html]; [|reflexivity].
  now rewrite (substituted_no_token entries key h Hin Hword Hv Hh).
Qed.

Lemma keys_outcome_plain entries :
  forallb plain_key (map fst entries) = true ->
  keys_outcome entries = Returned tt.
Proof.
  induction entries as [|[key value] rest IH]; [reflexivity|].
  cbn [map fst forallb keys_outcome]. intros H.
  apply andb_true_iff in H as [Hk Hrest].
  unfold new_RegExp. rewrite Hk. now apply IH.
Qed.

(** Rendering again changes nothing when no token of a supplied variable
    is left. *)
Lemma render_again_when_substituted t variables r :
  render t variables = Some r ->
  tokens_substituted variables r = true ->
  render (with_fields t r) variables = Some r.
Proof.
  unfold render. intros H Hs. rewrite template_fields_with_fields.
  pose proof (render_loop_outcome variables (template_fields t)) as Ho.
  pose proof (render_loop_outcome variables r) as Ho'.
  destruct (render_loop (template_fields t) variables) as [r0| |] eqn:E;
    [| |discriminate]; injection H as <-.
  - destruct (keys_outcome variables) as [[]| |] eqn:Ek; try contradiction.
    now rewrite (render_loop_substituted variables r0 Ek Hs).
  - destruct (keys_outcome variables) as [[]| |] eqn:Ek; try contradiction.
    now destruct (render_loop (template_fields t) variables).
Qed.

(** C6, amended: for variable names made of letters, digits and [_]
    (not a run of digits) render returns a result, and rendering is
    idempotent whenever that result holds no token of a supplied
    variable.  This is so whenever the fields of the template are spelled
    by brace-free text and tokens and the string form of no value holds a
    brace or a [$]: render then replaces every token of a supplied
    variable, at each of its occurrences, by the string form of the
    value, leaves everything else, and rendering the result again returns
    it unchanged. *)
Theorem render_idempotent_when_substituted t variables :
  forallb plain_key (map fst variables) = true ->
  exists r,
    render t variables = Some r
    /\ (tokens_substituted variables r = true ->
        render (with_fields t r) variables = Some r)
    /\ (forall ttl msg html,
           spelled_by t ttl msg html ->
           forallb inert_value (map snd variables) = true ->
           r = substituted variables ttl msg html
           /\ tokens_substituted variables r = true
           /\ render (with_fields t r) variables = Some r).
Proof.
  intros Hkeys.
  pose proof (keys_outcome_plain variables Hkeys) as Ek.
  pose proof (render_loop_outcome variables (template_fields t)) as Ho.
  rewrite Ek in Ho.
  destruct (render_loop (template_fields t) variables) as [r| |] eqn:E;
    try contradiction.
  assert (Hr : render t variables = Some r) by (unfold render; now rewrite E).
  exists r. split; [exact Hr|]. split.
  - intros Hs. now apply render_again_when_substituted.
  - intros ttl msg html (Et & Em & Eh & Ht & Hm & Hh) Hvalues.
    assert (Er : r = substituted variables ttl msg html).
    { pose proof (render_loop_pieces variables ttl msg html
                    Hkeys Hvalues Ht Hm Hh) as El.
      unfold template_fields in E. rewrite Et, Em, Eh in E. congruence. }
    assert (Hs : tokens_substituted variables r = true).
    { rewrite Er. now apply substituted_tokens. }
    split; [exact Er|]. split; [exact Hs|].
    now apply render_again_when_substituted.
Qed.

Lemma render_idempotent_when_substituted_witness :
  exists r,
    render greeting ada_variables = Some r
    /\ r = {| title := "Hello Ada"; message := "Welcome, Ada!";
              htmlContent := Some "<b>Ada</b>" |}
    /\ tokens_substituted ada_variables r = true
    /\ render (with_fields greeting r) ada_variables = Some r.
Proof.
  destruct (render_idempotent_when_substituted greeting ada_variables eq_refl)
    as (r & Hr & _ & Hp).
  destruct (Hp greeting_title greeting_message (Some greeting_html))
    as (E & Hs & Hi).
  - repeat split.
  - reflexivity.
  - exists r. split; [exact Hr|]. split; [exact E|]. split; [exact Hs|exact Hi].
Defined.

(* ===================================================================== *)
(** * Dispatcher: proofs *)
(* ===================================================================== *)

(** The rows carry [isEnabled]; [enabled] reads as [undefined] on each. *)
Lemma pref_enabled_undefined pref : pref_prop pref "enabled" = JUndefined.
Proof. reflexivity. Qed.

Lemma enabledChannels_nil prefs : enabledChannels prefs = [].
Proof.
  unfold enabledChannels.
  induction prefs as [|p prefs IH]; [reflexivity|].
  cbn [filter]. now rewrite pref_enabled_undefined.
Qed.

Lemma filter_enabled_nil typeChannels : filter_enabled [] typeChannels = typeChannels.
Proof.
  unfold filter_enabled. induction typeChannels as [|c l IH]; [reflexivity|].
  cbn. f_equal. exact IH.
Qed.

(** Without a pinned channel the preference rows play no part. *)
Lemma determineChannels_unpinned d prefs :
  pinned_channel d = None ->
  determineChannels d prefs
  = match obj_get defaultChannels (nd_type d) with
    | Own typeChannels => Normal typeChannels
    | Absent => Normal [NotificationChannel.EMAIL]
    | Inherited _ => Throw (TypeError "typeChannels.filter is not a function")
    end.
Proof.
  intros H. unfold determineChannels. rewrite H, enabledChannels_nil.
  destruct (obj_get defaultChannels (nd_type d)); try reflexivity.
  now rewrite filter_enabled_nil.
Qed.

Lemma determineChannels_pinned d prefs c :
  pinned_channel d = Some c -> determineChannels d prefs = Normal [c].
Proof. intros H. unfold determineChannels. now rewrite H. Qed.

Lemma job_as_dispatched_mono d row w from from' to to' qj :
  (from' <= from)%nat -> (to <= to')%nat ->
  job_as_dispatched d row w from to qj ->
  job_as_dispatched d row w from' to' qj.
Proof.
  intros Hf Ht (Hd & Hp & Hdel). repeat split; trivial.
  unfold delay_as_computed in *. destruct (nd_scheduledAt d); trivial.
  destruct Hdel as (k & Hk & E). exists k. split; [lia|exact E].
Qed.

(** The enqueue loop: one job per channel that names a queue, added in
    order; nothing else in the world moves but the clock. *)
Lemma queue_jobs_spec d row :
  forall channels w,
  exists added r',
    queue_jobs d row channels w
    = (Normal tt, set_reads (set_queued w (queued w ++ added)) r')
    /\ (reads w <= r')%nat
    /\ map (fun qj => (fst qj, j_name (snd qj))) added = channels_queues channels
    /\ Forall (job_as_dispatched d row w (reads w) r') added.
Proof.
  induction channels as [|channel rest IH]; intros w.
  - exists [], (reads w). cbn. rewrite app_nil_r.
    repeat split; trivial. now destruct w.
  - cbn [queue_jobs channels_queues flat_map].
    destruct (queue_of_channel channel) as [[q name]|] eqn:Eq.
    + unfold bind at 1. unfold bind at 1. unfold job_delay.
      destruct (nd_scheduledAt d) as [t|] eqn:Es.
      * unfold bind at 1. cbn [Date_now ret queue_add].
        set (job := {| j_name := name; j_data := jobData_of d row;
                       j_priority := getPriority (nd_priority d);
                       j_delay := t - clock w (reads w) |}).
        set (w2 := set_queued (set_reads w (S (reads w))) _).
        destruct (IH w2) as (added & r' & E & Hr & Hq & Hall).
        exists ((q, job) :: added), r'. rewrite E.
        repeat split.
        -- subst w2. unfold set_reads, set_queued. cbn. now rewrite <- app_assoc.
        -- subst w2. cbn in Hr. lia.
        -- cbn. now rewrite Hq.
        -- constructor.
           ++ repeat split. unfold delay_as_computed. rewrite Es.
              exists (reads w). subst w2. cbn in Hr. split; [lia|reflexivity].
           ++ eapply Forall_impl; [|exact Hall]. intros qj Hj.
              subst w2. cbn in Hj.
              eapply job_as_dispatched_mono; [| |exact Hj]; cbn; lia.
      * cbn [ret queue_add].
        set (job := {| j_name := name; j_data := jobData_of d row;
                       j_priority := getPriority (nd_priority d);
                       j_delay := 0 |}).
        set (w2 := set_queued w _).
        destruct (IH w2) as (added & r' & E & Hr & Hq & Hall).
        exists ((q, job) :: added), r'. rewrite E.
        repeat split.
        -- subst w2. unfold set_reads, set_queued. cbn. now rewrite <- app_assoc.
        -- exact Hr.
        -- cbn. now rewrite Hq.
        -- constructor.
           ++ repeat split. unfold delay_as_computed. now rewrite Es.
           ++ exact Hall.
    + unfold bind at 1. cbn [ret]. apply IH.
Qed.

(** One call of [sendNotification], step by step. *)
Lemma sendNotification_spec d w :
  let row := created_row d (nextId w) (clock w (reads w)) in
  let prefs := filter (fun p => (up_userId p =? nd_userId d)%string)
                      (userPreferences w) in
  match determineChannels d prefs with
  | Normal channels =>
      exists added r',
        sendNotification d w
        = (Normal row,
           set_reads (set_queued (after_create d w) (queued w ++ added)) r')
        /\ (S (reads w) <= r')%nat
        /\ map (fun qj => (fst qj, j_name (snd qj))) added = channels_queues channels
        /\ Forall (job_as_dispatched d row w (reads w) r') added
  | Throw e => sendNotification d w = (Throw e, after_create d w)
  end.
Proof.
  intros row prefs.
  cbv beta iota zeta delta [sendNotification bind prisma_notification_create
                              Date_now getUserPreferences lift ret].
  cbn [userPreferences set_nextId set_notifications set_reads nextId clock reads].
  fold row. fold prefs.
  destruct (determineChannels d prefs) as [channels|e]; [|reflexivity].
  match goal with |- context [queue_jobs d row channels ?w1] =>
    destruct (queue_jobs_spec d row channels w1) as (added & r' & E & Hr & Hq & Hall);
    rewrite E end.
  exists added, r'. cbn in Hr.
  split; [reflexivity|]. split; [exact Hr|]. split; [exact Hq|].
  eapply Forall_impl; [|exact Hall]. intros qj Hj.
  destruct Hj as (Hd & Hp & Hdel). repeat split; trivial.
  unfold delay_as_computed in *. destruct (nd_scheduledAt d); trivial.
  destruct Hdel as (k & Hk & Ek). cbn in Hk, Ek. exists k. split; [lia|exact Ek].
Qed.

(** The jobs a call adds, and what each of them carries. *)
Lemma added_jobs_spec d w :
  let w' := snd (sendNotification d w) in
  queued w' = (queued w ++ added_jobs d w)%list
  /\ (S (reads w) <= reads w')%nat
  /\ Forall (job_as_dispatched d (created_row d (nextId w) (clock w (reads w)))
                               w (reads w) (reads w'))
            (added_jobs d w)
  /\ match determineChannels d
             (filter (fun p => (up_userId p =? nd_userId d)%string)
                     (userPreferences w)) with
     | Normal channels =>
         map (fun qj => (fst qj, j_name (snd qj))) (added_jobs d w)
         = channels_queues channels
     | Throw _ => added_jobs d w = []
     end.
Proof.
  intros w'. subst w'. unfold added_jobs.
  pose proof (sendNotification_spec d w) as H. cbn zeta in H.
  destruct (determineChannels d _) as [channels|e].
  - destruct H as (added & r' & E & Hr & Hq & Hall). rewrite E. cbn.
    rewrite skipn_app, skipn_all, Nat.sub_diag. cbn.
    repeat split; trivial.
  - rewrite H. cbn. rewrite skipn_all. rewrite app_nil_r.
    repeat split; trivial.
Qed.

(** The store invariant is kept by every dispatch, whether it ends
    normally or throws after the row is stored. *)
Lemma sendNotification_keeps_store_wf d w :
  store_wf w -> store_wf (snd (sendNotification d w)).
Proof.
  intros [Hnd Hall].
  assert (E : notifications (snd (sendNotification d w))
              = (notifications w ++ [created_row d (nextId w) (clock w (reads w))])%list
              /\ nextId (snd (sendNotification d w)) = S (nextId w)).
  { pose proof (sendNotification_spec d w) as H. cbn zeta in H.
    destruct (determineChannels d _).
    - destruct H as (added & r' & -> & _). now split.
    - rewrite H. now split. }
  destruct E as [En Ei]. unfold store_wf. rewrite En, Ei. split.
  - rewrite map_app. cbn [map created_row n_id].
    apply NoDup_app.
    + exact Hnd.
    + repeat constructor. easy.
    + intros id Hin [<-|[]]. apply in_map_iff in Hin as (n & En' & Hn).
      rewrite Forall_forall in Hall. destruct (Hall n Hn) as (Hlt & _). lia.
  - apply Forall_app. split.
    + eapply Forall_impl; [|exact Hall]. intros n (H1 & H2 & H3).
      repeat split; trivial. lia.
    + repeat constructor; cbn [created_row n_id n_channel n_priority].
      * unfold or_default. destruct (nd_channel d) as [c|]; [|discriminate].
        destruct (String.eqb_spec c ""); cbn; [discriminate|assumption].
      * unfold or_default. destruct (nd_priority d) as [c|]; [|discriminate].
        destruct (String.eqb_spec c ""); cbn; [discriminate|assumption].
Qed.

(** C1, at the failing input: user u2 has the rows (EMAIL, isEnabled =
    true) and (PUSH, isEnabled = false); an ORDER_CONFIRMATION request
    without a pinned channel gets a job on the email queue and a job on
    the push queue, where the claim has exactly one job, on email. *)
Theorem dispatch_u2_enqueues_push_too :
  map fst (added_jobs u2_request u2_world) = [EmailQueue; PushQueue]
  /\ map j_name (emailQueue (snd (sendNotification u2_request u2_world)))
     = ["send-email"]
  /\ map j_name (pushQueue (snd (sendNotification u2_request u2_world)))
     = ["send-push"].
Proof. repeat split; reflexivity. Qed.

(** The preference rows never change the outcome of [determineChannels]. *)
Lemma determineChannels_ignores_preferences d prefs prefs' :
  determineChannels d prefs = determineChannels d prefs'.
Proof.
  unfold determineChannels. now rewrite !enabledChannels_nil.
Qed.

(** C4, as stated, fails: a request scheduled at instant 1000, dispatched
    when the clock reads 5001, is enqueued with the delay -4001. *)
Lemma dispatch_delay_negative :
  In late_job (added_jobs late_request u2_world)
  /\ j_delay (snd late_job) < 0.
Proof. split; [left; reflexivity | reflexivity]. Qed.

(** C4, amended: the delay of every job the dispatcher enqueues is 0 when
    the request has no scheduledAt, and scheduledAt minus the clock
    reading taken for that job when it has one, so that reading plus
    delay is scheduledAt; it is non-negative exactly when scheduledAt is
    not before that reading. *)
Theorem dispatch_delay_as_computed d w qj :
  In qj (added_jobs d w) ->
  match nd_scheduledAt d with
  | None => j_delay (snd qj) = 0
  | Some scheduledAt =>
      exists k,
        (reads w <= k < reads (snd (sendNotification d w)))%nat
        /\ j_delay (snd qj) = scheduledAt - clock w k
        /\ clock w k + j_delay (snd qj) = scheduledAt
        /\ (0 <= j_delay (snd qj) <-> clock w k <= scheduledAt)
  end.
Proof.
  intros Hin.
  destruct (added_jobs_spec d w) as (_ & _ & Hall & _).
  rewrite Forall_forall in Hall. destruct (Hall qj Hin) as (_ & _ & Hdel).
  unfold delay_as_computed in Hdel.
  destruct (nd_scheduledAt d) as [t|]; [|exact Hdel].
  destruct Hdel as (k & Hk & E). exists k. repeat split; trivial; lia.
Qed.

Lemma dispatch_delay_as_computed_witness :
  exists k,
    (reads u2_world <= k < reads (snd (sendNotification late_request u2_world)))%nat
    /\ j_delay (snd late_job) = 1000 - clock u2_world k
    /\ clock u2_world k + j_delay (snd late_job) = 1000
    /\ (0 <= j_delay (snd late_job) <-> clock u2_world k <= 1000).
Proof.
  apply (dispatch_delay_as_computed late_request u2_world late_job).
  left; reflexivity.
Defined.

(** C9: LOW, NORMAL, HIGH and URGENT are enqueued as 1, 5, 10 and 20, an
    absent priority as 5; every job of a request with priority URGENT is
    enqueued with priority 20. *)
Theorem priority_mapping d w qj :
  getPriority (Some NotificationPriority.LOW) = PNumber 1
  /\ getPriority (Some NotificationPriority.NORMAL) = PNumber 5
  /\ getPriority (Some NotificationPriority.HIGH) = PNumber 10
  /\ getPriority (Some NotificationPriority.URGENT) = PNumber 20
  /\ getPriority None = PNumber 5
  /\ (In qj (added_jobs d w) ->
      j_priority (snd qj) = getPriority (nd_priority d))
  /\ (nd_priority d = Some NotificationPriority.URGENT ->
      In qj (added_jobs d w) ->
      j_priority (snd qj) = PNumber 20).
Proof.
  assert (Hjob : In qj (added_jobs d w) ->
                 j_priority (snd qj) = getPriority (nd_priority d)).
  { intros Hin. destruct (added_jobs_spec d w) as (_ & _ & Hall & _).
    rewrite Forall_forall in Hall. now destruct (Hall qj Hin) as (_ & Hp & _). }
  repeat split; try reflexivity; trivial.
  intros Hu Hin. rewrite (Hjob Hin), Hu. reflexivity.
Qed.

Lemma priority_mapping_witness :
  In late_job (added_jobs late_request u2_world)
  /\ j_priority (snd late_job) = PNumber 20.
Proof.
  assert (Hin : In late_job (added_jobs late_request u2_world))
    by (left; reflexivity).
  split; [exact Hin|].
  apply (priority_mapping late_request u2_world late_job); [reflexivity|exact Hin].
Defined.

(** A type that is neither recognised nor inherited from
    [Object.prototype] is routed to EMAIL alone. *)
Lemma determineChannels_unrecognised d prefs :
  pinned_channel d = None ->
  str_mem (nd_type d) NotificationType.all = false ->
  str_mem (nd_type d) object_prototype_keys = false ->
  determineChannels d prefs = Normal [NotificationChannel.EMAIL].
Proof.
  intros Hp Hn Ho. rewrite (determineChannels_unpinned d prefs Hp).
  unfold obj_get. rewrite Ho.
  assert (E : own_get defaultChannels (nd_type d) = None).
  { unfold str_mem, NotificationType.all in Hn. cbn [existsb] in Hn.
    repeat match type of Hn with
           | (_ || _)%bool = false =>
               let He := fresh "He" in apply orb_false_iff in Hn as [He Hn]
           end.
    unfold defaultChannels. cbn [own_get].
    now rewrite He, He0, He1, He2, He3, He4, He5, He6. }
  now rewrite E.
Qed.

(** C10, at the failing input: the type "constructor" is not one of the
    eight recognised types, yet the table lookup finds the member every
    object inherits, the fallback to EMAIL is not taken, and the call
    throws after the notification row is stored: no job is enqueued. *)
Theorem dispatch_inherited_type_throws w prefs :
  str_mem (nd_type inherited_type_request) NotificationType.all = false
  /\ pinned_channel inherited_type_request = None
  /\ determineChannels inherited_type_request prefs
     = Throw (TypeError "typeChannels.filter is not a function")
  /\ fst (sendNotification inherited_type_request w)
     = Throw (TypeError "typeChannels.filter is not a function")
  /\ added_jobs inherited_type_request w = []
  /\ notifications (snd (sendNotification inherited_type_request w))
     = (notifications w
          ++ [created_row inherited_type_request (nextId w) (clock w (reads w))])%list.
Proof.
  assert (Hd : forall p, determineChannels inherited_type_request p
               = Throw (TypeError "typeChannels.filter is not a function")).
  { intros p. now rewrite determineChannels_unpinned. }
  split; [reflexivity|]. split; [reflexivity|]. split; [apply Hd|].
  pose proof (sendNotification_spec inherited_type_request w) as H. cbn zeta in H.
  rewrite Hd in H.
  pose proof (added_jobs_spec inherited_type_request w) as Ha. cbn zeta in Ha.
  rewrite Hd in Ha. destruct Ha as (_ & _ & _ & Ha).
  rewrite H. repeat split; trivial.
Qed.

(* ===================================================================== *)
(** * Status updates: proofs *)
(* ===================================================================== *)

Lemma find_notification_map id f rows row :
  (forall n, n_id (f n) = n_id n) ->
  find_notification id rows = Some row ->
  find_notification id (map f rows) = Some (f row).
Proof.
  intros Hf. unfold find_notification.
  induction rows as [|n rows IH]; cbn; [discriminate|].
  rewrite Hf. destruct (n_id n =? id)%nat.
  - now intros [= ->].
  - exact IH.
Qed.

Lemma find_notification_id id rows row :
  find_notification id rows = Some row -> n_id row = id.
Proof.
  unfold find_notification. intros H. apply find_some in H as [_ H].
  now apply Nat.eqb_eq in H.
Qed.

(** The keys [updateNotificationStatus] puts in the update: [status] and
    [updatedAt] always, [sentAt] exactly for SENT, [failedAt] and
    [errorMessage] exactly for FAILED. *)
Lemma updateData_keys status errorMessage w :
  exists u,
    updateData_for status errorMessage w
    = (Normal u, set_reads w (reads (snd (updateData_for status errorMessage w))))
    /\ ud_status u = Some status
    /\ ud_updatedAt u = Some (clock w (reads w))
    /\ ud_retryCount u = None
    /\ (ud_sentAt u <> None <-> status = NotificationStatus.SENT)
    /\ (ud_failedAt u <> None <-> status = NotificationStatus.FAILED)
    /\ (ud_errorMessage u <> None <-> status = NotificationStatus.FAILED)
    /\ (status = NotificationStatus.SENT ->
        ud_sentAt u = Some (clock w (S (reads w))))
    /\ (status = NotificationStatus.FAILED ->
        ud_failedAt u = Some (clock w (S (reads w)))
        /\ ud_errorMessage u = Some errorMessage).
Proof.
  cbv beta iota zeta delta [updateData_for bind Date_now ret].
  destruct (String.eqb_spec status NotificationStatus.SENT) as [Es|Es].
  - eexists. split; [reflexivity|]. cbn.
    assert (Hf : status <> NotificationStatus.FAILED) by (subst; discriminate).
    repeat split; try easy.
  - destruct (String.eqb_spec status NotificationStatus.FAILED) as [Ef|Ef].
    + eexists. split; [reflexivity|]. cbn. repeat split; try easy.
    + eexists. split; [reflexivity|]. cbn. repeat split; try easy.
Qed.

(** C7: a status update stores the new status and a fresh updatedAt; it
    sets sentAt exactly when the new status is SENT, failedAt and (to the
    message it is given) errorMessage exactly when it is FAILED; the other
    fields of the notification, and the other notifications, stay as
    they are. *)
Theorem updateStatus_effect w id status errorMessage row :
  find_notification id (notifications w) = Some row ->
  exists row' w',
    updateNotificationStatus id status errorMessage w = (Normal row', w')
    /\ find_notification id (notifications w') = Some row'
    /\ n_status row' = status
    /\ n_updatedAt row' = clock w (reads w)
    /\ (status = NotificationStatus.SENT ->
        n_sentAt row' = Some (clock w (S (reads w))))
    /\ (status <> NotificationStatus.SENT -> n_sentAt row' = n_sentAt row)
    /\ (status = NotificationStatus.FAILED ->
        n_failedAt row' = Some (clock w (S (reads w)))
        /\ n_errorMessage row' = match errorMessage with
                                 | Some e => Some e
                                 | None => n_errorMessage row
                                 end)
    /\ (status <> NotificationStatus.FAILED ->
        n_failedAt row' = n_failedAt row
        /\ n_errorMessage row' = n_errorMessage row)
    /\ status_frame row' = status_frame row
    /\ (forall n, In n (notifications w) -> n_id n <> id ->
                  In n (notifications w'))
    /\ List.length (notifications w') = List.length (notifications w).
Proof.
  intros Hfind.
  destruct (updateData_keys status errorMessage w)
    as (u & Eu & Hs & Hu & Hr & Hsent & Hfailed & Herr & Hsent' & Hfailed').
  unfold updateNotificationStatus. unfold bind at 1. rewrite Eu.
  unfold prisma_notification_update. cbn [notifications set_reads].
  rewrite Hfind.
  eexists. eexists. split; [reflexivity|]. cbn [notifications set_notifications].
  split.
  { rewrite <- (find_notification_id _ _ _ Hfind) at 1.
    pose proof (find_notification_map id
                  (fun n => if (n_id n =? id)%nat then apply_update u n else n)
                  (notifications w) row) as Hm.
    cbn beta in Hm. rewrite (find_notification_id _ _ _ Hfind), Nat.eqb_refl in Hm.
    rewrite (find_notification_id _ _ _ Hfind). apply Hm; trivial.
    intros n. now destruct (n_id n =? id)%nat. }
  unfold apply_update; cbn. rewrite Hs, Hu, Hr.
  split; [reflexivity|]. split; [reflexivity|].
  split. { intros E. now rewrite (Hsent' E). }
  split. { intros E. destruct (ud_sentAt u) eqn:Ed; [|reflexivity].
           exfalso. apply E, Hsent. discriminate. }
  split. { intros E. destruct (Hfailed' E) as [-> ->]. now destruct errorMessage. }
  split. { intros E. split.
           - destruct (ud_failedAt u) eqn:Ed; [|reflexivity].
             exfalso. apply E, Hfailed. discriminate.
           - destruct (ud_errorMessage u) eqn:Ed; [|reflexivity].
             exfalso. apply E, Herr. discriminate. }
  split; [reflexivity|].
  split.
  - intros n Hin Hne. apply in_map_iff. exists n. split; [|exact Hin].
    apply Nat.eqb_neq in Hne. now rewrite Hne.
  - apply length_map.
Qed.

Lemma updateStatus_effect_witness :
  exists row' w',
    updateNotificationStatus 7 "FAILED" (Some "No email found for user u1") worker_world
    = (Normal row', w')
    /\ n_status row' = "FAILED"
    /\ n_failedAt row' = Some 5001
    /\ n_errorMessage row' = Some "No email found for user u1"
    /\ n_sentAt row' = None
    /\ status_frame row' = status_frame processing_row.
Proof.
  destruct (updateStatus_effect worker_world 7 "FAILED"
              (Some "No email found for user u1") processing_row eq_refl)
    as (row' & w' & E & _ & Hs & _ & _ & Hsent & Hfailed & _ & Hframe & _).
  exists row', w'. split; [exact E|]. split; [exact Hs|].
  destruct (Hfailed eq_refl) as [Hf He].
  split; [exact Hf|]. split; [exact He|].
  split; [apply Hsent; discriminate | exact Hframe].
Defined.

(* ===================================================================== *)
(** * Retry pass: proofs *)
(* ===================================================================== *)

Ltac world_simpl :=
  cbn [notifications userPreferences notificationTemplates queued cache
       produced nextId clock reads set_notifications set_nextId set_queued
       set_cache set_produced set_reads after_create] in *.

Lemma or_default_nonempty s fallback :
  s <> "" -> or_default (Some s) fallback = s.
Proof.
  intros H. unfold or_default.
  destruct (String.eqb_spec s ""); [contradiction|reflexivity].
Qed.

Lemma pinned_retry_data n :
  n_channel n <> "" -> pinned_channel (retry_data n) = Some (n_channel n).
Proof.
  intros H. unfold pinned_channel. cbn.
  destruct (String.eqb_spec (n_channel n) ""); [contradiction|reflexivity].
Qed.

(** Dispatching a row again: a new row with the same attributes and its
    job. *)
Lemma sendNotification_retry n w :
  n_channel n <> "" -> n_priority n <> "" ->
  let row := created_row (retry_data n) (nextId w) (clock w (reads w)) in
  sendNotification (retry_data n) w
  = (Normal row,
     set_queued (after_create (retry_data n) w) (queued w ++ job_of_row row))
  /\ row_attributes row = row_attributes n.
Proof.
  intros Hc Hp row.
  assert (Ec : n_channel row = n_channel n) by (apply or_default_nonempty; exact Hc).
  assert (Ep : n_priority row = n_priority n) by (apply or_default_nonempty; exact Hp).
  split.
  - cbv beta iota zeta delta [sendNotification bind prisma_notification_create
                                Date_now getUserPreferences lift ret].
    cbn [userPreferences set_nextId set_notifications set_reads nextId clock reads].
    fold row.
    rewrite (determineChannels_pinned _ _ _ (pinned_retry_data n Hc)).
    cbn [queue_jobs]. unfold job_of_row. rewrite Ec, Ep.
    destruct (queue_of_channel (n_channel n)) as [[q name]|]; cbn.
    + reflexivity.
    + unfold after_create, set_queued, set_nextId, set_notifications, set_reads.
      cbn. now rewrite app_nil_r.
  - unfold row_attributes. now rewrite Ec, Ep.
Qed.

Lemma find_notification_in id rows :
  In id (map n_id rows) -> exists row, find_notification id rows = Some row.
Proof.
  unfold find_notification. induction rows as [|n rows IH]; cbn; [easy|].
  intros [E|Hin].
  - subst. rewrite Nat.eqb_refl. now exists n.
  - destruct (n_id n =? id)%nat; [now exists n | now apply IH].
Qed.

Lemma find_by_id_none (rows : list Notification) id :
  ~ In id (map n_id rows) ->
  find (fun n => (n_id n =? id)%nat) rows = None.
Proof.
  induction rows as [|n rows IH]; cbn; [easy|].
  intros H. destruct (Nat.eqb_spec (n_id n) id) as [E|E].
  - exfalso. apply H. now left.
  - apply IH. intros Hin. apply H. now right.
Qed.

Lemma apply_update_id u n : n_id (apply_update u n) = n_id n.
Proof. reflexivity. Qed.

Lemma retry_loop_spec :
  forall rows w,
    NoDup (map n_id rows) ->
    Forall (fun n => (n_id n < nextId w)%nat
                     /\ n_channel n <> "" /\ n_priority n <> ""
                     /\ In (n_id n) (map n_id (notifications w))) rows ->
    exists w' news,
      retry_loop rows w = (Normal tt, w')
      /\ notifications w' = (map (retry_update rows) (notifications w) ++ news)%list
      /\ map row_attributes news = map row_attributes rows
      /\ Forall (fun n => n_status n = NotificationStatus.QUEUED
                          /\ n_retryCount n = 0
                          /\ (nextId w <= n_id n)%nat) news
      /\ queued w' = (queued w ++ flat_map job_of_row news)%list.
Proof.
  induction rows as [|n rest IH]; intros w Hnd Hall.
  - exists w, []. cbn. rewrite !app_nil_r. repeat split; trivial.
    unfold retry_update. cbn. now rewrite map_id.
  - cbn [map] in Hnd. apply NoDup_cons_iff in Hnd as [Hnotin Hnd].
    apply Forall_cons_iff in Hall as [(Hlt & Hc & Hp & Hin) Hall].
    destruct (sendNotification_retry n w Hc Hp) as [Esend Hattr].
    cbn zeta in Esend, Hattr.
    set (row := created_row (retry_data n) (nextId w) (clock w (reads w))) in *.
    cbn [retry_loop]. unfold bind at 1. rewrite Esend.
    unfold bind at 1. unfold prisma_notification_update.
    cbn [notifications set_queued after_create set_nextId set_notifications set_reads].
    fold row.
    destruct (find_notification_in (n_id n) (notifications w ++ [row]))
      as [r0 Er0].
    { rewrite map_app. apply in_or_app. now left. }
    rewrite Er0.
    set (f := fun m => if (n_id m =? n_id n)%nat
                       then apply_update (retryCount_data (n_retryCount n + 1)) m
                       else m).
    match goal with |- context [retry_loop rest ?x] => set (w2 := x) end.
    assert (Hfid : forall m, n_id (f m) = n_id m).
    { intros m. unfold f. now destruct (n_id m =? n_id n)%nat. }
    assert (Hids : map n_id (map f (notifications w ++ [row]))
                   = map n_id (notifications w ++ [row])).
    { rewrite map_map. apply map_ext. exact Hfid. }
    destruct (IH w2) as (w' & news & Eloop & Hrows & Hattrs & Hnews & Hq).
    { exact Hnd. }
    { eapply Forall_impl; [|exact Hall]. intros m (Hm1 & Hm2 & Hm3 & Hm4).
      subst w2. world_simpl. repeat split; trivial; [lia|].
      rewrite Hids, map_app. apply in_or_app. now left. }
    exists w', (row :: news). split; [exact Eloop|].
    assert (Hrow_id : n_id row = nextId w) by reflexivity.
    assert (Hrow_rest : ~ In (n_id row) (map n_id rest)).
    { intros Hi. apply in_map_iff in Hi as (m & Em & Hm).
      rewrite Forall_forall in Hall. destruct (Hall m Hm) as (Hm1 & _). lia. }
    split.
    { rewrite Hrows. subst w2. world_simpl.
      rewrite !map_app. cbn [map]. rewrite <- app_assoc. cbn [app].
      f_equal.
      - rewrite map_map. apply map_ext. intros m.
        unfold retry_update, f. cbn [find].
        destruct (Nat.eqb_spec (n_id n) (n_id m)) as [E|E].
        + rewrite <- E, Nat.eqb_refl. cbn [n_id apply_update].
          rewrite (find_by_id_none rest (n_id m)); [reflexivity|].
          now rewrite <- E.
        + destruct (Nat.eqb_spec (n_id m) (n_id n)); [congruence|reflexivity].
      - f_equal. unfold f.
        destruct (Nat.eqb_spec (n_id row) (n_id n)) as [E|E]; [lia|].
        unfold retry_update. now rewrite (find_by_id_none rest (n_id row) Hrow_rest). }
    split. { cbn [map]. now rewrite Hattr, Hattrs. }
    split.
    { constructor.
      - repeat split. lia.
      - eapply Forall_impl; [|exact Hnews]. intros m (H1 & H2 & H3).
        subst w2. world_simpl. repeat split; trivial. lia. }
    rewrite Hq. subst w2. world_simpl. cbn [flat_map]. now rewrite <- app_assoc.
Qed.

Lemma in_firstn {A} (x : A) k :
  forall l, In x (firstn k l) -> In x l.
Proof.
  induction k as [|k IH]; intros [|a l]; cbn; try easy.
  intros [->|H]; [now left | right; now apply IH].
Qed.

Lemma NoDup_map_filter {A B} (f : A -> B) (p : A -> bool) l :
  NoDup (map f l) -> NoDup (map f (filter p l)).
Proof.
  induction l as [|a l IH]; cbn; [trivial|].
  intros H. apply NoDup_cons_iff in H as [Hn Hd].
  destruct (p a); [|now apply IH].
  cbn. constructor; [|now apply IH].
  intros Hin. apply Hn. apply in_map_iff in Hin as (x & Ex & Hx).
  apply filter_In in Hx as [Hx _]. apply in_map_iff. now exists x.
Qed.

Lemma NoDup_map_firstn {A B} (f : A -> B) k :
  forall l, NoDup (map f l) -> NoDup (map f (firstn k l)).
Proof.
  induction k as [|k IH]; intros [|a l]; cbn; try constructor.
  - intros Hin. apply NoDup_cons_iff in H as [Hn _]. apply Hn.
    apply in_map_iff in Hin as (x & Ex & Hx). apply in_firstn in Hx.
    apply in_map_iff. now exists x.
  - apply IH. now apply NoDup_cons_iff in H as [_ Hd].
Qed.

Lemma same_id_same_row (rows : list Notification) a b :
  NoDup (map n_id rows) -> In a rows -> In b rows -> n_id a = n_id b -> a = b.
Proof.
  induction rows as [|n rows IH]; cbn; [easy|].
  intros H Ha Hb E. apply NoDup_cons_iff in H as [Hn Hd].
  destruct Ha as [->|Ha], Hb as [->|Hb]; trivial.
  - exfalso. apply Hn. rewrite E. now apply in_map.
  - exfalso. apply Hn. rewrite <- E. now apply in_map.
  - now apply IH.
Qed.

Lemma selected_for_retry_eq w :
  selected_for_retry w = firstn 100 (filter retryable (notifications w)).
Proof. reflexivity. Qed.

Lemma selected_in_store w n :
  In n (selected_for_retry w) -> In n (notifications w) /\ retryable n = true.
Proof.
  rewrite selected_for_retry_eq. intros H. apply in_firstn in H.
  now apply filter_In in H.
Qed.

Lemma retry_update_selected w n :
  NoDup (map n_id (notifications w)) ->
  In n (notifications w) ->
  retry_update (selected_for_retry w) n
  = if id_in (selected_for_retry w) n then bump_retry n else n.
Proof.
  intros Hnd Hin. unfold retry_update, id_in.
  destruct (find (fun m => (n_id m =? n_id n)%nat) (selected_for_retry w))
    as [m|] eqn:Ef.
  - pose proof (find_some _ _ Ef) as [Hm Eid]. apply Nat.eqb_eq in Eid.
    assert (m = n).
    { apply (same_id_same_row (notifications w)); trivial.
      now apply selected_in_store. }
    subst m.
    assert (Ex : existsb (fun m => (n_id m =? n_id n)%nat) (selected_for_retry w)
                 = true).
    { apply existsb_exists. exists n. split; [exact Hm | apply Nat.eqb_refl]. }
    now rewrite Ex.
  - assert (Ex : existsb (fun m => (n_id m =? n_id n)%nat) (selected_for_retry w)
                 = false).
    { apply not_true_is_false. intros Ht. apply existsb_exists in Ht as (m & Hm & E).
      now rewrite (find_none _ _ Ef m Hm) in E. }
    now rewrite Ex.
Qed.

(** C3, as stated, fails on the ordering: the query has no ordering, the
    rows come in the order the store returns them; here the row that
    failed at 2000 is selected (and dispatched) before the row that failed
    at 1500. *)
Lemma retry_selection_not_oldest_first :
  map n_id (selected_for_retry retry_world) = [0%nat; 1%nat]
  /\ map n_failedAt (selected_for_retry retry_world) = [Some 2000; Some 1500]
  /\ oldest_first (selected_for_retry retry_world) = false.
Proof. repeat split; reflexivity. Qed.

(** C3, amended: the retry pass selects the first 100 (at most), in the
    order the store returns them, of the notifications with status FAILED
    and retryCount below 3; for each selected row it dispatches a
    notification with that row's attributes (a new row, and its job) and
    raises the retryCount of the selected row by exactly 1; no other
    stored row changes. *)
Theorem retryFailed_effect w :
  store_wf w ->
  exists w' news,
    retryFailedNotifications w = (Normal tt, w')
    /\ selected_for_retry w = firstn 100 (filter retryable (notifications w))
    /\ (List.length (selected_for_retry w) <= 100)%nat
    /\ Forall (fun n => n_status n = NotificationStatus.FAILED
                        /\ n_retryCount n < 3) (selected_for_retry w)
    /\ notifications w'
       = (map (fun n => if id_in (selected_for_retry w) n then bump_retry n else n)
              (notifications w) ++ news)%list
    /\ (forall n, n_retryCount (bump_retry n) = n_retryCount n + 1
                  /\ n_id (bump_retry n) = n_id n
                  /\ n_status (bump_retry n) = n_status n
                  /\ row_attributes (bump_retry n) = row_attributes n)
    /\ map row_attributes news = map row_attributes (selected_for_retry w)
    /\ Forall (fun n => n_status n = NotificationStatus.QUEUED
                        /\ n_retryCount n = 0) news
    /\ queued w' = (queued w ++ flat_map job_of_row news)%list.
Proof.
  intros [Hnd Hall].
  assert (Hsel : forall n, In n (selected_for_retry w) ->
                           In n (notifications w) /\ retryable n = true)
    by apply selected_in_store.
  destruct (retry_loop_spec (selected_for_retry w) w)
    as (w' & news & E & Hrows & Hattrs & Hnews & Hq).
  { rewrite selected_for_retry_eq.
    now apply NoDup_map_firstn, NoDup_map_filter. }
  { apply Forall_forall. intros n Hn. destruct (Hsel n Hn) as [Hin _].
    rewrite Forall_forall in Hall. destruct (Hall n Hin) as (H1 & H2 & H3).
    repeat split; trivial. now apply in_map. }
  exists w', news.
  split. { exact E. }
  split. { reflexivity. }
  split. { rewrite selected_for_retry_eq. apply firstn_le_length. }
  split. { apply Forall_forall. intros n Hn. destruct (Hsel n Hn) as [_ Hr].
           unfold retryable in Hr. apply andb_true_iff in Hr as [Hs Hc].
           apply String.eqb_eq in Hs. apply Z.ltb_lt in Hc. now split. }
  split. { rewrite Hrows. f_equal. apply map_ext_in. intros n Hn.
           now apply retry_update_selected. }
  split. { intros n. repeat split. }
  split. { exact Hattrs. }
  split. { eapply Forall_impl; [|exact Hnews]. now intros n (H1 & H2 & _). }
  exact Hq.
Qed.

Lemma retryFailed_effect_witness :
  exists w' news,
    retryFailedNotifications retry_world = (Normal tt, w')
    /\ map n_retryCount (notifications w') = [1; 3; 3; 0; 0]
    /\ map row_attributes news
       = map row_attributes [failed_row 0 0 2000; failed_row 1 2 1500].
Proof.
  destruct (retryFailed_effect retry_world)
    as (w' & news & E & _ & _ & _ & Hrows & _ & Hattrs & _).
  { split.
    - cbn. repeat constructor; cbn; intuition lia.
    - repeat constructor; cbn; try lia; discriminate. }
  exists w', news. split; [exact E|]. split; [|exact Hattrs].
  vm_compute in E. injection E as <-. reflexivity.
Defined.

(* ===================================================================== *)
(** * Bulk endpoint and producer: proofs *)
(* ===================================================================== *)

(** The chunks, put end to end, are the list: the loop neither drops nor
    repeats a notification, and its fuel is enough. *)
Lemma chunk_loop_concat {A} (size : nat) (l : list A) :
  (0 < size)%nat ->
  forall fuel i,
    (List.length l - i <= fuel)%nat ->
    List.concat (chunk_loop fuel size i l) = skipn i l.
Proof.
  intros Hsize. induction fuel as [|fuel IH]; intros i Hf.
  - cbn. symmetry. apply skipn_all2. lia.
  - cbn [chunk_loop]. destruct (Nat.ltb_spec i (List.length l)) as [Hi|Hi].
    + cbn [List.concat]. rewrite IH by lia.
      rewrite <- (firstn_skipn size (skipn i l)) at 2.
      f_equal. rewrite skipn_skipn. f_equal. lia.
    + cbn. symmetry. now apply skipn_all2.
Qed.

Lemma chunks_of_concat {A} (l : list A) : List.concat (chunks_of l) = l.
Proof.
  unfold chunks_of. rewrite chunk_loop_concat.
  - reflexivity.
  - unfold chunkSize. lia.
  - lia.
Qed.

Lemma send_chunks_spec batchId total totalChunks :
  forall chunks index w,
  exists msgs r',
    send_chunks batchId total totalChunks index chunks w
    = (Normal tt, set_reads (set_produced w (produced w ++ msgs)) r')
    /\ map (fun m => bp_bulkNotifications (km_value m)) msgs = chunks
    /\ Forall (fun m => km_topic m = "notification.bulk") msgs.
Proof.
  induction chunks as [|chunk rest IH]; intros index w.
  - exists [], (reads w). cbn. rewrite app_nil_r. repeat split; trivial.
    now destruct w.
  - cbn [send_chunks].
    cbv beta iota zeta delta [bind Date_now].
    match goal with |- context [send_chunks _ _ _ _ rest ?x] =>
      destruct (IH (index + 1) x) as (msgs & r' & E & Hm & Ht); rewrite E end.
    eexists (_ :: msgs), r'. split.
    + world_simpl. unfold set_reads, set_produced. cbn.
      rewrite <- app_assoc. reflexivity.
    + split; [cbn; now rewrite Hm | constructor; [reflexivity|exact Ht]].
Qed.

Lemma producer_spec notifications w :
  exists msgs r',
    producer_sendBulkNotifications notifications None w
    = (Normal tt, set_reads (set_produced w (produced w ++ msgs)) r')
    /\ forwarded msgs = notifications
    /\ Forall (fun m => km_topic m = "notification.bulk") msgs.
Proof.
  cbv beta iota zeta delta [producer_sendBulkNotifications bind Date_now ret].
  match goal with |- context [send_chunks ?b ?t ?tc ?i ?c ?x] =>
    destruct (send_chunks_spec b t tc c i x) as (msgs & r' & E & Hm & Ht);
    rewrite E end.
  exists msgs. eexists. split; [reflexivity|].
  split; [|exact Ht]. unfold forwarded. rewrite Hm. apply chunks_of_concat.
Qed.

(** C8: the admin bulk endpoint answers 400 to a payload without
    notifications or with none, and to a payload with more than 10 000 of
    them, and forwards nothing; a payload of 1 to 10 000 notifications is
    accepted and every one of them is forwarded, in order, on the bulk
    topic. *)
Theorem bulk_endpoint_guard w :
  sendBulkNotifications None w
  = (Throw (HttpException "No notifications provided" 400), w)
  /\ sendBulkNotifications (Some []) w
     = (Throw (HttpException "No notifications provided" 400), w)
  /\ (forall l, 10000 < js_length l ->
        sendBulkNotifications (Some l) w
        = (Throw (HttpException
                    "Too many notifications. Maximum 10,000 per request." 400), w))
  /\ (forall l, 1 <= js_length l <= 10000 ->
        exists response w' msgs,
          sendBulkNotifications (Some l) w = (Normal response, w')
          /\ br_success response = true
          /\ produced w' = (produced w ++ msgs)%list
          /\ forwarded msgs = l
          /\ Forall (fun m => km_topic m = "notification.bulk") msgs).
Proof.
  split; [reflexivity|]. split; [reflexivity|]. split.
  - intros l Hl. unfold sendBulkNotifications.
    destruct (Z.eqb_spec (js_length l) 0) as [E|E]; [lia|].
    destruct (Z.gtb_spec (js_length l) 10000) as [G|G]; [reflexivity|lia].
  - intros l Hl. unfold sendBulkNotifications.
    destruct (Z.eqb_spec (js_length l) 0) as [E|E]; [lia|].
    destruct (Z.gtb_spec (js_length l) 10000) as [G|G]; [lia|].
    destruct (producer_spec l w) as (msgs & r' & Ep & Hf & Ht).
    cbv beta iota zeta delta [bind Date_now ret]. rewrite Ep.
    eexists. eexists. exists msgs. split; [reflexivity|].
    world_simpl. repeat split; trivial.
Qed.

Lemma bulk_endpoint_guard_witness :
  sendBulkNotifications (Some too_many) u2_world
  = (Throw (HttpException
              "Too many notifications. Maximum 10,000 per request." 400), u2_world)
  /\ exists response w' msgs,
       sendBulkNotifications (Some [welcome_dto]) u2_world = (Normal response, w')
       /\ br_success response = true
       /\ produced w' = (produced u2_world ++ msgs)%list
       /\ forwarded msgs = [welcome_dto]
       /\ Forall (fun m => km_topic m = "notification.bulk") msgs.
Proof.
  destruct (bulk_endpoint_guard u2_world) as (_ & _ & Hmany & Hok).
  split.
  - apply Hmany. vm_compute. reflexivity.
  - apply Hok. vm_compute. split; discriminate.
Defined.

(* ===================================================================== *)
(** * Channel workers: proofs *)
(* ===================================================================== *)

Lemma recognised_type_not_channel type :
  str_mem type NotificationType.all = true ->
  (type =? "EMAIL")%string = false
  /\ (type =? "PUSH")%string = false
  /\ (type =? "SMS")%string = false.
Proof.
  unfold str_mem, NotificationType.all. cbn [existsb].
  intros H.
  repeat match type of H with
         | (_ || _)%bool = true => apply orb_true_iff in H as [H|H]
         end;
    try discriminate; apply String.eqb_eq in H; subst; repeat split.
Qed.

(** With templates stored under notification types, nothing is found
    under a channel name. *)
Lemma findFirst_channel_as_type w channel :
  Forall (fun t => str_mem (tpl_type t) NotificationType.all = true)
         (notificationTemplates w) ->
  str_mem channel ["EMAIL"; "PUSH"; "SMS"] = true ->
  findFirst_template channel channel w = (Normal None, w).
Proof.
  intros Hall Hc. unfold findFirst_template. f_equal. f_equal.
  induction (notificationTemplates w) as [|t l IH]; [reflexivity|].
  apply Forall_cons_iff in Hall as [Ht Hl]. cbn [find].
  destruct (recognised_type_not_channel _ Ht) as (He & Hp & Hs).
  assert (E : (tpl_type t =? channel)%string = false).
  { unfold str_mem in Hc. cbn [existsb] in Hc.
    repeat (apply orb_true_iff in Hc as [Hc|Hc]);
      try discriminate; apply String.eqb_eq in Hc; subst; trivial. }
  rewrite E. cbn. now apply IH.
Qed.

Lemma getNotificationTemplate_channel_as_type w channel :
  own_get (cache w) (channel ++ ":" ++ channel) = None ->
  Forall (fun t => str_mem (tpl_type t) NotificationType.all = true)
         (notificationTemplates w) ->
  str_mem channel ["EMAIL"; "PUSH"; "SMS"] = true ->
  getNotificationTemplate channel channel w = (Normal None, w).
Proof.
  intros Hc Hall Hch.
  cbv beta iota zeta delta [getNotificationTemplate bind getCached cache_get ret].
  rewrite Hc.
  now rewrite (findFirst_channel_as_type w channel Hall Hch).
Qed.

(** With no cache entry under the three keys the workers use, and every
    template stored under a notification type, the workers always send
    the raw title and message of the job: the lookup key pairs the channel
    with itself and matches no template (and the cache stays as it is). *)
Lemma workers_send_raw_fields w job :
  own_get (cache w) "EMAIL:EMAIL" = None ->
  own_get (cache w) "PUSH:PUSH" = None ->
  own_get (cache w) "SMS:SMS" = None ->
  Forall (fun t => str_mem (tpl_type t) NotificationType.all = true)
         (notificationTemplates w) ->
  sendEmail_content job w = (Normal (Some (jd_title job, jd_message job)), w)
  /\ sendPush_content job w = (Normal (Some (jd_title job, jd_message job)), w)
  /\ sendSMS_content job w = (Normal (Some (jd_title job, jd_message job)), w).
Proof.
  intros He Hp Hs Hall.
  unfold sendEmail_content, sendPush_content, sendSMS_content.
  unfold bind.
  rewrite (getNotificationTemplate_channel_as_type w "EMAIL" He Hall eq_refl).
  rewrite (getNotificationTemplate_channel_as_type w "PUSH" Hp Hall eq_refl).
  rewrite (getNotificationTemplate_channel_as_type w "SMS" Hs Hall eq_refl).
  repeat split.
Qed.

(** When the lookup does return a template, it is rendered with
    [{ title, message, ...metadata }], and the email body is the rendered
    htmlContent if there is a non-empty one, the rendered message
    otherwise. *)
Lemma sendEmail_content_with_template w w' job t rendered :
  getNotificationTemplate "EMAIL" "EMAIL" w = (Normal (Some t), w') ->
  render t (template_variables job) = Some rendered ->
  sendEmail_content job w
  = (Normal (Some (title rendered, html_or_message rendered)), w').
Proof.
  intros E R. unfold sendEmail_content, bind, renderTemplate.
  now rewrite E, R.
Qed.

(** C2, at the failing input: the job belongs to a WELCOME notification
    sent by email, and the store holds the active template of (WELCOME,
    EMAIL); the email worker asks for the template of ("EMAIL", "EMAIL"),
    finds none, and sends the raw title and message, where the claim has
    the rendered template (with its htmlContent as the body). *)
Theorem sendEmail_skips_type_template :
  option_map (fun n => (n_type n, n_channel n))
             (find_notification (jd_notificationId welcome_job)
                                (notifications worker_world))
  = Some ("WELCOME", "EMAIL")
  /\ (exists t,
        fst (findFirst_template "WELCOME" "EMAIL" worker_world) = Normal (Some t)
        /\ option_map (fun r => (title r, html_or_message r))
                      (render t (template_variables welcome_job))
           = Some ("Welcome, Welcome!", "<p>Hi Ada</p>"))
  /\ sendEmail_content welcome_job worker_world
     = (Normal (Some ("Welcome!", "Hi Ada")), worker_world).
Proof.
  split; [reflexivity|]. split; [eexists; split; reflexivity|].
  repeat split; reflexivity.
Qed.

(* ===================================================================== *)
(** * Template cache: proofs *)
(* ===================================================================== *)

Lemma own_get_obj_set_eq {A} (o : JsObject A) k a :
  own_get (obj_set o k a) k = Some a.
Proof.
  induction o as [|[k' a'] o IH]; cbn.
  - now rewrite String.eqb_refl.
  - destruct (String.eqb_spec k' k) as [E|E]; cbn.
    + now rewrite String.eqb_refl.
    + destruct (String.eqb_spec k' k); [contradiction|exact IH].
Qed.

Lemma own_get_obj_set_ne {A} (o : JsObject A) k k' a :
  k <> k' -> own_get (obj_set o k a) k' = own_get o k'.
Proof.
  intros Hne. induction o as [|[k0 a0] o IH]; cbn.
  - destruct (String.eqb_spec k k'); [contradiction|reflexivity].
  - destruct (String.eqb_spec k0 k) as [E|E]; cbn.
    + subst. destruct (String.eqb_spec k k'); [contradiction|reflexivity].
    + destruct (String.eqb_spec k0 k'); [reflexivity|exact IH].
Qed.

Lemma own_get_none_keys {A} (o : JsObject A) k :
  own_get o k = None <-> ~ In k (map fst o).
Proof.
  induction o as [|[k' a] o IH]; cbn.
  - split; [intros _ []|reflexivity].
  - destruct (String.eqb_spec k' k) as [E|E].
    + split; [discriminate|]. intros H. exfalso. apply H. now left.
    + rewrite IH. split.
      * intros H [E'|Hin]; [contradiction|now apply H].
      * intros H Hin. apply H. now right.
Qed.

Lemma obj_delete_keys {A} (o : JsObject A) k :
  NoDup (map fst o) ->
  map fst (obj_delete o k) = filter (fun x => negb (x =? k)%string) (map fst o).
Proof.
  induction o as [|[k' a] o IH]; cbn; [reflexivity|].
  intros H. apply NoDup_cons_iff in H as [Hn Hd].
  destruct (String.eqb_spec k' k) as [E|E]; cbn.
  - subst. symmetry. clear IH Hd.
    induction (map fst o) as [|x l IHl]; [reflexivity|]. cbn.
    destruct (String.eqb_spec x k) as [Ex|Ex]; cbn.
    + exfalso. apply Hn. now left.
    + f_equal. apply IHl. intros Hin. apply Hn. now right.
  - f_equal. now apply IH.
Qed.

Lemma obj_delete_length {A} (o : JsObject A) k :
  (List.length (obj_delete o k) <= List.length o)%nat.
Proof.
  induction o as [|[k' a] o IH]; cbn; [lia|].
  destruct (k' =? k)%string; cbn; lia.
Qed.

Lemma obj_set_length {A} (o : JsObject A) k a :
  (List.length (obj_set o k a) <= S (List.length o))%nat.
Proof.
  induction o as [|[k' a'] o IH]; cbn; [lia|].
  destruct (k' =? k)%string; cbn; lia.
Qed.

Lemma obj_set_keys_absent {A} (o : JsObject A) k a :
  ~ In k (map fst o) -> map fst (obj_set o k a) = (map fst o ++ [k])%list.
Proof.
  induction o as [|[k' a'] o IH]; cbn; [reflexivity|].
  intros H. destruct (String.eqb_spec k' k) as [E|E].
  - exfalso. apply H. now left.
  - cbn. f_equal. apply IH. intros Hin. apply H. now right.
Qed.

Lemma obj_set_keys_present {A} (o : JsObject A) k a :
  In k (map fst o) -> map fst (obj_set o k a) = map fst o.
Proof.
  induction o as [|[k' a'] o IH]; cbn; [easy|].
  intros H. destruct (String.eqb_spec k' k) as [E|E]; cbn.
  - now subst.
  - f_equal. apply IH. destruct H; [contradiction|assumption].
Qed.

Lemma filter_ne_not_in k (l : list string) :
  ~ In k (filter (fun x => negb (x =? k)%string) l).
Proof.
  intros H. apply filter_In in H as [_ H].
  now rewrite String.eqb_refl in H.
Qed.

Lemma filter_ne_absent k (l : list string) :
  ~ In k l -> filter (fun x => negb (x =? k)%string) l = l.
Proof.
  induction l as [|x l IH]; cbn; [reflexivity|].
  intros H. destruct (String.eqb_spec x k) as [E|E]; cbn.
  - exfalso. apply H. now left.
  - f_equal. apply IH. intros Hin. apply H. now right.
Qed.

Lemma NoDup_filter {A} (p : A -> bool) (l : list A) :
  NoDup l -> NoDup (filter p l).
Proof.
  induction l as [|a l IH]; cbn; [trivial|].
  intros H. apply NoDup_cons_iff in H as [Hn Hd].
  destruct (p a); [|now apply IH].
  constructor; [|now apply IH].
  intros Hin. apply Hn. now apply filter_In in Hin as [Hin _].
Qed.

(** What a lookup that finds an entry does, in full. *)
Lemma getCached_found w key entry :
  own_get (cache w) key = Some entry ->
  getCached key w
  = if clock w (reads w) - ce_timestamp entry >? ttlMs then
      (Normal None,
       set_cache (set_reads w (S (reads w))) (obj_delete (cache w) key))
    else
      (Normal (Some (ce_value entry)),
       set_cache (set_reads w (S (S (reads w))))
         (obj_set (obj_delete (cache w) key) key
            {| ce_value := ce_value entry;
               ce_timestamp := clock w (S (reads w)) |})).
Proof.
  intros H.
  cbv beta iota zeta delta [getCached bind cache_get ret Date_now cache_delete
                              cache_set].
  rewrite H. world_simpl.
  destruct (clock w (reads w) - ce_timestamp entry >? ttlMs); reflexivity.
Qed.

Lemma getCached_missing w key :
  own_get (cache w) key = None -> getCached key w = (Normal None, w).
Proof.
  intros H. cbv beta iota zeta delta [getCached bind cache_get ret].
  now rewrite H.
Qed.

Lemma setCached_run w key value :
  setCached key value w
  = (Normal tt,
     set_cache (set_reads w (S (reads w)))
       (obj_set (if js_length (cache w) >=? maxSize
                 then match cache w with
                      | [] => cache w
                      | (oldest, _) :: _ => obj_delete (cache w) oldest
                      end
                 else cache w)
                key {| ce_value := value; ce_timestamp := clock w (reads w) |})).
Proof.
  cbv beta iota zeta delta [setCached bind cache_size cache_first_key ret
                              Date_now cache_delete cache_set].
  destruct (js_length (cache w) >=? maxSize); [|reflexivity].
  destruct (cache w) as [|[k e] c] eqn:E; world_simpl; rewrite ?E; reflexivity.
Qed.

Lemma strings_nodupb_sound l : strings_nodupb l = true -> NoDup l.
Proof.
  induction l as [|x l IH]; cbn; [constructor|].
  intros H. apply andb_true_iff in H as [Hx Hl]. constructor; [|now apply IH].
  intros Hin. apply negb_true_iff in Hx.
  assert (str_mem x l = true); [|congruence].
  unfold str_mem. apply existsb_exists. exists x. split; [exact Hin|].
  apply String.eqb_refl.
Qed.

Lemma obj_delete_NoDup {A} (o : JsObject A) k :
  NoDup (map fst o) -> NoDup (map fst (obj_delete o k)).
Proof. intros H. rewrite obj_delete_keys by exact H. now apply NoDup_filter. Qed.

Lemma obj_set_NoDup {A} (o : JsObject A) k a :
  NoDup (map fst o) -> NoDup (map fst (obj_set o k a)).
Proof.
  intros H. destruct (in_dec string_dec k (map fst o)) as [Hin|Hin].
  - now rewrite obj_set_keys_present.
  - rewrite obj_set_keys_absent by exact Hin.
    apply NoDup_app; [exact H | repeat constructor; easy |].
    intros x Hx [<-|[]]. contradiction.
Qed.

Lemma own_get_obj_delete_eq {A} (o : JsObject A) k :
  NoDup (map fst o) -> own_get (obj_delete o k) k = None.
Proof.
  intros H. apply own_get_none_keys. rewrite obj_delete_keys by exact H.
  apply filter_ne_not_in.
Qed.

(** X1: what [setCached] stores, [getCached] returns, as long as no more
    than the time to live (5 minutes) has passed between the two. *)
Theorem cache_round_trip w key value :
  clock w (S (reads w)) - clock w (reads w) <= ttlMs ->
  fst (getCached key (snd (setCached key value w))) = Normal (Some value).
Proof.
  intros Hfresh. rewrite setCached_run. cbn [snd].
  erewrite getCached_found.
  2:{ world_simpl. apply own_get_obj_set_eq. }
  world_simpl. cbn [ce_timestamp ce_value].
  destruct (Z.gtb_spec (clock w (S (reads w)) - clock w (reads w)) ttlMs);
    [lia|reflexivity].
Qed.

Lemma cache_round_trip_witness :
  fst (getCached "WELCOME:EMAIL"
         (snd (setCached "WELCOME:EMAIL" greeting worker_world)))
  = Normal (Some greeting).
Proof.
  apply (cache_round_trip worker_world "WELCOME:EMAIL" greeting).
  vm_compute. discriminate.
Defined.

(** X2: an entry read more than 5 minutes after it was stored is not
    returned; the lookup answers null and removes the entry. *)
Theorem cache_entry_expires w key value :
  cache_wf w ->
  clock w (S (reads w)) - clock w (reads w) > ttlMs ->
  fst (getCached key (snd (setCached key value w))) = Normal None
  /\ own_get (cache (snd (getCached key (snd (setCached key value w))))) key
     = None.
Proof.
  intros Hwf Hold. rewrite setCached_run. cbn [snd].
  erewrite getCached_found.
  2:{ world_simpl. apply own_get_obj_set_eq. }
  world_simpl. cbn [ce_timestamp ce_value].
  destruct (Z.gtb_spec (clock w (S (reads w)) - clock w (reads w)) ttlMs);
    [|lia].
  split; [reflexivity|]. world_simpl. cbn [snd]. world_simpl.
  apply own_get_obj_delete_eq. apply obj_set_NoDup.
  unfold cache_wf, cache_keys in Hwf.
  destruct (js_length (cache w) >=? maxSize); [|exact Hwf].
  destruct (cache w) as [|[k0 e0] c]; [exact Hwf|].
  now apply obj_delete_NoDup.
Qed.

Lemma cache_entry_expires_witness :
  fst (getCached "WELCOME:EMAIL"
         (snd (setCached "WELCOME:EMAIL" greeting slow_world)))
  = Normal None
  /\ own_get (cache (snd (getCached "WELCOME:EMAIL"
                             (snd (setCached "WELCOME:EMAIL" greeting slow_world)))))
             "WELCOME:EMAIL"
     = None.
Proof.
  apply (cache_entry_expires slow_world "WELCOME:EMAIL" greeting).
  - constructor.
  - vm_compute. reflexivity.
Defined.

(** X3: a hit makes the entry the most recently used one (it moves to the
    end of the eviction order, the other keys keep their order) and
    restarts its time to live from the moment of the hit. *)
Theorem cache_hit_refreshes w key entry :
  cache_wf w ->
  own_get (cache w) key = Some entry ->
  clock w (reads w) - ce_timestamp entry <= ttlMs ->
  fst (getCached key w) = Normal (Some (ce_value entry))
  /\ cache_keys (snd (getCached key w))
     = (filter (fun k => negb (k =? key)%string) (cache_keys w) ++ [key])%list
  /\ own_get (cache (snd (getCached key w))) key
     = Some {| ce_value := ce_value entry;
               ce_timestamp := clock w (S (reads w)) |}
  /\ cache_wf (snd (getCached key w)).
Proof.
  intros Hwf Hget Hfresh. rewrite (getCached_found w key entry Hget).
  destruct (Z.gtb_spec (clock w (reads w) - ce_timestamp entry) ttlMs); [lia|].
  cbn [fst snd]. unfold cache_wf, cache_keys in *. world_simpl.
  assert (Hnot : ~ In key (map fst (obj_delete (cache w) key))).
  { rewrite obj_delete_keys by exact Hwf. apply filter_ne_not_in. }
  split; [reflexivity|]. split.
  - rewrite obj_set_keys_absent by exact Hnot. now rewrite obj_delete_keys.
  - split; [apply own_get_obj_set_eq|].
    now apply obj_set_NoDup, obj_delete_NoDup.
Qed.

Lemma cache_hit_refreshes_witness :
  fst (getCached "a" abc_world) = Normal (Some greeting)
  /\ cache_keys (snd (getCached "a" abc_world)) = ["b"; "c"; "a"].
Proof.
  destruct (cache_hit_refreshes abc_world "a"
              {| ce_value := greeting; ce_timestamp := 4000 |})
    as (H1 & H2 & _).
  - unfold cache_wf. apply strings_nodupb_sound. reflexivity.
  - reflexivity.
  - vm_compute. discriminate.
  - split; [exact H1|]. rewrite H2. reflexivity.
Defined.

(** X4: the cache never grows beyond its capacity of 500 entries: neither
    [setCached] nor [getCached] takes a cache within the bound out of
    it. *)
Theorem cache_capacity_kept w key value :
  js_length (cache w) <= maxSize ->
  js_length (cache (snd (setCached key value w))) <= maxSize
  /\ js_length (cache (snd (getCached key w))) <= maxSize.
Proof.
  unfold js_length, maxSize. intros Hle. split.
  - rewrite setCached_run. cbn [snd]. world_simpl.
    match goal with |- context [obj_set ?c key ?e] =>
      pose proof (obj_set_length c key e) as Hs; revert Hs end.
    unfold js_length, maxSize.
    destruct (Z.geb_spec (Z.of_nat (List.length (cache w))) 500) as [Hfull|Hroom].
    + destruct (cache w) as [|[k0 e0] c] eqn:E; [cbn in *; lia|].
      cbn [obj_delete]. rewrite String.eqb_refl. cbn [List.length] in Hle. lia.
    + lia.
  - destruct (own_get (cache w) key) as [entry|] eqn:Hget.
    + rewrite (getCached_found w key entry Hget).
      pose proof (obj_delete_length (cache w) key) as Hd.
      destruct (_ >? ttlMs); cbn [snd]; world_simpl; [lia|].
      (* re-inserted after the delete: the key was there, one entry left *)
      assert (Hlt : (List.length (obj_delete (cache w) key)
                     < List.length (cache w))%nat).
      { clear -Hget. induction (cache w) as [|[k e] c IH]; cbn in *; [discriminate|].
        destruct (k =? key)%string; cbn; [lia|]. specialize (IH Hget). lia. }
      match goal with |- context [obj_set ?c key ?e] =>
        pose proof (obj_set_length c key e) end. lia.
    + now rewrite (getCached_missing w key Hget).
Qed.

Lemma cache_capacity_kept_witness :
  js_length (cache (snd (setCached "new" greeting full_cache_world))) <= maxSize
  /\ js_length (cache (snd (getCached "new" full_cache_world))) <= maxSize.
Proof.
  apply (cache_capacity_kept full_cache_world "new" greeting).
  vm_compute. discriminate.
Defined.

(** X5: storing under a new key in a full cache evicts exactly the
    oldest entry (the least recently used one), keeps all the others in
    order and puts the new key last. *)
Theorem cache_evicts_oldest w key value oldest e0 rest :
  cache_wf w ->
  cache w = (oldest, e0) :: rest ->
  js_length (cache w) >= maxSize ->
  ~ In key (cache_keys w) ->
  cache_keys (snd (setCached key value w)) = (map fst rest ++ [key])%list
  /\ own_get (cache (snd (setCached key value w))) oldest = None
  /\ own_get (cache (snd (setCached key value w))) key
     = Some {| ce_value := value; ce_timestamp := clock w (reads w) |}
  /\ (forall k, k <> oldest -> k <> key ->
        own_get (cache (snd (setCached key value w))) k = own_get (cache w) k).
Proof.
  intros Hwf Hc Hfull Hnew. rewrite setCached_run. cbn [snd].
  unfold cache_wf, cache_keys in *. world_simpl.
  destruct (Z.geb_spec (js_length (cache w)) maxSize) as [_|Hlt]; [|lia].
  rewrite Hc in *. cbn [obj_delete]. rewrite String.eqb_refl.
  cbn [map fst] in Hwf, Hnew. apply NoDup_cons_iff in Hwf as [Hold Hnd].
  assert (Hkey_rest : ~ In key (map fst rest)) by (intros H; apply Hnew; now right).
  assert (Hne : oldest <> key) by (intros ->; apply Hnew; now left).
  split; [now apply obj_set_keys_absent|].
  split.
  { rewrite own_get_obj_set_ne by congruence. now apply own_get_none_keys. }
  split; [apply own_get_obj_set_eq|].
  intros k Hk1 Hk2. rewrite own_get_obj_set_ne by congruence.
  cbn [own_get]. destruct (String.eqb_spec oldest k); [congruence|reflexivity].
Qed.

Lemma cache_evicts_oldest_witness :
  own_get (cache (snd (setCached "new" greeting full_cache_world))) "k0" = None
  /\ own_get (cache (snd (setCached "new" greeting full_cache_world))) "k1"
     = own_get (cache full_cache_world) "k1".
Proof.
  destruct (cache_evicts_oldest full_cache_world "new" greeting "k0"
              {| ce_value := greeting; ce_timestamp := 0 |}
              (tl (cache full_cache_world)))
    as (_ & H0 & _ & Hk).
  - unfold cache_wf. apply strings_nodupb_sound. vm_compute. reflexivity.
  - vm_compute. reflexivity.
  - vm_compute. discriminate.
  - apply (proj1 (own_get_none_keys (cache full_cache_world) "new")).
    vm_compute. reflexivity.
  - split; [exact H0 | apply Hk; discriminate].
Defined.

(* ===================================================================== *)
(** * Channel service: proofs *)
(* ===================================================================== *)

Lemma getNotificationTemplate_cold w type channel :
  own_get (cache w) (type ++ ":" ++ channel) = None ->
  getNotificationTemplate type channel w
  = match find (fun t => (tpl_type t =? type)%string
                         && (tpl_channel t =? channel)%string
                         && tpl_isActive t) (notificationTemplates w) with
    | Some t => (Normal (Some t), snd (setCached (type ++ ":" ++ channel) t w))
    | None => (Normal None, w)
    end.
Proof.
  intros H.
  cbv beta iota zeta delta [getNotificationTemplate bind].
  rewrite (getCached_missing w _ H). unfold findFirst_template.
  destruct (find _ (notificationTemplates w)) as [t|]; [|reflexivity].
  rewrite setCached_run. reflexivity.
Qed.

(** X6: on a cache miss the lookup returns the first active template of
    the store with that type and channel and puts it in the cache under
    "type:channel"; when the store has none it returns null and caches
    nothing, so that the next lookup asks the store again. *)
Theorem template_lookup_on_miss w type channel :
  own_get (cache w) (type ++ ":" ++ channel) = None ->
  (forall t,
      fst (getNotificationTemplate type channel w) = Normal (Some t) ->
      In t (notificationTemplates w)
      /\ tpl_type t = type /\ tpl_channel t = channel /\ tpl_isActive t = true
      /\ own_get (cache (snd (getNotificationTemplate type channel w)))
                 (type ++ ":" ++ channel)
         = Some {| ce_value := t; ce_timestamp := clock w (reads w) |})
  /\ (fst (getNotificationTemplate type channel w) = Normal None ->
      snd (getNotificationTemplate type channel w) = w
      /\ forall t, In t (notificationTemplates w) ->
                   tpl_type t = type -> tpl_channel t = channel ->
                   tpl_isActive t = false)
  /\ (exists r, fst (getNotificationTemplate type channel w) = Normal r).
Proof.
  intros Hmiss. rewrite (getNotificationTemplate_cold w type channel Hmiss).
  destruct (find _ (notificationTemplates w)) as [t0|] eqn:Ef.
  - split; [|split; [discriminate | now eexists]].
    intros t [= <-]. apply find_some in Ef as [Hin Hp].
    apply andb_true_iff in Hp as [Hp Ha]. apply andb_true_iff in Hp as [Ht Hc].
    apply String.eqb_eq in Ht, Hc.
    repeat split; trivial.
    rewrite setCached_run. cbn [snd]. world_simpl. apply own_get_obj_set_eq.
  - split; [discriminate|]. split; [|now eexists].
    intros _. split; [reflexivity|].
    intros t Hin Ht Hc. pose proof (find_none _ _ Ef t Hin) as Hp. cbn beta in Hp.
    rewrite Ht, Hc, !String.eqb_refl in Hp. exact Hp.
Qed.

Lemma template_lookup_on_miss_witness :
  fst (getNotificationTemplate "WELCOME" "EMAIL" worker_world)
  = Normal (nth_error (notificationTemplates worker_world) 0)
  /\ own_get (cache (snd (getNotificationTemplate "WELCOME" "EMAIL" worker_world)))
             "WELCOME:EMAIL"
     <> None.
Proof.
  destruct (template_lookup_on_miss worker_world "WELCOME" "EMAIL" eq_refl)
    as (Hsome & _ & _).
  split; [reflexivity|].
  destruct (Hsome _ eq_refl) as (_ & _ & _ & _ & Hc).
  change ("WELCOME" ++ ":" ++ "EMAIL") with "WELCOME:EMAIL" in Hc.
  rewrite Hc. discriminate.
Defined.

(** X7: once a template is cached it is served from the cache for as long
    as the entry is fresh, whatever the store holds by then: a template
    that was deactivated, changed or deleted in the store is still
    returned. *)
Theorem template_served_from_cache w type channel t templates' :
  own_get (cache w) (type ++ ":" ++ channel) = None ->
  fst (getNotificationTemplate type channel w) = Normal (Some t) ->
  clock w (S (reads w)) - clock w (reads w) <= ttlMs ->
  fst (getNotificationTemplate type channel
         (set_notificationTemplates
            (snd (getNotificationTemplate type channel w)) templates'))
  = Normal (Some t).
Proof.
  intros Hmiss Hfound Hfresh.
  rewrite (getNotificationTemplate_cold w type channel Hmiss) in *.
  destruct (find _ (notificationTemplates w)) as [t0|]; [|discriminate].
  injection Hfound as ->. cbn [snd]. rewrite setCached_run. cbn [snd].
  cbv beta iota zeta delta [getNotificationTemplate bind].
  erewrite getCached_found.
  2:{ world_simpl. cbn [cache set_notificationTemplates]. apply own_get_obj_set_eq. }
  cbn [cache set_notificationTemplates clock reads]. world_simpl.
  cbn [ce_timestamp ce_value].
  destruct (Z.gtb_spec (clock w (S (reads w)) - clock w (reads w)) ttlMs);
    [lia|reflexivity].
Qed.

Lemma template_served_from_cache_witness :
  fst (getNotificationTemplate "WELCOME" "EMAIL"
         (set_notificationTemplates
            (snd (getNotificationTemplate "WELCOME" "EMAIL" worker_world)) []))
  = Normal (nth_error (notificationTemplates worker_world) 0).
Proof.
  apply (template_served_from_cache worker_world "WELCOME" "EMAIL").
  - reflexivity.
  - reflexivity.
  - vm_compute. discriminate.
Defined.

Lemma pair_eqb_spec (a b x y : string) :
  ((a =? x)%string && (b =? y)%string = true) <-> (a, b) = (x, y).
Proof.
  rewrite andb_true_iff, !String.eqb_eq. split.
  - now intros [-> ->].
  - now intros [= -> ->].
Qed.

Lemma string_pair_dec (a b : string * string) : {a = b} + {a <> b}.
Proof. decide equality; apply string_dec. Qed.

Lemma upsert_preference_absent rows userId channel enabled :
  ~ In (userId, channel) (map pref_key rows) ->
  upsert_preference rows userId channel enabled
  = (rows ++ [ {| up_userId := userId; up_channel := channel;
                  up_isEnabled := enabled |} ])%list.
Proof.
  induction rows as [|r rows IH]; cbn; [reflexivity|].
  intros H.
  destruct ((up_userId r =? userId)%string && (up_channel r =? channel)%string)
    eqn:E.
  - exfalso. apply H. left. now apply pair_eqb_spec.
  - f_equal. apply IH. intros Hin. apply H. now right.
Qed.

Lemma upsert_preference_keys_present rows userId channel enabled :
  In (userId, channel) (map pref_key rows) ->
  map pref_key (upsert_preference rows userId channel enabled)
  = map pref_key rows.
Proof.
  induction rows as [|r rows IH]; cbn; [easy|].
  intros H.
  destruct ((up_userId r =? userId)%string && (up_channel r =? channel)%string)
    eqn:E; cbn.
  - reflexivity.
  - f_equal. apply IH. destruct H as [H|H]; [|exact H].
    apply pair_eqb_spec in H. congruence.
Qed.

Lemma upsert_preference_unique rows userId channel enabled :
  NoDup (map pref_key rows) ->
  NoDup (map pref_key (upsert_preference rows userId channel enabled)).
Proof.
  intros H.
  destruct (in_dec string_pair_dec (userId, channel) (map pref_key rows))
    as [Hin|Hin].
  - now rewrite upsert_preference_keys_present.
  - rewrite upsert_preference_absent by exact Hin. rewrite map_app.
    apply NoDup_app; [exact H | repeat constructor; easy |].
    intros x Hx [<-|[]]. contradiction.
Qed.

Lemma rows_of_key_absent rows userId channel :
  ~ In (userId, channel) (map pref_key rows) ->
  rows_of_key rows userId channel = [].
Proof.
  induction rows as [|r rows IH]; cbn; [reflexivity|].
  intros H.
  destruct ((up_userId r =? userId)%string && (up_channel r =? channel)%string)
    eqn:E.
  - exfalso. apply H. left. now apply pair_eqb_spec.
  - apply IH. intros Hin. apply H. now right.
Qed.

Lemma rows_of_key_upsert rows userId channel enabled :
  NoDup (map pref_key rows) ->
  rows_of_key (upsert_preference rows userId channel enabled) userId channel
  = [ {| up_userId := userId; up_channel := channel; up_isEnabled := enabled |} ].
Proof.
  induction rows as [|r rows IH]; cbn.
  - intros _. now rewrite !String.eqb_refl.
  - intros H. apply NoDup_cons_iff in H as [Hn Hd].
    destruct ((up_userId r =? userId)%string && (up_channel r =? channel)%string)
      eqn:E; cbn; rewrite E.
    + pose proof (proj1 (pair_eqb_spec _ _ _ _) E) as Ek.
      injection Ek as Eu Ec. rewrite Eu, Ec. f_equal.
      apply rows_of_key_absent. unfold pref_key in Hn at 1. now rewrite Eu, Ec in Hn.
    + now apply IH.
Qed.

Lemma upsert_preference_others rows userId channel enabled r :
  pref_key r <> (userId, channel) ->
  (In r (upsert_preference rows userId channel enabled) <-> In r rows).
Proof.
  intros Hk. induction rows as [|r0 rows IH]; cbn.
  - split; [|easy]. intros [<-|[]]. now contradiction Hk.
  - destruct ((up_userId r0 =? userId)%string && (up_channel r0 =? channel)%string)
      eqn:E; cbn.
    + apply pair_eqb_spec in E. split.
      * intros [<-|H]; [|now right]. now contradiction Hk.
      * intros [<-|H]; [|now right]. now contradiction Hk.
    + rewrite IH. reflexivity.
Qed.

Lemma upsert_preference_twice rows userId channel e1 e2 :
  upsert_preference (upsert_preference rows userId channel e1) userId channel e2
  = upsert_preference rows userId channel e2.
Proof.
  induction rows as [|r rows IH]; cbn.
  - now rewrite !String.eqb_refl.
  - destruct ((up_userId r =? userId)%string && (up_channel r =? channel)%string)
      eqn:E; cbn; rewrite E; [reflexivity|]. now rewrite IH.
Qed.

Lemma filter_channel_of_user rows userId channel :
  filter (fun r => (up_channel r =? channel)%string)
         (filter (fun p => (up_userId p =? userId)%string) rows)
  = rows_of_key rows userId channel.
Proof.
  unfold rows_of_key. induction rows as [|r l IH]; [reflexivity|].
  cbn [filter]. destruct (up_userId r =? userId)%string; cbn [filter andb].
  - destruct (up_channel r =? channel)%string; now rewrite IH.
  - exact IH.
Qed.

(** X8: setting a preference is an upsert: afterwards the user has
    exactly one row for that channel, carrying the flag; the rows of
    other users and channels are as before; no (userId, channel) occurs
    twice; and of two successive settings only the last one counts (so
    that setting the same flag twice is the same as setting it once). *)
Theorem preference_upsert w userId channel enabled :
  prefs_unique w ->
  prefs_unique (snd (updateUserPreferences userId channel enabled w))
  /\ (exists rows,
        fst (getUserPreferences userId
               (snd (updateUserPreferences userId channel enabled w)))
        = Normal rows
        /\ filter (fun r => (up_channel r =? channel)%string) rows
           = [ {| up_userId := userId; up_channel := channel;
                  up_isEnabled := enabled |} ])
  /\ (forall r, pref_key r <> (userId, channel) ->
        (In r (userPreferences
                 (snd (updateUserPreferences userId channel enabled w)))
         <-> In r (userPreferences w)))
  /\ (forall previous,
        snd (updateUserPreferences userId channel enabled
               (snd (updateUserPreferences userId channel previous w)))
        = snd (updateUserPreferences userId channel enabled w)).
Proof.
  intros Hu. unfold prefs_unique in *. cbn [updateUserPreferences snd].
  cbn [userPreferences set_userPreferences].
  split; [now apply upsert_preference_unique|]. split.
  - eexists. split; [reflexivity|].
    cbn [userPreferences set_userPreferences].
    rewrite filter_channel_of_user. now apply rows_of_key_upsert.
  - split; [intros r Hr; now apply upsert_preference_others|].
    intros previous. unfold set_userPreferences. cbn.
    now rewrite upsert_preference_twice.
Qed.

Lemma preference_upsert_witness :
  prefs_unique (snd (updateUserPreferences "u2" "PUSH" true u2_world))
  /\ userPreferences (snd (updateUserPreferences "u2" "PUSH" true u2_world))
     = [ {| up_userId := "u2"; up_channel := "EMAIL"; up_isEnabled := true |};
         {| up_userId := "u2"; up_channel := "PUSH"; up_isEnabled := true |} ].
Proof.
  destruct (preference_upsert u2_world "u2" "PUSH" true) as (H & _).
  - unfold prefs_unique. cbn. repeat constructor; cbn; intuition discriminate.
  - split; [exact H | reflexivity].
Defined.

Lemma upsert_deviceToken_absent table userId token platform :
  ~ In (userId, token) (map token_key table) ->
  upsert_deviceToken table userId token platform
  = (table ++ [ {| dt_userId := userId; dt_token := token;
                   dt_platform := platform; dt_isActive := true |} ])%list.
Proof.
  induction table as [|r rows IH]; cbn; [reflexivity|].
  intros H.
  destruct ((dt_userId r =? userId)%string && (dt_token r =? token)%string) eqn:E.
  - exfalso. apply H. left. now apply pair_eqb_spec.
  - f_equal. apply IH. intros Hin. apply H. now right.
Qed.

Lemma upsert_deviceToken_keys_present table userId token platform :
  In (userId, token) (map token_key table) ->
  map token_key (upsert_deviceToken table userId token platform)
  = map token_key table.
Proof.
  induction table as [|r rows IH]; cbn; [easy|].
  intros H.
  destruct ((dt_userId r =? userId)%string && (dt_token r =? token)%string)
    eqn:E; cbn.
  - reflexivity.
  - f_equal. apply IH. destruct H as [H|H]; [|exact H].
    apply pair_eqb_spec in H. congruence.
Qed.

Lemma upsert_deviceToken_unique table userId token platform :
  tokens_unique table ->
  tokens_unique (upsert_deviceToken table userId token platform).
Proof.
  unfold tokens_unique. intros H.
  destruct (in_dec string_pair_dec (userId, token) (map token_key table))
    as [Hin|Hin].
  - now rewrite upsert_deviceToken_keys_present.
  - rewrite upsert_deviceToken_absent by exact Hin. rewrite map_app.
    apply NoDup_app; [exact H | repeat constructor; easy |].
    intros x Hx [<-|[]]. contradiction.
Qed.

Lemma token_rows_absent table userId token :
  ~ In (userId, token) (map token_key table) ->
  token_rows table userId token = [].
Proof.
  induction table as [|r rows IH]; cbn; [reflexivity|].
  intros H.
  destruct ((dt_userId r =? userId)%string && (dt_token r =? token)%string) eqn:E.
  - exfalso. apply H. left. now apply pair_eqb_spec.
  - apply IH. intros Hin. apply H. now right.
Qed.

Lemma token_rows_upsert table userId token platform :
  tokens_unique table ->
  token_rows (upsert_deviceToken table userId token platform) userId token
  = [ {| dt_userId := userId; dt_token := token;
         dt_platform := platform; dt_isActive := true |} ].
Proof.
  unfold tokens_unique. induction table as [|r rows IH]; cbn.
  - intros _. now rewrite !String.eqb_refl.
  - intros H. apply NoDup_cons_iff in H as [Hn Hd].
    destruct ((dt_userId r =? userId)%string && (dt_token r =? token)%string)
      eqn:E; cbn; rewrite E.
    + pose proof (proj1 (pair_eqb_spec _ _ _ _) E) as Ek.
      injection Ek as Eu Ec. rewrite Eu, Ec. f_equal.
      apply token_rows_absent. unfold token_key in Hn at 1. now rewrite Eu, Ec in Hn.
    + now apply IH.
Qed.

Lemma getDeviceTokens_in table userId token :
  In token (getDeviceTokens table userId)
  <-> exists t, In t (token_rows table userId token) /\ dt_isActive t = true.
Proof.
  unfold getDeviceTokens, token_rows. rewrite in_map_iff. split.
  - intros (t & Et & Hin). apply filter_In in Hin as [Hin Hp].
    apply andb_true_iff in Hp as [Hu Ha].
    exists t. split; [|exact Ha]. apply filter_In. split; [exact Hin|].
    now rewrite Hu, Et, String.eqb_refl.
  - intros (t & Hin & Ha). apply filter_In in Hin as [Hin Hp].
    apply andb_true_iff in Hp as [Hu Ht]. apply String.eqb_eq in Ht.
    exists t. split; [exact Ht|]. apply filter_In. split; [exact Hin|].
    now rewrite Hu, Ha.
Qed.

Lemma deactivate_map_key table userId token :
  map token_key (snd (deactivateDeviceToken table userId token))
  = map token_key table.
Proof.
  cbn [deactivateDeviceToken snd]. rewrite map_map. apply map_ext.
  intros t. now destruct (_ && _).
Qed.

Lemma token_rows_deactivated table userId token t :
  In t (token_rows (snd (deactivateDeviceToken table userId token)) userId token) ->
  dt_isActive t = false.
Proof.
  unfold token_rows. cbn [deactivateDeviceToken snd]. intros H.
  apply filter_In in H as [Hin Hp]. apply in_map_iff in Hin as (t0 & E & _).
  destruct ((dt_userId t0 =? userId)%string && (dt_token t0 =? token)%string)
    eqn:E0; subst t; [reflexivity|]. congruence.
Qed.

(** X9: a device token that is registered, removed and registered again
    is active again: registration lists the token for push, removal
    deactivates exactly that one row and takes the token off the list,
    re-registration revives the same row (with the new platform) instead
    of adding a second one. *)
Theorem device_token_lifecycle table userId token platform platform' :
  tokens_unique table ->
  let registered := snd (addDeviceToken table userId token platform) in
  let removed := deactivateDeviceToken registered userId token in
  let again := snd (addDeviceToken (snd removed) userId token platform') in
  In token (getDeviceTokens registered userId)
  /\ fst removed = 1
  /\ ~ In token (getDeviceTokens (snd removed) userId)
  /\ In token (getDeviceTokens again userId)
  /\ token_rows again userId token
     = [ {| dt_userId := userId; dt_token := token;
            dt_platform := platform'; dt_isActive := true |} ]
  /\ tokens_unique again.
Proof.
  intros Hu registered removed again.
  assert (Hreg : tokens_unique registered)
    by now apply upsert_deviceToken_unique.
  assert (Hrem : tokens_unique (snd removed)).
  { unfold tokens_unique. subst removed. now rewrite deactivate_map_key. }
  assert (Hrows : token_rows again userId token
                  = [ {| dt_userId := userId; dt_token := token;
                         dt_platform := platform'; dt_isActive := true |} ])
    by now apply token_rows_upsert.
  split.
  { apply getDeviceTokens_in.
    exists {| dt_userId := userId; dt_token := token;
              dt_platform := platform; dt_isActive := true |}.
    split; [|reflexivity].
    subst registered. cbn [addDeviceToken snd].
    rewrite token_rows_upsert by exact Hu. now left. }
  split.
  { subst removed registered. cbn [deactivateDeviceToken addDeviceToken fst snd].
    fold (token_rows (upsert_deviceToken table userId token platform) userId token).
    now rewrite token_rows_upsert. }
  split.
  { intros Hin. apply getDeviceTokens_in in Hin as (t & Hin & Ha).
    subst removed. apply token_rows_deactivated in Hin. congruence. }
  split.
  { apply getDeviceTokens_in.
    exists {| dt_userId := userId; dt_token := token;
              dt_platform := platform'; dt_isActive := true |}.
    split; [|reflexivity]. rewrite Hrows. now left. }
  split; [exact Hrows|]. now apply upsert_deviceToken_unique.
Qed.

Lemma device_token_lifecycle_witness :
  In "tok-b" (getDeviceTokens
                (snd (addDeviceToken
                        (snd (deactivateDeviceToken
                                (snd (addDeviceToken two_devices "u1" "tok-b" "ios"))
                                "u1" "tok-b"))
                        "u1" "tok-b" "web"))
                "u1").
Proof.
  apply (device_token_lifecycle two_devices "u1" "tok-b" "ios" "web").
  unfold tokens_unique. cbn. repeat constructor; cbn; intuition discriminate.
Defined.

Lemma getDeviceTokens_rows table userId token :
  In token (getDeviceTokens table userId)
  <-> exists t, In t table /\ token_key t = (userId, token)
                /\ dt_isActive t = true.
Proof.
  rewrite getDeviceTokens_in. unfold token_rows. split.
  - intros (t & Hin & Ha). apply filter_In in Hin as [Hin Hp].
    apply pair_eqb_spec in Hp. now exists t.
  - intros (t & Hin & Hk & Ha). exists t. split; [|exact Ha].
    apply filter_In. split; [exact Hin|]. now apply pair_eqb_spec.
Qed.

Lemma upsert_deviceToken_others table userId token platform r :
  token_key r <> (userId, token) ->
  (In r (upsert_deviceToken table userId token platform) <-> In r table).
Proof.
  intros Hk. induction table as [|r0 rows IH]; cbn.
  - split; [|easy]. intros [<-|[]]. now contradiction Hk.
  - destruct ((dt_userId r0 =? userId)%string && (dt_token r0 =? token)%string)
      eqn:E; cbn.
    + apply pair_eqb_spec in E. split.
      * intros [<-|H]; [|now right]. now contradiction Hk.
      * intros [<-|H]; [|now right]. now contradiction Hk.
    + rewrite IH. reflexivity.
Qed.

Lemma deactivate_others table userId token r :
  token_key r <> (userId, token) ->
  (In r (snd (deactivateDeviceToken table userId token)) <-> In r table).
Proof.
  intros Hk. cbn [deactivateDeviceToken snd]. rewrite in_map_iff. split.
  - intros (t & E & Hin).
    destruct ((dt_userId t =? userId)%string && (dt_token t =? token)%string)
      eqn:E0.
    + apply pair_eqb_spec in E0. subst r. now contradiction Hk.
    + now subst.
  - intros Hin. exists r. split; [|exact Hin].
    destruct ((dt_userId r =? userId)%string && (dt_token r =? token)%string)
      eqn:E0; [|reflexivity].
    apply pair_eqb_spec in E0. now contradiction Hk.
Qed.

(** X10: registering or removing a device token touches that user's
    token only: the tokens listed for any other user, and this user's
    other tokens, are listed exactly as before; removing a token that was
    never registered matches no row and changes nothing. *)
Theorem device_token_ops_local table userId token platform other tok :
  (other, tok) <> (userId, token) ->
  (In tok (getDeviceTokens (snd (addDeviceToken table userId token platform)) other)
   <-> In tok (getDeviceTokens table other))
  /\ (In tok (getDeviceTokens (snd (deactivateDeviceToken table userId token)) other)
      <-> In tok (getDeviceTokens table other))
  /\ (~ In (userId, token) (map token_key table) ->
      deactivateDeviceToken table userId token = (0, table)).
Proof.
  intros Hne. split; [|split].
  - rewrite !getDeviceTokens_rows. cbn [addDeviceToken snd].
    split; intros (t & Hin & Hk & Ha); exists t; repeat split; trivial;
      apply (upsert_deviceToken_others table userId token platform t);
      trivial; congruence.
  - rewrite !getDeviceTokens_rows.
    split; intros (t & Hin & Hk & Ha); exists t; repeat split; trivial;
      apply (deactivate_others table userId token t); trivial; congruence.
  - intros Hnew. unfold deactivateDeviceToken.
    fold (token_rows table userId token).
    rewrite (token_rows_absent table userId token Hnew). f_equal.
    clear Hne. induction table as [|r rows IH]; [reflexivity|].
    cbn [map] in *.
    destruct ((dt_userId r =? userId)%string && (dt_token r =? token)%string) eqn:E.
    + exfalso. apply Hnew. left. now apply pair_eqb_spec.
    + f_equal. apply IH. intros Hin. apply Hnew. now right.
Qed.

Lemma device_token_ops_local_witness :
  (In "tok-a" (getDeviceTokens
                 (snd (deactivateDeviceToken two_devices "u1" "tok-a")) "u2")
   <-> In "tok-a" (getDeviceTokens two_devices "u2"))
  /\ deactivateDeviceToken two_devices "u9" "tok-a" = (0, two_devices).
Proof.
  destruct (device_token_ops_local two_devices "u1" "tok-a" "ios" "u2" "tok-a")
    as (_ & H & _); [discriminate|].
  destruct (device_token_ops_local two_devices "u9" "tok-a" "ios" "u2" "tok-a")
    as (_ & _ & H'); [discriminate|].
  split; [exact H|]. apply H'. cbn. intuition discriminate.
Defined.

(* ===================================================================== *)
(** * Dispatcher, status and retry: further proofs *)
(* ===================================================================== *)

Lemma sendNotification_store d w :
  notifications (snd (sendNotification d w))
  = (notifications w ++ [created_row d (nextId w) (clock w (reads w))])%list
  /\ nextId (snd (sendNotification d w)) = S (nextId w)
  /\ userPreferences (snd (sendNotification d w)) = userPreferences w
  /\ notificationTemplates (snd (sendNotification d w)) = notificationTemplates w
  /\ cache (snd (sendNotification d w)) = cache w
  /\ clock (snd (sendNotification d w)) = clock w.
Proof.
  pose proof (sendNotification_spec d w) as H. cbn zeta in H.
  destruct (determineChannels d _).
  - destruct H as (added & r' & -> & _). repeat split.
  - rewrite H. repeat split.
Qed.

(** X11: every call of [sendNotification] stores exactly one new
    notification, whether it returns or throws: the row has a fresh id,
    status QUEUED, retryCount 0, the requested channel (EMAIL when none
    or an empty one is given) and priority (NORMAL by default); the rows
    already stored are not touched.  When the call returns, it returns
    that row. *)
Theorem dispatch_stores_one_row d w :
  let row := created_row d (nextId w) (clock w (reads w)) in
  notifications (snd (sendNotification d w)) = (notifications w ++ [row])%list
  /\ n_status row = NotificationStatus.QUEUED
  /\ n_retryCount row = 0
  /\ n_channel row = or_default (nd_channel d) NotificationChannel.EMAIL
  /\ n_priority row = or_default (nd_priority d) NotificationPriority.NORMAL
  /\ (forall n, In n (notifications w) -> (n_id n < nextId w)%nat ->
                n_id n <> n_id row)
  /\ (forall r, fst (sendNotification d w) = Normal r -> r = row).
Proof.
  intros row. destruct (sendNotification_store d w) as (Hn & _).
  split; [exact Hn|]. repeat split.
  - intros n _ Hlt. cbn. lia.
  - intros r Hr. pose proof (sendNotification_spec d w) as H. cbn zeta in H.
    destruct (determineChannels d _).
    + destruct H as (added & r' & E & _). rewrite E in Hr. now injection Hr.
    + rewrite H in Hr. discriminate.
Qed.

(** X12: a pinned channel decides the queue alone, whatever the type and
    the preference rows: the call returns normally, with one job on the
    queue of that channel when the channel is exactly EMAIL, PUSH or SMS,
    and with no job at all for any other string (such as "email"): the
    notification is then stored as QUEUED but never handed to a
    worker. *)
Theorem dispatch_pinned_channel d w channel :
  pinned_channel d = Some channel ->
  (exists row, fst (sendNotification d w) = Normal row)
  /\ map (fun qj => (fst qj, j_name (snd qj))) (added_jobs d w)
     = match queue_of_channel channel with
       | Some queue => [queue]
       | None => []
       end
  /\ (queue_of_channel channel = None <->
      channel <> "EMAIL" /\ channel <> "PUSH" /\ channel <> "SMS").
Proof.
  intros Hp. split; [|split].
  - pose proof (sendNotification_spec d w) as H. cbn zeta in H.
    rewrite (determineChannels_pinned d _ channel Hp) in H.
    destruct H as (added & r' & E & _). rewrite E. now eexists.
  - destruct (added_jobs_spec d w) as (_ & _ & _ & H).
    rewrite (determineChannels_pinned d _ channel Hp) in H. rewrite H.
    unfold channels_queues. cbn [flat_map].
    destruct (queue_of_channel channel); [reflexivity|reflexivity].
  - unfold queue_of_channel, NotificationChannel.EMAIL, NotificationChannel.PUSH,
      NotificationChannel.SMS.
    destruct (String.eqb_spec channel "EMAIL");
      [split; [discriminate | intros (H & _); contradiction]|].
    destruct (String.eqb_spec channel "PUSH");
      [split; [discriminate | intros (_ & H & _); contradiction]|].
    destruct (String.eqb_spec channel "SMS");
      [split; [discriminate | intros (_ & _ & H); contradiction]|].
    now split.
Qed.

Lemma dispatch_pinned_channel_witness :
  (exists row, fst (sendNotification lowercase_channel_request u2_world) = Normal row)
  /\ added_jobs lowercase_channel_request u2_world = [].
Proof.
  destruct (dispatch_pinned_channel lowercase_channel_request u2_world "email"
              eq_refl) as (H1 & H2 & _).
  split; [exact H1|].
  destruct (added_jobs lowercase_channel_request u2_world); [reflexivity|].
  discriminate H2.
Defined.

Lemma dispatch_stores_one_row_witness :
  notifications (snd (sendNotification u2_request u2_world))
  = [created_row u2_request 0 5000].
Proof.
  exact (proj1 (dispatch_stores_one_row u2_request u2_world)).
Defined.

Lemma queue_jobs_prefs d row prefs :
  forall channels w,
    queue_jobs d row channels (set_userPreferences w prefs)
    = (fst (queue_jobs d row channels w),
       set_userPreferences (snd (queue_jobs d row channels w)) prefs).
Proof.
  induction channels as [|channel rest IH]; intros w; [reflexivity|].
  cbn [queue_jobs].
  destruct (queue_of_channel channel) as [[q name]|].
  - unfold job_delay. destruct (nd_scheduledAt d) as [t|].
    + cbv beta iota zeta delta [bind Date_now ret queue_add].
      cbn [clock reads queued set_userPreferences].
      match goal with |- queue_jobs _ _ _ ?a = (fst (queue_jobs _ _ _ ?b), _) =>
        change a with (set_userPreferences b prefs) end.
      now rewrite IH.
    + cbv beta iota zeta delta [bind ret queue_add].
      cbn [clock reads queued set_userPreferences].
      match goal with |- queue_jobs _ _ _ ?a = (fst (queue_jobs _ _ _ ?b), _) =>
        change a with (set_userPreferences b prefs) end.
      now rewrite IH.
  - cbv beta iota zeta delta [bind ret]. apply IH.
Qed.

(** X13: the preference rows have no influence on a dispatch: with any
    other content of the preference table the same call returns the same
    result and adds the same jobs to the same queues. *)
Theorem dispatch_blind_to_preferences d w prefs :
  fst (sendNotification d (set_userPreferences w prefs))
  = fst (sendNotification d w)
  /\ added_jobs d (set_userPreferences w prefs) = added_jobs d w.
Proof.
  assert (E : sendNotification d (set_userPreferences w prefs)
              = (fst (sendNotification d w),
                 set_userPreferences (snd (sendNotification d w)) prefs)).
  { cbv beta iota zeta delta [sendNotification bind prisma_notification_create
                                Date_now getUserPreferences lift ret].
    cbn [userPreferences set_userPreferences set_nextId set_notifications
         set_reads nextId clock reads notifications].
    rewrite (determineChannels_ignores_preferences d
               (filter _ prefs)
               (filter (fun p => (up_userId p =? nd_userId d)%string)
                       (userPreferences w))).
    destruct (determineChannels d _) as [channels|e]; [|reflexivity].
    match goal with |- context [queue_jobs d ?row channels ?a] =>
      match goal with |- context [queue_jobs d row channels ?b] =>
        tryif constr_eq a b then fail else
          change a with (set_userPreferences b prefs) end end.
    rewrite queue_jobs_prefs.
    destruct (queue_jobs d _ channels _) as [[[]|e] w']; reflexivity. }
  unfold added_jobs. rewrite E. now split.
Qed.

Lemma prisma_update_store id data w :
  notifications (snd (prisma_notification_update id data w))
  = match find_notification id (notifications w) with
    | Some _ => map (fun n => if (n_id n =? id)%nat then apply_update data n else n)
                    (notifications w)
    | None => notifications w
    end
  /\ nextId (snd (prisma_notification_update id data w)) = nextId w.
Proof.
  unfold prisma_notification_update.
  destruct (find_notification id (notifications w)); now split.
Qed.

Lemma updateNotificationStatus_store id status errorMessage w :
  exists u,
    ud_status u = Some status
    /\ ud_retryCount u = None
    /\ (status = NotificationStatus.SENT -> ud_sentAt u <> None)
    /\ (status = NotificationStatus.FAILED -> ud_failedAt u <> None)
    /\ notifications (snd (updateNotificationStatus id status errorMessage w))
       = match find_notification id (notifications w) with
         | Some _ => map (fun n => if (n_id n =? id)%nat then apply_update u n else n)
                         (notifications w)
         | None => notifications w
         end
    /\ nextId (snd (updateNotificationStatus id status errorMessage w)) = nextId w.
Proof.
  destruct (updateData_keys status errorMessage w)
    as (u & Eu & Hs & _ & Hr & Hsent & Hfailed & _).
  exists u. split; [exact Hs|]. split; [exact Hr|].
  split; [intros E; now apply Hsent|]. split; [intros E; now apply Hfailed|].
  set (r := reads (snd (updateData_for status errorMessage w))) in Eu.
  clearbody r.
  assert (E : updateNotificationStatus id status errorMessage w
              = prisma_notification_update id u (set_reads w r)).
  { unfold updateNotificationStatus, bind. now rewrite Eu. }
  rewrite E.
  pose proof (prisma_update_store id u (set_reads w r)) as [Hn Hi].
  cbn [notifications nextId set_reads] in Hn, Hi. now split.
Qed.

Lemma retry_loop_keeps (I : World -> Prop) (Q : Notification -> Prop) :
  (forall d w, I w -> I (snd (sendNotification d w))) ->
  (forall n w, Q n -> I w ->
     I (snd (prisma_notification_update (n_id n)
               (retryCount_data (n_retryCount n + 1)) w))) ->
  forall rows w, Forall Q rows -> I w -> I (snd (retry_loop rows w)).
Proof.
  intros Hsend Hupd. induction rows as [|n rest IH]; intros w HQ HI; [exact HI|].
  apply Forall_cons_iff in HQ as [Hn Hrest].
  cbn [retry_loop]. unfold bind.
  pose proof (Hsend (retry_data n) w HI) as H1.
  destruct (sendNotification (retry_data n) w) as [[r|e] w1]; [|exact H1].
  cbn [snd] in H1. pose proof (Hupd n w1 Hn H1) as H2.
  destruct (prisma_notification_update _ _ w1) as [[r2|e2] w2]; [|exact H2].
  now apply IH.
Qed.

Lemma retryFailed_keeps (I : World -> Prop) (Q : Notification -> Prop) w :
  (forall d w, I w -> I (snd (sendNotification d w))) ->
  (forall n w, Q n -> I w ->
     I (snd (prisma_notification_update (n_id n)
               (retryCount_data (n_retryCount n + 1)) w))) ->
  Forall Q (selected_for_retry w) -> I w ->
  I (snd (retryFailedNotifications w)).
Proof.
  intros Hs Hu HQ HI. unfold retryFailedNotifications, bind.
  cbn [findFailedForRetry]. fold (selected_for_retry w).
  now apply (retry_loop_keeps I Q).
Qed.

Lemma Forall_map_if {A} (P : A -> Prop) (c : A -> bool) (f : A -> A) l :
  (forall a, P a -> P (f a)) ->
  Forall P l -> Forall P (map (fun a => if c a then f a else a) l).
Proof.
  intros Hf H. induction H; cbn; constructor; trivial.
  destruct (c x); auto.
Qed.

(** X14: the three writers of the notification table (dispatch, status
    update, retry pass) keep it well-formed: identifiers stay distinct
    and below the next one to be handed out, and no row ever has an empty
    channel or priority. *)
Theorem store_stays_well_formed w :
  store_wf w ->
  (forall d, store_wf (snd (sendNotification d w)))
  /\ (forall id status errorMessage,
         store_wf (snd (updateNotificationStatus id status errorMessage w)))
  /\ store_wf (snd (retryFailedNotifications w)).
Proof.
  assert (Hupd : forall id data w0,
             store_wf w0 -> store_wf (snd (prisma_notification_update id data w0))).
  { intros id data w0 [Hnd Hall].
    destruct (prisma_update_store id data w0) as [Hn Hi].
    unfold store_wf. rewrite Hn, Hi.
    destruct (find_notification id (notifications w0)) as [found|]; [|now split].
    split.
    - rewrite map_map.
      erewrite map_ext; [exact Hnd|]. intros m. now destruct (n_id m =? id)%nat.
    - apply Forall_map_if; [|exact Hall]. intros m Hm. exact Hm. }
  intros Hwf. split; [|split].
  - intros d. now apply sendNotification_keeps_store_wf.
  - intros id status errorMessage.
    unfold updateNotificationStatus, bind.
    destruct (updateData_keys status errorMessage w) as (u & Eu & _).
    set (r := reads (snd (updateData_for status errorMessage w))) in Eu.
    clearbody r. rewrite Eu. apply Hupd. exact Hwf.
  - apply (retryFailed_keeps store_wf (fun _ => True)); trivial.
    + intros d w0. apply sendNotification_keeps_store_wf.
    + intros n w0 _. apply Hupd.
    + apply Forall_forall. trivial.
Qed.

Lemma store_stays_well_formed_witness :
  store_wf (snd (retryFailedNotifications retry_world)).
Proof.
  apply (store_stays_well_formed retry_world). split.
  - cbn. repeat constructor; cbn; intuition lia.
  - repeat constructor; cbn; try lia; discriminate.
Defined.

Lemma updateNotificationStatus_as_update id status errorMessage w :
  exists u r,
    updateNotificationStatus id status errorMessage w
    = prisma_notification_update id u (set_reads w r)
    /\ (S (reads w) <= r)%nat
    /\ ud_status u = Some status
    /\ ud_retryCount u = None
    /\ (status = NotificationStatus.SENT -> ud_sentAt u <> None)
    /\ (status = NotificationStatus.FAILED -> ud_failedAt u <> None).
Proof.
  destruct (updateData_keys status errorMessage w)
    as (u & Eu & Hs & _ & Hr & Hsent & Hfailed & _).
  assert (Hreads : (S (reads w) <= reads (snd (updateData_for status errorMessage w)))%nat).
  { cbv beta iota zeta delta [updateData_for bind Date_now ret].
    destruct (status =? NotificationStatus.SENT)%string; [cbn; lia|].
    destruct (status =? NotificationStatus.FAILED)%string; cbn; lia. }
  set (r := reads (snd (updateData_for status errorMessage w))) in *.
  clearbody r. exists u, r.
  split; [unfold updateNotificationStatus, bind; now rewrite Eu|].
  split; [exact Hreads|]. split; [exact Hs|]. split; [exact Hr|].
  split; [intros E; now apply Hsent | intros E; now apply Hfailed].
Qed.

(** X15: a status update for an identifier that is not in the store
    fails with the store's not-found error and changes no notification
    (there is no upsert: nothing is created). *)
Theorem updateStatus_unknown_id w id status errorMessage :
  find_notification id (notifications w) = None ->
  fst (updateNotificationStatus id status errorMessage w) = Throw RecordNotFound
  /\ notifications (snd (updateNotificationStatus id status errorMessage w))
     = notifications w
  /\ queued (snd (updateNotificationStatus id status errorMessage w)) = queued w.
Proof.
  intros Hnone.
  destruct (updateNotificationStatus_as_update id status errorMessage w)
    as (u & r & E & _).
  rewrite E. unfold prisma_notification_update. cbn [notifications set_reads].
  rewrite Hnone. repeat split.
Qed.

Lemma updateStatus_unknown_id_witness :
  fst (updateNotificationStatus 99 "SENT" None worker_world) = Throw RecordNotFound
  /\ notifications (snd (updateNotificationStatus 99 "SENT" None worker_world))
     = notifications worker_world.
Proof.
  destruct (updateStatus_unknown_id worker_world 99 "SENT" None eq_refl)
    as (H1 & H2 & _).
  now split.
Defined.

(** X16: the status timestamps stay in step with the status: if every
    stored notification with status SENT has its sentAt and every one
    with status FAILED its failedAt, this is still so after a dispatch,
    after a status update (to any status string) and after a retry
    pass. *)
Theorem status_timestamps_kept w :
  Forall timestamps_consistent (notifications w) ->
  (forall d, Forall timestamps_consistent
                    (notifications (snd (sendNotification d w))))
  /\ (forall id status errorMessage,
         Forall timestamps_consistent
                (notifications (snd (updateNotificationStatus id status
                                       errorMessage w))))
  /\ Forall timestamps_consistent
            (notifications (snd (retryFailedNotifications w))).
Proof.
  assert (Hsend : forall d w0,
             Forall timestamps_consistent (notifications w0) ->
             Forall timestamps_consistent
                    (notifications (snd (sendNotification d w0)))).
  { intros d w0 H0. destruct (sendNotification_store d w0) as (-> & _).
    apply Forall_app. split; [exact H0|]. repeat constructor; discriminate. }
  intros H. split; [intros d; now apply Hsend|]. split.
  - intros id status errorMessage.
    destruct (updateNotificationStatus_store id status errorMessage w)
      as (u & Hs & _ & Hsent & Hfailed & -> & _).
    destruct (find_notification id (notifications w)); [|exact H].
    apply Forall_map_if; [|exact H].
    intros m _. unfold timestamps_consistent, apply_update. cbn. rewrite Hs.
    split; intros E.
    + destruct (ud_sentAt u); [discriminate|]. now contradiction (Hsent E).
    + destruct (ud_failedAt u); [discriminate|]. now contradiction (Hfailed E).
  - apply (retryFailed_keeps
             (fun w0 => Forall timestamps_consistent (notifications w0))
             (fun _ => True)); trivial.
    + intros m w0 _ H0.
      destruct (prisma_update_store (n_id m)
                  (retryCount_data (n_retryCount m + 1)) w0) as [-> _].
      destruct (find_notification _ _); [|exact H0].
      apply Forall_map_if; [|exact H0]. now intros x Hx.
    + apply Forall_forall. trivial.
Qed.

Lemma status_timestamps_kept_witness :
  Forall timestamps_consistent
         (notifications (snd (updateNotificationStatus 7 "SENT" None worker_world))).
Proof.
  apply (status_timestamps_kept worker_world).
  repeat constructor; discriminate.
Defined.

(** X17: the retry counter stays within its bound: if every stored
    notification has a retryCount between 0 and 3, this is still so after
    a dispatch, a status update and a retry pass; a retry pass raises a
    counter only from below 3. *)
Theorem retry_count_bounded w :
  Forall retries_bounded (notifications w) ->
  (forall d, Forall retries_bounded (notifications (snd (sendNotification d w))))
  /\ (forall id status errorMessage,
         Forall retries_bounded
                (notifications (snd (updateNotificationStatus id status
                                       errorMessage w))))
  /\ Forall retries_bounded (notifications (snd (retryFailedNotifications w))).
Proof.
  assert (Hsend : forall d w0,
             Forall retries_bounded (notifications w0) ->
             Forall retries_bounded (notifications (snd (sendNotification d w0)))).
  { intros d w0 H0. destruct (sendNotification_store d w0) as (-> & _).
    apply Forall_app. split; [exact H0|]. repeat constructor; cbn; lia. }
  intros H. split; [intros d; now apply Hsend|]. split.
  - intros id status errorMessage.
    destruct (updateNotificationStatus_store id status errorMessage w)
      as (u & _ & Hr & _ & _ & -> & _).
    destruct (find_notification id (notifications w)); [|exact H].
    apply Forall_map_if; [|exact H].
    intros m Hm. unfold retries_bounded, apply_update in *. cbn. now rewrite Hr.
  - apply (retryFailed_keeps
             (fun w0 => Forall retries_bounded (notifications w0))
             (fun m => 0 <= n_retryCount m < 3)); trivial.
    + intros m w0 Hm H0.
      destruct (prisma_update_store (n_id m)
                  (retryCount_data (n_retryCount m + 1)) w0) as [-> _].
      destruct (find_notification _ _); [|exact H0].
      apply Forall_map_if; [|exact H0].
      intros x _. unfold retries_bounded, apply_update. cbn. lia.
    + apply Forall_forall. intros m Hm.
      apply selected_in_store in Hm as [Hin Hr].
      rewrite Forall_forall in H. specialize (H m Hin).
      unfold retryable in Hr. apply andb_true_iff in Hr as [_ Hc].
      apply Z.ltb_lt in Hc. unfold retries_bounded in H. lia.
Qed.

Lemma retry_count_bounded_witness :
  Forall retries_bounded (notifications (snd (retryFailedNotifications retry_world))).
Proof.
  apply (retry_count_bounded retry_world).
  repeat constructor; cbn; lia.
Defined.

(* ===================================================================== *)
(** * Event routing: proofs *)
(* ===================================================================== *)




(* ===================================================================== *)
(** * Status updates, step by step *)
(* ===================================================================== *)

Lemma updateStatus_run_PROCESSING id errorMessage w row :
  find_notification id (notifications w) = Some row ->
  updateNotificationStatus id NotificationStatus.PROCESSING errorMessage w
  = (Normal (apply_update (processing_data (clock w (reads w))) row),
     set_notifications (set_reads w (S (reads w)))
       (rewrite_row id (processing_data (clock w (reads w))) (notifications w))).
Proof.
  intros H.
  cbv beta iota zeta delta [updateNotificationStatus updateData_for bind
                              Date_now ret prisma_notification_update].
  cbn [String.eqb NotificationStatus.PROCESSING NotificationStatus.SENT
       NotificationStatus.FAILED Ascii.eqb Bool.eqb].
  cbn [notifications set_reads]. now rewrite H.
Qed.

Lemma updateStatus_run_SENT id errorMessage w row :
  find_notification id (notifications w) = Some row ->
  updateNotificationStatus id NotificationStatus.SENT errorMessage w
  = (Normal (apply_update (sent_data (clock w (reads w)) (clock w (S (reads w))))
                          row),
     set_notifications (set_reads w (S (S (reads w))))
       (rewrite_row id (sent_data (clock w (reads w)) (clock w (S (reads w))))
                    (notifications w))).
Proof.
  intros H.
  cbv beta iota zeta delta [updateNotificationStatus updateData_for bind
                              Date_now ret prisma_notification_update].
  cbn [String.eqb NotificationStatus.PROCESSING NotificationStatus.SENT
       NotificationStatus.FAILED Ascii.eqb Bool.eqb].
  cbn [notifications set_reads clock reads]. now rewrite H.
Qed.

Lemma updateStatus_run_FAILED id errorMessage w row :
  find_notification id (notifications w) = Some row ->
  updateNotificationStatus id NotificationStatus.FAILED errorMessage w
  = (Normal (apply_update (failed_data (clock w (reads w)) (clock w (S (reads w)))
                                       errorMessage) row),
     set_notifications (set_reads w (S (S (reads w))))
       (rewrite_row id (failed_data (clock w (reads w)) (clock w (S (reads w)))
                                    errorMessage)
                    (notifications w))).
Proof.
  intros H.
  cbv beta iota zeta delta [updateNotificationStatus updateData_for bind
                              Date_now ret prisma_notification_update].
  cbn [String.eqb NotificationStatus.PROCESSING NotificationStatus.SENT
       NotificationStatus.FAILED Ascii.eqb Bool.eqb].
  cbn [notifications set_reads clock reads]. now rewrite H.
Qed.

Lemma find_rewrite_row id data rows row :
  find_notification id rows = Some row ->
  find_notification id (rewrite_row id data rows) = Some (apply_update data row).
Proof.
  intros H. pose proof (find_notification_id _ _ _ H) as Eid. subst id.
  unfold rewrite_row.
  rewrite (find_notification_map (n_id row)
             (fun n => if (n_id n =? n_id row)%nat then apply_update data n else n)
             rows row).
  - now rewrite Nat.eqb_refl.
  - intros n. now destruct (n_id n =? n_id row)%nat.
  - exact H.
Qed.



(* ===================================================================== *)
(** * Channel workers, the whole job: proofs *)
(* ===================================================================== *)

Lemma same_store_refl w : same_store w w.
Proof. unfold same_store. repeat split; lia. Qed.

Lemma same_store_trans w1 w2 w3 :
  same_store w1 w2 -> same_store w2 w3 -> same_store w1 w3.
Proof.
  unfold same_store.
  intros (A1 & A2 & A3 & A4 & A5 & A6 & A7 & A8)
         (B1 & B2 & B3 & B4 & B5 & B6 & B7 & B8).
  repeat split; try congruence. lia.
Qed.

Lemma getCached_frame key w : same_store w (snd (getCached key w)).
Proof.
  destruct (own_get (cache w) key) as [entry|] eqn:E.
  - rewrite (getCached_found w key entry E).
    destruct (_ >? ttlMs); unfold same_store; cbn; repeat split; lia.
  - rewrite (getCached_missing w key E). apply same_store_refl.
Qed.

Lemma setCached_frame key value w : same_store w (snd (setCached key value w)).
Proof.
  rewrite setCached_run. unfold same_store; cbn; repeat split; lia.
Qed.

Lemma getNotificationTemplate_frame type channel w :
  same_store w (snd (getNotificationTemplate type channel w))
  /\ exists r, fst (getNotificationTemplate type channel w) = Normal r.
Proof.
  cbv beta iota zeta delta [getNotificationTemplate bind].
  pose proof (getCached_frame (type ++ ":" ++ channel) w) as Hc.
  assert (Hn : exists r, fst (getCached (type ++ ":" ++ channel) w) = Normal r).
  { destruct (own_get (cache w) (type ++ ":" ++ channel)) as [entry|] eqn:E.
    - rewrite (getCached_found w _ entry E). destruct (_ >? ttlMs); now eexists.
    - rewrite (getCached_missing w _ E). now eexists. }
  destruct Hn as [r Hr].
  destruct (getCached (type ++ ":" ++ channel) w) as [c w1]. cbn in Hr, Hc.
  subst c. destruct r as [t|].
  - cbn. split; [exact Hc | now eexists].
  - unfold findFirst_template.
    destruct (find _ (notificationTemplates w1)) as [t|].
    + pose proof (setCached_frame (type ++ ":" ++ channel) t w1) as Hs.
      rewrite setCached_run in *. cbn [snd fst] in *.
      split; [now apply (same_store_trans w w1) | now eexists].
    + cbn. split; [exact Hc | now eexists].
Qed.

Lemma content_after_template (job : JobData)
      (k : NotificationTemplate -> option Rendered -> M (option (string * string)))
      type channel w :
  (forall t r w1, exists x, k t r w1 = (Normal x, w1)) ->
  let m := (template <- getNotificationTemplate type channel ;;
            match template with
            | Some t => k t (renderTemplate t (template_variables job))
            | None => ret (Some (jd_title job, jd_message job))
            end) in
  same_store w (snd (m w)) /\ exists r, fst (m w) = Normal r.
Proof.
  intros Hk m. subst m. cbv beta iota zeta delta [bind].
  destruct (getNotificationTemplate_frame type channel w) as [Hf [r Hr]].
  destruct (getNotificationTemplate type channel w) as [x w1]. cbn in Hf, Hr.
  subst x. destruct r as [t|].
  - destruct (Hk t (renderTemplate t (template_variables job)) w1) as [x Hx].
    rewrite Hx. cbn. split; [exact Hf | now eexists].
  - cbn. split; [exact Hf | now eexists].
Qed.

Lemma sendEmail_content_frame job w :
  same_store w (snd (sendEmail_content job w))
  /\ exists r, fst (sendEmail_content job w) = Normal r.
Proof.
  apply (content_after_template job
           (fun _ r => match r with
                       | Some rendered =>
                           ret (Some (title rendered, html_or_message rendered))
                       | None => ret None
                       end)).
  intros t [r|] w1; now eexists.
Qed.

Lemma sendPush_content_frame job w :
  same_store w (snd (sendPush_content job w))
  /\ exists r, fst (sendPush_content job w) = Normal r.
Proof.
  apply (content_after_template job
           (fun _ r => match r with
                       | Some rendered =>
                           ret (Some (title rendered, message rendered))
                       | None => ret None
                       end)).
  intros t [r|] w1; now eexists.
Qed.

Lemma sendSMS_content_frame job w :
  same_store w (snd (sendSMS_content job w))
  /\ exists r, fst (sendSMS_content job w) = Normal r.
Proof.
  apply (content_after_template job
           (fun _ r => match r with
                       | Some rendered =>
                           ret (Some (title rendered, message rendered))
                       | None => ret None
                       end)).
  intros t [r|] w1; now eexists.
Qed.

Lemma updateStatus_run_missing id status errorMessage w :
  find_notification id (notifications w) = None ->
  exists r, updateNotificationStatus id status errorMessage w
            = (Throw RecordNotFound, set_reads w r).
Proof.
  intros Hnone.
  destruct (updateNotificationStatus_as_update id status errorMessage w)
    as (u & r & E & _).
  exists r. rewrite E. unfold prisma_notification_update.
  cbn [notifications set_reads]. now rewrite Hnone.
Qed.

Lemma on_failure_run nf {Call} id error (made : list Call) w row :
  find_notification id (notifications w) = Some row ->
  on_failure nf id error made w
  = {| outcome := Failed error; calls := made;
       after := set_notifications (set_reads w (S (S (reads w))))
                  (rewrite_row id
                     (failed_data (clock w (reads w)) (clock w (S (reads w)))
                                  (Some (failure_message nf error)))
                     (notifications w)) |}.
Proof.
  intros H. unfold on_failure.
  now rewrite (updateStatus_run_FAILED id _ w row H).
Qed.

Lemma on_failure_missing nf {Call} id error (made : list Call) w :
  find_notification id (notifications w) = None ->
  exists r, on_failure nf id error made w
            = {| outcome := Failed (StoreFailure RecordNotFound);
                 calls := made; after := set_reads w r |}.
Proof.
  intros H. unfold on_failure.
  destruct (updateStatus_run_missing id NotificationStatus.FAILED
              (Some (failure_message nf error)) w H) as [r ->].
  now exists r.
Qed.

(** X20: a job for a notification that is not in the store fails with
    the store's not-found error in each of the three workers: the error
    handler's own status update fails in the same way, nothing is sent
    and no notification is changed. *)
Theorem worker_unknown_notification
        users deviceTokens from sendMail send publish nf first job w :
  find_notification (jd_notificationId job) (notifications w) = None ->
  (outcome (sendEmail users from sendMail nf job w)
     = Failed (StoreFailure RecordNotFound)
   /\ calls (sendEmail users from sendMail nf job w) = []
   /\ notifications (after (sendEmail users from sendMail nf job w))
      = notifications w)
  /\ (outcome (sendPush deviceTokens send nf first job w)
        = Failed (StoreFailure RecordNotFound)
      /\ calls (sendPush deviceTokens send nf first job w) = []
      /\ notifications (after (sendPush deviceTokens send nf first job w))
         = notifications w)
  /\ (outcome (sendSMS users publish nf job w)
        = Failed (StoreFailure RecordNotFound)
      /\ calls (sendSMS users publish nf job w) = []
      /\ notifications (after (sendSMS users publish nf job w))
         = notifications w).
Proof.
  intros H.
  destruct (updateStatus_run_missing (jd_notificationId job)
              NotificationStatus.PROCESSING None w H) as [r E].
  assert (H' : find_notification (jd_notificationId job)
                 (notifications (set_reads w r)) = None) by exact H.
  repeat apply conj; unfold sendEmail, sendPush, sendSMS; rewrite E;
    match goal with
    | |- context [on_failure nf ?id ?e (@nil ?C) (set_reads w r)] =>
        destruct (@on_failure_missing nf C id e [] (set_reads w r) H')
          as [r' ->]
    end; reflexivity.
Qed.

Lemma worker_unknown_notification_witness :
  outcome (sendEmail [ada] None accept_all "Record to update not found."
                     {| jd_notificationId := 99; jd_userId := "u1";
                        jd_title := "t"; jd_message := "m";
                        jd_metadata := None |} worker_world)
  = Failed (StoreFailure RecordNotFound).
Proof.
  exact (proj1 (proj1 (worker_unknown_notification
                         [ada] two_devices None accept_all accept_all accept_all
                         "Record to update not found." (fun _ => "")
                         {| jd_notificationId := 99; jd_userId := "u1";
                            jd_title := "t"; jd_message := "m";
                            jd_metadata := None |} worker_world eq_refl))).
Defined.

Lemma when_processing_run job w row :
  find_notification (jd_notificationId job) (notifications w) = Some row ->
  updateNotificationStatus (jd_notificationId job)
                           NotificationStatus.PROCESSING None w
  = (Normal (apply_update (processing_data (clock w (reads w))) row),
     when_processing job w)
  /\ find_notification (jd_notificationId job)
                       (notifications (when_processing job w))
     = Some (apply_update (processing_data (clock w (reads w))) row)
  /\ cache (when_processing job w) = cache w.
Proof.
  intros H. unfold when_processing.
  rewrite (updateStatus_run_PROCESSING _ None w row H). cbn [snd].
  split; [reflexivity|]. split; [|reflexivity].
  cbn [notifications set_notifications]. now apply find_rewrite_row.
Qed.

Lemma on_failure_marks nf {Call} id message (made : list Call) w0 row t :
  find_notification id (notifications w0)
  = Some (apply_update (processing_data t) row) ->
  outcome (on_failure nf id (JsError message) made w0) = Failed (JsError message)
  /\ calls (on_failure nf id (JsError message) made w0) = made
  /\ cache (after (on_failure nf id (JsError message) made w0)) = cache w0
  /\ marked_failed id message row
                   (after (on_failure nf id (JsError message) made w0)).
Proof.
  intros H. rewrite (on_failure_run nf id _ made w0 _ H).
  cbn [outcome calls after]. repeat split.
  eexists. split.
  { cbn [notifications set_notifications]. apply find_rewrite_row. exact H. }
  cbn. repeat split. discriminate.
Qed.

Lemma sent_marks id w0 row t :
  find_notification id (notifications w0)
  = Some (apply_update (processing_data t) row) ->
  exists x,
    updateNotificationStatus id NotificationStatus.SENT None w0
    = (Normal x, snd (updateNotificationStatus id NotificationStatus.SENT None w0))
    /\ marked_sent id row
         (snd (updateNotificationStatus id NotificationStatus.SENT None w0)).
Proof.
  intros H. rewrite (updateStatus_run_SENT id None w0 _ H). cbn [snd].
  eexists. split; [reflexivity|].
  eexists. split.
  { cbn [notifications set_notifications]. apply find_rewrite_row. exact H. }
  cbn. repeat split. discriminate.
Qed.

(** X21: a job whose user has no address on the worker's channel (no
    e-mail address, no active device token, no phone number) is marked
    FAILED with a message naming the user; nothing is sent, no template
    is looked up, and the job fails with that error. *)
Theorem worker_without_address
        users deviceTokens from sendMail send publish nf first job w row :
  find_notification (jd_notificationId job) (notifications w) = Some row ->
  (getUserEmail users (jd_userId job) = None ->
   outcome (sendEmail users from sendMail nf job w)
   = Failed (JsError ("No email found for user " ++ jd_userId job))
   /\ calls (sendEmail users from sendMail nf job w) = []
   /\ cache (after (sendEmail users from sendMail nf job w)) = cache w
   /\ marked_failed (jd_notificationId job)
        ("No email found for user " ++ jd_userId job) row
        (after (sendEmail users from sendMail nf job w)))
  /\ (getDeviceTokens deviceTokens (jd_userId job) = [] ->
      outcome (sendPush deviceTokens send nf first job w)
      = Failed (JsError ("No device tokens found for user " ++ jd_userId job))
      /\ calls (sendPush deviceTokens send nf first job w) = []
      /\ cache (after (sendPush deviceTokens send nf first job w)) = cache w
      /\ marked_failed (jd_notificationId job)
           ("No device tokens found for user " ++ jd_userId job) row
           (after (sendPush deviceTokens send nf first job w)))
  /\ (getUserPhone users (jd_userId job) = None ->
      outcome (sendSMS users publish nf job w)
      = Failed (JsError ("No phone found for user " ++ jd_userId job))
      /\ calls (sendSMS users publish nf job w) = []
      /\ cache (after (sendSMS users publish nf job w)) = cache w
      /\ marked_failed (jd_notificationId job)
           ("No phone found for user " ++ jd_userId job) row
           (after (sendSMS users publish nf job w))).
Proof.
  intros H. destruct (when_processing_run job w row H) as (E & Hf & Hc).
  repeat apply conj; intros Hnone;
    unfold sendEmail, sendPush, sendSMS; rewrite E, Hnone;
    match goal with
    | |- context [on_failure nf ?id (JsError ?m) (@nil ?C) ?w0] =>
        destruct (@on_failure_marks nf C id m [] w0 row _ Hf)
          as (H1 & H2 & H3 & H4)
    end;
    (split; [exact H1 | split; [exact H2 | split; [congruence | exact H4]]]).
Qed.

Lemma worker_without_address_witness :
  outcome (sendEmail [ada; nobody] None accept_all "Record to update not found."
             {| jd_notificationId := 7; jd_userId := "u4"; jd_title := "t";
                jd_message := "m"; jd_metadata := None |} worker_world)
  = Failed (JsError "No email found for user u4")
  /\ outcome (sendSMS [ada; nobody] accept_all "Record to update not found."
                {| jd_notificationId := 7; jd_userId := "u4"; jd_title := "t";
                   jd_message := "m"; jd_metadata := None |} worker_world)
     = Failed (JsError "No phone found for user u4").
Proof.
  pose proof (worker_without_address
                [ada; nobody] two_devices None accept_all accept_all accept_all
                "Record to update not found." (fun _ => "")
                {| jd_notificationId := 7; jd_userId := "u4"; jd_title := "t";
                   jd_message := "m"; jd_metadata := None |}
                worker_world processing_row eq_refl) as (He & _ & Hs).
  split; [exact (proj1 (He eq_refl)) | exact (proj1 (Hs eq_refl))].
Defined.

Lemma find_after_content job w row t (w2 : World) :
  find_notification (jd_notificationId job) (notifications (when_processing job w))
  = Some (apply_update (processing_data t) row) ->
  same_store (when_processing job w) w2 ->
  find_notification (jd_notificationId job) (notifications w2)
  = Some (apply_update (processing_data t) row).
Proof. intros H (E & _). now rewrite E. Qed.

(** X22: a job of the e-mail worker whose user has an address hands
    exactly one mail to the transporter: to that address, from the
    configured sender (or the default one), with the subject and body the
    template lookup gave.  When the transporter accepts it the
    notification is marked SENT and the job completes; when it refuses,
    the notification is marked FAILED with the transporter's message and
    the job fails with that error. *)
Theorem email_delivery users from sendMail nf job w row email subject html :
  find_notification (jd_notificationId job) (notifications w) = Some row ->
  getUserEmail users (jd_userId job) = Some email ->
  fst (sendEmail_content job (when_processing job w))
  = Normal (Some (subject, html)) ->
  calls (sendEmail users from sendMail nf job w)
  = [mail_of from email subject html]
  /\ match sendMail (mail_of from email subject html) with
     | None =>
         outcome (sendEmail users from sendMail nf job w) = Completed
         /\ marked_sent (jd_notificationId job) row
                        (after (sendEmail users from sendMail nf job w))
     | Some refusal =>
         outcome (sendEmail users from sendMail nf job w)
         = Failed (JsError refusal)
         /\ marked_failed (jd_notificationId job) refusal row
                          (after (sendEmail users from sendMail nf job w))
     end.
Proof.
  intros H Hemail Hcontent.
  destruct (when_processing_run job w row H) as (E & Hf & _).
  destruct (sendEmail_content_frame job (when_processing job w)) as [Hframe _].
  unfold sendEmail. rewrite E, Hemail.
  destruct (sendEmail_content job (when_processing job w)) as [c w2].
  cbn [fst snd] in Hcontent, Hframe. subst c.
  pose proof (find_after_content job w row _ w2 Hf Hframe) as Hf2.
  fold (mail_of from email subject html).
  destruct (sendMail (mail_of from email subject html)) as [refusal|].
  - destruct (on_failure_marks nf (jd_notificationId job) refusal
                [mail_of from email subject html] w2 row _ Hf2)
      as (H1 & H2 & _ & H4).
    now rewrite H1, H2.
  - destruct (sent_marks (jd_notificationId job) w2 row _ Hf2) as (x & Ex & Hs).
    rewrite Ex. cbn [calls outcome after]. now repeat split.
Qed.

Lemma email_delivery_witness :
  calls (sendEmail [ada] None accept_all "Record to update not found."
                   welcome_job worker_world)
  = [mail_of None "ada@example.org" "Welcome!" "Hi Ada"]
  /\ outcome (sendEmail [ada] None refuse_all "Record to update not found."
                        welcome_job worker_world)
     = Failed (JsError "connection refused").
Proof.
  split.
  - exact (proj1 (email_delivery [ada] None accept_all
                    "Record to update not found." welcome_job worker_world
                    processing_row "ada@example.org" "Welcome!" "Hi Ada"
                    eq_refl eq_refl eq_refl)).
  - exact (proj1 (proj2 (email_delivery [ada] None refuse_all
                    "Record to update not found." welcome_job worker_world
                    processing_row "ada@example.org" "Welcome!" "Hi Ada"
                    eq_refl eq_refl eq_refl))).
Defined.

(** X23: the SMS worker publishes one message on the topic [sms/<phone>]
    with quality of service 1.  When the publication succeeds the
    notification is marked SENT.  When it fails the job fails with the
    broker's error, but, the publication not being awaited inside the
    [try] block, the error handler is not run: the notification is left
    with status PROCESSING and no failure is recorded. *)
Theorem sms_publication users publish nf job w row phone ttl msg :
  find_notification (jd_notificationId job) (notifications w) = Some row ->
  getUserPhone users (jd_userId job) = Some phone ->
  fst (sendSMS_content job (when_processing job w)) = Normal (Some (ttl, msg)) ->
  exists publication,
    calls (sendSMS users publish nf job w) = [publication]
    /\ sp_topic publication = "sms/" ++ phone
    /\ sp_phone publication = phone
    /\ sp_title publication = ttl
    /\ sp_message publication = msg
    /\ sp_notificationId publication = jd_notificationId job
    /\ sp_qos publication = 1
    /\ match publish publication with
       | None =>
           outcome (sendSMS users publish nf job w) = Completed
           /\ marked_sent (jd_notificationId job) row
                          (after (sendSMS users publish nf job w))
       | Some refusal =>
           outcome (sendSMS users publish nf job w) = Failed (JsError refusal)
           /\ left_processing (jd_notificationId job) row
                              (after (sendSMS users publish nf job w))
       end.
Proof.
  intros H Hphone Hcontent.
  destruct (when_processing_run job w row H) as (E & Hf & _).
  destruct (sendSMS_content_frame job (when_processing job w)) as [Hframe _].
  unfold sendSMS. rewrite E, Hphone.
  destruct (sendSMS_content job (when_processing job w)) as [c w2].
  cbn [fst snd] in Hcontent, Hframe. subst c.
  pose proof (find_after_content job w row _ w2 Hf Hframe) as Hf2.
  cbv zeta.
  match goal with
  | |- context [publish ?p] => set (publication := p)
  end.
  exists publication.
  assert (Hf3 : find_notification (jd_notificationId job)
                  (notifications (set_reads w2 (S (reads w2))))
                = Some (apply_update (processing_data (clock w (reads w))) row))
    by exact Hf2.
  destruct (publish publication) as [refusal|].
  - cbn [calls outcome after]. do 7 (split; [reflexivity|]).
    split; [reflexivity|].
    eexists. split; [exact Hf3|]. cbn. repeat split.
  - destruct (sent_marks (jd_notificationId job) _ row _ Hf3) as (x & Ex & Hs).
    rewrite Ex. cbn [calls outcome after]. do 7 (split; [reflexivity|]).
    now split.
Qed.

Lemma sms_publication_witness :
  exists publication,
    calls (sendSMS [ada] refuse_all "Record to update not found."
                   welcome_job worker_world) = [publication]
    /\ sp_topic publication = "sms/+4400"
    /\ outcome (sendSMS [ada] refuse_all "Record to update not found."
                        welcome_job worker_world)
       = Failed (JsError "connection refused")
    /\ left_processing 7 processing_row
         (after (sendSMS [ada] refuse_all "Record to update not found."
                         welcome_job worker_world)).
Proof.
  destruct (sms_publication [ada] refuse_all "Record to update not found."
              welcome_job worker_world processing_row "+4400" "Welcome!" "Hi Ada"
              eq_refl eq_refl eq_refl)
    as (p & Hc & Ht & _ & _ & _ & _ & _ & Ho & Hl).
  exists p. split; [exact Hc|]. split; [exact Ht|]. split; [exact Ho|exact Hl].
Defined.

Lemma rejections_nil {A} (send : A -> option string) (ms : list A) :
  rejections (map send ms) = [] <-> Forall (fun m => send m = None) ms.
Proof.
  induction ms as [|m ms IH]; cbn [map rejections].
  - split; [constructor | reflexivity].
  - destruct (send m) as [refusal|] eqn:E.
    + split; [discriminate|]. intros H. inversion H; congruence.
    + rewrite IH. split; [now constructor | intros H; now inversion H].
Qed.

(** X24: the push worker sends one message to every active device token
    of the user, in the order of the tokens, each with the title, body
    and metadata of the job, and it sends all of them even when one is
    refused.  The notification is marked SENT exactly when every send
    succeeded; otherwise it is marked FAILED with the message of the
    rejection that [Promise.all] reports, and the job fails with it. *)
Theorem push_fan_out deviceTokens send nf first job w row ttl body :
  find_notification (jd_notificationId job) (notifications w) = Some row ->
  getDeviceTokens deviceTokens (jd_userId job) <> [] ->
  fst (sendPush_content job (when_processing job w)) = Normal (Some (ttl, body)) ->
  calls (sendPush deviceTokens send nf first job w)
  = map (push_message job ttl body) (getDeviceTokens deviceTokens (jd_userId job))
  /\ (Forall (fun m => send m = None)
             (calls (sendPush deviceTokens send nf first job w)) ->
      outcome (sendPush deviceTokens send nf first job w) = Completed
      /\ marked_sent (jd_notificationId job) row
                     (after (sendPush deviceTokens send nf first job w)))
  /\ (~ Forall (fun m => send m = None)
               (calls (sendPush deviceTokens send nf first job w)) ->
      outcome (sendPush deviceTokens send nf first job w)
      = Failed (JsError
                  (first (rejections
                            (map send
                                 (calls (sendPush deviceTokens send nf first
                                                  job w))))))
      /\ marked_failed (jd_notificationId job)
           (first (rejections
                     (map send
                          (calls (sendPush deviceTokens send nf first job w)))))
           row (after (sendPush deviceTokens send nf first job w))).
Proof.
  intros H Htokens Hcontent.
  destruct (when_processing_run job w row H) as (E & Hf & _).
  destruct (sendPush_content_frame job (when_processing job w)) as [Hframe _].
  unfold sendPush. rewrite E.
  destruct (getDeviceTokens deviceTokens (jd_userId job)) as [|token tokens];
    [contradiction|].
  destruct (sendPush_content job (when_processing job w)) as [c w2].
  cbn [fst snd] in Hcontent, Hframe. subst c.
  pose proof (find_after_content job w row _ w2 Hf Hframe) as Hf2.
  cbv zeta. fold (push_message job ttl body).
  set (messages := map (push_message job ttl body) (token :: tokens)).
  destruct (rejections (map send messages)) as [|refusal others] eqn:Er.
  - destruct (sent_marks (jd_notificationId job) w2 row _ Hf2) as (x & Ex & Hs).
    rewrite Ex. cbn [calls outcome after]. split; [reflexivity|]. split.
    + now split.
    + intros Hn. contradiction Hn. now apply rejections_nil.
  - destruct (on_failure_marks nf (jd_notificationId job)
                (first (refusal :: others)) messages w2 row _ Hf2)
      as (H1 & H2 & _ & H4).
    rewrite H1, H2. split; [reflexivity|]. split.
    + intros Hall. apply rejections_nil in Hall. congruence.
    + intros _. rewrite Er. now split.
Qed.

Lemma push_fan_out_witness :
  map pm_token
      (calls (sendPush both_devices refuse_tok_b "Record to update not found."
                       (fun failed => hd "" failed) welcome_job worker_world))
  = ["tok-a"; "tok-b"]
  /\ outcome (sendPush both_devices accept_all "Record to update not found."
                       (fun failed => hd "" failed) welcome_job worker_world)
     = Completed.
Proof.
  split.
  - rewrite (proj1 (push_fan_out both_devices refuse_tok_b
                      "Record to update not found." (fun failed => hd "" failed)
                      welcome_job worker_world processing_row "Welcome!" "Hi Ada"
                      eq_refl ltac:(discriminate) eq_refl)).
    reflexivity.
  - apply (push_fan_out both_devices accept_all
             "Record to update not found." (fun failed => hd "" failed)
             welcome_job worker_world processing_row "Welcome!" "Hi Ada"
             eq_refl ltac:(discriminate) eq_refl).
    repeat constructor.
Defined.

(* ===================================================================== *)
(** * Request surface: proofs *)
(* ===================================================================== *)

Lemma filter_partition_length {A} (p : A -> bool) (l : list A) :
  (List.length (filter p l) + List.length (filter (fun x => negb (p x)) l)
   = List.length l)%nat.
Proof.
  induction l as [|x l IH]; [reflexivity|].
  cbn [filter]. destruct (p x); cbn [negb List.length]; lia.
Qed.

(** X25: the reply to a bulk request accounts for every notification of
    the request: successCount and failureCount add up to their number,
    there is one identifier for each dispatch that succeeded (those of
    the stored notifications, in the order of the request), and success
    is reported exactly when no dispatch failed. *)
Theorem bulk_reply_accounts (ended : list (Completion Notification)) :
  reply_successCount (sendBulkNotifications_reply ended)
  + reply_failureCount (sendBulkNotifications_reply ended) = js_length ended
  /\ reply_successCount (sendBulkNotifications_reply ended)
     = js_length (filter ended_normally ended)
  /\ map Some (reply_notificationIds (sendBulkNotifications_reply ended))
     = map ended_id (filter ended_normally ended)
  /\ (reply_success (sendBulkNotifications_reply ended) = true
      <-> forallb ended_normally ended = true).
Proof.
  unfold sendBulkNotifications_reply, bulk_reply, allSettled, js_length.
  cbn [reply_successCount reply_failureCount reply_notificationIds reply_success].
  assert (Hs : forall l : list (Completion Notification),
             List.length (filter is_fulfilled
                            (map (fun c => match c with
                                           | Normal a => Fulfilled a
                                           | Throw e => Rejected e
                                           end) l))
             = List.length (filter ended_normally l)).
  { induction l as [|[n|e] l IH]; cbn; [reflexivity| |exact IH].
    now rewrite IH. }
  assert (Hf : forall l : list (Completion Notification),
             List.length (filter (fun r => negb (is_fulfilled r))
                            (map (fun c => match c with
                                           | Normal a => Fulfilled a
                                           | Throw e => Rejected e
                                           end) l))
             = List.length (filter (fun c => negb (ended_normally c)) l)).
  { induction l as [|[n|e] l IH]; cbn; [reflexivity|exact IH|].
    now rewrite IH. }
  rewrite Hs, Hf. split; [|split; [reflexivity|split]].
  - pose proof (filter_partition_length ended_normally ended). lia.
  - induction ended as [|[n|e] l IH]; cbn; [reflexivity| |exact IH].
    now rewrite IH.
  - rewrite Z.eqb_eq. clear. induction ended as [|[n|e] l IH]; cbn.
    + tauto.
    + exact IH.
    + split; [lia | discriminate].
Qed.

Lemma optimized_results (ended : list (Completion Notification)) :
  List.concat
    (map (fun batch => allSettled (map with_catch batch))
         (chunk_loop (List.length ended) 50 0 ended))
  = map (fun c => Fulfilled (match c with
                             | Normal n => Stored n
                             | Throw e => ErrorObject e
                             end)) ended.
Proof.
  rewrite (map_ext _ (map (fun c => Fulfilled (match c with
                                               | Normal n => Stored n
                                               | Throw e => ErrorObject e
                                               end)))).
  - rewrite <- concat_map, chunk_loop_concat by lia. reflexivity.
  - intros batch. unfold allSettled. rewrite map_map. apply map_ext.
    now intros [n|e].
Qed.

(** X26: [sendBulkNotificationsOptimized] never reports a failed
    dispatch: the [.catch] on each dispatch turns its failure into a
    fulfilled promise, so whatever the dispatches did the reply has
    success = true, failureCount = 0 and successCount = the number of
    notifications, and its list of identifiers has one entry for each
    notification of the request, which is undefined for those that
    failed. *)
Theorem optimized_bulk_reports_no_failure (ended : list (Completion Notification)) :
  reply_success (sendBulkNotificationsOptimized_reply ended) = true
  /\ reply_failureCount (sendBulkNotificationsOptimized_reply ended) = 0
  /\ reply_successCount (sendBulkNotificationsOptimized_reply ended)
     = js_length ended
  /\ reply_notificationIds (sendBulkNotificationsOptimized_reply ended)
     = map ended_id ended.
Proof.
  unfold sendBulkNotificationsOptimized_reply. rewrite optimized_results.
  unfold bulk_reply, js_length.
  cbn [reply_successCount reply_failureCount reply_notificationIds reply_success].
  assert (Hs : forall l : list (Completion Notification),
             filter is_fulfilled
                    (map (fun c => Fulfilled (match c with
                                              | Normal n => Stored n
                                              | Throw e => ErrorObject e
                                              end)) l)
             = map (fun c => Fulfilled (match c with
                                        | Normal n => Stored n
                                        | Throw e => ErrorObject e
                                        end)) l).
  { induction l as [|c l IH]; cbn; [reflexivity|]. now rewrite IH. }
  assert (Hf : forall l : list (Completion Notification),
             filter (fun r => negb (is_fulfilled r))
                    (map (fun c => Fulfilled (match c with
                                              | Normal n => Stored n
                                              | Throw e => ErrorObject e
                                              end)) l)
             = []).
  { induction l as [|c l IH]; cbn; [reflexivity|exact IH]. }
  rewrite Hs, Hf, length_map. repeat split.
  induction ended as [|[n|e] l IH]; cbn; [reflexivity| |]; now rewrite IH.
Qed.

(* ===================================================================== *)
(** * Chunks, batches and the metrics window: proofs *)
(* ===================================================================== *)

Lemma chunk_loop_sizes {A} (size : nat) (l : list A) :
  (0 < size)%nat ->
  forall fuel i,
    Forall (fun c => (1 <= List.length c <= size)%nat) (chunk_loop fuel size i l).
Proof.
  intros Hsize. induction fuel as [|fuel IH]; intros i; [constructor|].
  cbn [chunk_loop]. destruct (Nat.ltb_spec i (List.length l)) as [Hi|Hi];
    [|constructor].
  constructor; [|apply IH].
  rewrite length_firstn, length_skipn. lia.
Qed.

Lemma chunk_loop_count {A} (size : nat) (l : list A) :
  (0 < size)%nat ->
  forall fuel i,
    (List.length l - i <= fuel)%nat ->
    (List.length l - i <= List.length (chunk_loop fuel size i l) * size
     < List.length l - i + size)%nat.
Proof.
  intros Hsize. induction fuel as [|fuel IH]; intros i Hf.
  - cbn. lia.
  - cbn [chunk_loop]. destruct (Nat.ltb_spec i (List.length l)) as [Hi|Hi].
    + cbn [List.length]. specialize (IH (i + size)%nat ltac:(lia)).
      destruct (List.length (chunk_loop fuel size (i + size) l)) as [|k].
      * cbn in *. lia.
      * rewrite !Nat.mul_succ_l in *. lia.
    + cbn. lia.
Qed.

Lemma chunk_loop_nth {A} (size : nat) (l : list A) :
  forall fuel i j c,
    nth_error (chunk_loop fuel size i l) j = Some c ->
    c = firstn size (skipn (i + j * size) l)
    /\ (i + j * size < List.length l)%nat.
Proof.
  induction fuel as [|fuel IH]; intros i j c H.
  - now destruct j.
  - cbn [chunk_loop] in H.
    destruct (Nat.ltb_spec i (List.length l)) as [Hi|Hi]; [|now destruct j].
    destruct j as [|j]; cbn [nth_error] in H.
    + injection H as <-. now rewrite Nat.add_0_r.
    + destruct (IH _ _ _ H) as [-> Hlt].
      replace (i + S j * size)%nat with (i + size + j * size)%nat by lia.
      now split.
Qed.


Lemma push_metrics_window {A} (history : list A) (sample : A) :
  push_metrics (last_n 100 history) sample = last_n 100 (history ++ [sample]).
Proof.
  unfold push_metrics, last_n, js_length.
  rewrite !length_app, length_skipn. cbn [List.length].
  destruct (Z.gtb_spec (Z.of_nat (List.length history
                                  - (List.length history - 100) + 1)) 100)
    as [Hgt|Hle].
  - rewrite skipn_app, length_skipn, skipn_skipn.
    replace (List.length history - (List.length history - 100) + 1 - 100
             + (List.length history - 100))%nat
      with (List.length history + 1 - 100)%nat by lia.
    replace (List.length history - (List.length history - 100) + 1 - 100
             - (List.length history - (List.length history - 100)))%nat
      with 0%nat by lia.
    rewrite skipn_app.
    replace (List.length history + 1 - 100 - List.length history)%nat
      with 0%nat by lia.
    reflexivity.
  - replace (List.length history - 100)%nat with 0%nat by lia.
    replace (List.length history + 1 - 100)%nat with 0%nat by lia.
    reflexivity.
Qed.

Lemma collected_window {A} (history : list A) :
  collected history = last_n 100 history.
Proof.
  unfold collected. induction history as [|sample history IH] using rev_ind.
  - reflexivity.
  - rewrite fold_left_app. cbn [fold_left]. rewrite IH.
    apply push_metrics_window.
Qed.

(** X28: the performance monitor holds a sliding window: after any
    sequence of collected samples it holds the most recent 100 of them
    (all of them while there are no more than 100), oldest first, never
    more than 100, and the current metrics are the sample collected
    last. *)
Theorem metrics_window {A} (history : list A) :
  collected history = last_n 100 history
  /\ (List.length (collected history) <= 100)%nat
  /\ (forall sample,
         getCurrentMetrics (collected (history ++ [sample])) = Some sample)
  /\ getCurrentMetrics (collected (@nil A)) = None.
Proof.
  split; [apply collected_window|]. split; [|split; [|reflexivity]].
  - rewrite collected_window. unfold last_n. rewrite length_skipn. lia.
  - intros sample. rewrite collected_window. unfold last_n, getCurrentMetrics.
    rewrite length_app. cbn [List.length].
    rewrite skipn_app.
    replace (List.length history + 1 - 100 - List.length history)%nat
      with 0%nat by lia.
    cbn [skipn]. unfold js_length. rewrite length_app. cbn [List.length].
    destruct (Z.gtb_spec (Z.of_nat (List.length
                                      (skipn (List.length history + 1 - 100)
                                             history) + 1)) 0) as [_|Hle];
      [|lia].
    rewrite nth_error_app2 by lia.
    replace (List.length (skipn (List.length history + 1 - 100) history) + 1 - 1
             - List.length (skipn (List.length history + 1 - 100) history))%nat
      with 0%nat by lia.
    reflexivity.
Qed.

Lemma send_chunks_shape batchId total totalChunks :
  forall chunks index w,
  exists msgs r',
    send_chunks batchId total totalChunks index chunks w
    = (Normal tt, set_reads (set_produced w (produced w ++ msgs)) r')
    /\ List.length msgs = List.length chunks
    /\ forall j m,
        nth_error msgs j = Some m ->
        exists chunk,
          nth_error chunks j = Some chunk
          /\ km_topic m = "notification.bulk"
          /\ km_key m = batchId ++ "_chunk_" ++ Z_to_string (index + Z.of_nat j)
          /\ km_value m
             = {| bp_batchId := batchId ++ "_chunk_"
                                        ++ Z_to_string (index + Z.of_nat j);
                  bp_bulkNotifications := chunk;
                  bp_totalNotifications := total;
                  bp_chunkIndex := index + Z.of_nat j;
                  bp_totalChunks := totalChunks |}.
Proof.
  induction chunks as [|chunk rest IH]; intros index w.
  - exists [], (reads w). cbn. rewrite app_nil_r.
    split; [now destruct w|]. split; [reflexivity|]. now intros [|j].
  - cbn [send_chunks].
    cbv beta iota zeta delta [bind Date_now].
    match goal with |- context [send_chunks _ _ _ _ rest ?x] =>
      destruct (IH (index + 1) x) as (msgs & r' & E & Hl & Hm); rewrite E end.
    eexists (_ :: msgs), r'. split; [|split].
    + world_simpl. unfold set_reads, set_produced. cbn.
      rewrite <- app_assoc. reflexivity.
    + cbn. now rewrite Hl.
    + intros [|j] m Hj; cbn [nth_error] in *.
      * injection Hj as <-. exists chunk. cbn. rewrite Z.add_0_r.
        repeat split.
      * destruct (Hm j m Hj) as (c & Hc & Ht & Hk & Hv). exists c.
        replace (index + Z.of_nat (S j)) with (index + 1 + Z.of_nat j) by lia.
        now repeat split.
Qed.

(** X29: the bulk producer sends the notifications in chunks of 1000:
    the [j]-th message it produces carries the notifications [1000 j] to
    [1000 j + 999] (as far as there are), at least one and at most 1000
    of them, with chunkIndex [j], the number of messages as totalChunks
    and the number of notifications as totalNotifications; its key is its
    batch id, made of the caller's batch id (when one is given) and the
    index; and there are as many messages as it takes: the least number
    of chunks of 1000 that hold all the notifications. *)
Theorem producer_chunks notifications batchId w :
  exists msgs,
    produced (snd (producer_sendBulkNotifications notifications batchId w))
    = (produced w ++ msgs)%list
    /\ fst (producer_sendBulkNotifications notifications batchId w) = Normal tt
    /\ js_length notifications <= js_length msgs * 1000
       < js_length notifications + 1000
    /\ forall j m,
        nth_error msgs j = Some m ->
        km_topic m = "notification.bulk"
        /\ bp_bulkNotifications (km_value m)
           = firstn 1000 (skipn (j * 1000) notifications)
        /\ (1 <= List.length (bp_bulkNotifications (km_value m)) <= 1000)%nat
        /\ bp_chunkIndex (km_value m) = Z.of_nat j
        /\ bp_totalChunks (km_value m) = js_length msgs
        /\ bp_totalNotifications (km_value m) = js_length notifications
        /\ km_key m = bp_batchId (km_value m)
        /\ (forall b, batchId = Some b -> b <> "" ->
                      km_key m = b ++ "_chunk_" ++ Z_to_string (Z.of_nat j)).
Proof.
  assert (Hgen : forall bf w1,
             exists msgs r',
               send_chunks bf (js_length notifications)
                           (js_length (chunks_of notifications)) 0
                           (chunks_of notifications) w1
               = (Normal tt, set_reads (set_produced w1 (produced w1 ++ msgs)) r')
               /\ js_length notifications <= js_length msgs * 1000
                  < js_length notifications + 1000
               /\ forall j m,
                   nth_error msgs j = Some m ->
                   km_topic m = "notification.bulk"
                   /\ bp_bulkNotifications (km_value m)
                      = firstn 1000 (skipn (j * 1000) notifications)
                   /\ (1 <= List.length (bp_bulkNotifications (km_value m))
                       <= 1000)%nat
                   /\ bp_chunkIndex (km_value m) = Z.of_nat j
                   /\ bp_totalChunks (km_value m) = js_length msgs
                   /\ bp_totalNotifications (km_value m) = js_length notifications
                   /\ km_key m = bp_batchId (km_value m)
                   /\ km_key m = bf ++ "_chunk_" ++ Z_to_string (Z.of_nat j)).
  { intros bf w1.
    destruct (send_chunks_shape bf (js_length notifications)
                (js_length (chunks_of notifications)) (chunks_of notifications)
                0 w1) as (msgs & r' & E & Hl & Hm).
    exists msgs, r'. split; [exact E|].
    assert (Hcount : js_length (chunks_of notifications) = js_length msgs)
      by (unfold js_length; now rewrite Hl).
    split.
    - pose proof (chunk_loop_count 1000 notifications ltac:(lia)
                    (List.length notifications) 0%nat ltac:(lia)) as H.
      unfold js_length. rewrite Hl. unfold chunks_of, chunkSize. lia.
    - intros j m Hj. destruct (Hm j m Hj) as (chunk & Hc & Ht & Hk & Hv).
      destruct (chunk_loop_nth _ _ _ _ _ _ Hc) as [Echunk Hlt].
      cbn [Nat.add] in Echunk. unfold chunkSize in Echunk.
      rewrite Hv, Hk. cbn [bp_bulkNotifications bp_chunkIndex bp_totalChunks
                           bp_totalNotifications bp_batchId].
      rewrite Z.add_0_l. split; [exact Ht|]. split; [exact Echunk|]. split.
      + pose proof (chunk_loop_sizes 1000 notifications ltac:(lia)
                      (List.length notifications) 0%nat) as Hs.
        rewrite Forall_forall in Hs. apply Hs.
        apply (nth_error_In _ j). exact Hc.
      + now repeat split. }
  unfold producer_sendBulkNotifications.
  destruct batchId as [b|]; [destruct (String.eqb_spec b "") as [->|Hne]|];
    cbv beta iota zeta delta [bind Date_now ret negb];
    match goal with |- context [send_chunks ?bf _ _ _ _ ?x] =>
      destruct (Hgen bf x) as (msgs & r' & E & Hcount & Hm); rewrite E end;
    exists msgs; (split; [reflexivity|]); (split; [reflexivity|]);
    (split; [exact Hcount|]);
    intros j m Hj;
    destruct (Hm j m Hj) as (H1 & H2 & H3 & H4 & H5 & H6 & H7 & H8);
    repeat (split; [assumption|]).
  - intros b [= <-] Hb. contradiction.
  - intros b' [= <-] _. exact H8.
  - discriminate.
Qed.

Lemma producer_chunks_witness :
  exists msgs,
    produced (snd (producer_sendBulkNotifications [welcome_dto; welcome_dto]
                     (Some "campaign") u2_world)) = msgs
    /\ map km_key msgs = ["campaign_chunk_0"].
Proof.
  destruct (producer_chunks [welcome_dto; welcome_dto] (Some "campaign") u2_world)
    as (msgs & Hp & _ & _ & Hm).
  exists msgs. split; [exact Hp|].
  assert (E : msgs = produced (snd (producer_sendBulkNotifications
                                      [welcome_dto; welcome_dto]
                                      (Some "campaign") u2_world)))
    by (symmetry; exact Hp).
  rewrite E. reflexivity.
Defined.
